(** * dufs-client: a shallow embedding of [dufs_downloader.py]

    The Python program is embedded function by function.  Conventions:

    - a Python [str] is a Rocq [string]; the embedding covers ASCII text
      (whitespace, digit and letter tests are those of the ASCII range,
      characters from 0x80 on are carried along unchanged);
    - a call that may raise returns [res A]: the value, or the exception;
    - a call of the model that may have no answer returns [option]: [None]
      stands for a recursion that ran out of fuel, or for an input outside
      the embedded fragment (named where it occurs);
    - the remote server and the external tools are read as oracles, held in
      a record [env]; the local file system, the standard output and the
      transfers performed are the state [world], passed explicitly. *)

From Stdlib Require Import String Ascii List ZArith Lia Bool Arith DecimalString.
Import ListNotations.
Set Warnings "-register-all".
Open Scope list_scope.
Open Scope string_scope.

(* ================================================================= *)
(** ** Python strings *)

Definition ord (c : ascii) : nat := nat_of_ascii c.

(** [str.isspace] on one ASCII character: TAB..CR, FS..US and the space. *)
Definition isspace (c : ascii) : bool :=
  (Nat.leb 9 (ord c) && Nat.leb (ord c) 13)
  || (Nat.leb 28 (ord c) && Nat.leb (ord c) 32).

Definition isdigit_char (c : ascii) : bool :=
  Nat.leb 48 (ord c) && Nat.leb (ord c) 57.

Definition isupper_char (c : ascii) : bool :=
  Nat.leb 65 (ord c) && Nat.leb (ord c) 90.

Definition islower_char (c : ascii) : bool :=
  Nat.leb 97 (ord c) && Nat.leb (ord c) 122.

Definition isalpha_char (c : ascii) : bool :=
  isupper_char c || islower_char c.

Definition lower_char (c : ascii) : ascii :=
  if isupper_char c then ascii_of_nat (ord c + 32) else c.

(** [c in chars] for a one-character [c]. *)
Fixpoint mem_char (c : ascii) (chars : string) : bool :=
  match chars with
  | EmptyString => false
  | String d rest => Ascii.eqb c d || mem_char c rest
  end.

Fixpoint all_chars (p : ascii -> bool) (s : string) : bool :=
  match s with
  | EmptyString => true
  | String c rest => p c && all_chars p rest
  end.

Fixpoint map_chars (f : ascii -> ascii) (s : string) : string :=
  match s with
  | EmptyString => EmptyString
  | String c rest => String (f c) (map_chars f rest)
  end.

(** [filter_chars p s] keeps the characters on which [p] holds. *)
Fixpoint filter_chars (p : ascii -> bool) (s : string) : string :=
  match s with
  | EmptyString => EmptyString
  | String c rest =>
      if p c then String c (filter_chars p rest) else filter_chars p rest
  end.

(** [s.lstrip(...)], [s.rstrip(...)], [s.strip(...)]: [p] tells the
    characters to strip. *)
Fixpoint lstrip_by (p : ascii -> bool) (s : string) : string :=
  match s with
  | EmptyString => EmptyString
  | String c rest => if p c then lstrip_by p rest else s
  end.

Fixpoint rstrip_by (p : ascii -> bool) (s : string) : string :=
  match s with
  | EmptyString => EmptyString
  | String c rest =>
      match rstrip_by p rest with
      | EmptyString => if p c then EmptyString else String c EmptyString
      | r => String c r
      end
  end.

Definition strip_by (p : ascii -> bool) (s : string) : string :=
  rstrip_by p (lstrip_by p s).

Definition is_slash (c : ascii) : bool := Ascii.eqb c "/".

(** [s.strip()], [s.rstrip("/")], [s.lstrip("/")], [s.strip("/")]. *)
Definition strip (s : string) : string := strip_by isspace s.
Definition rstrip_slash (s : string) : string := rstrip_by is_slash s.
Definition lstrip_slash (s : string) : string := lstrip_by is_slash s.
Definition strip_slash (s : string) : string := strip_by is_slash s.

Definition lower (s : string) : string := map_chars lower_char s.

(** [s.startswith(p)] and [s.endswith(p)]. *)
Definition startswith (s p : string) : bool := prefix p s.

Fixpoint endswith (s suf : string) : bool :=
  if String.eqb s suf then true
  else match s with
       | EmptyString => false
       | String _ rest => endswith rest suf
       end.

(** [s.split(sep)] for a one-character separator. *)
Fixpoint split (sep : ascii) (s : string) : list string :=
  match s with
  | EmptyString => [EmptyString]
  | String c rest =>
      if Ascii.eqb c sep then EmptyString :: split sep rest
      else match split sep rest with
           | [] => [String c EmptyString]
           | h :: t => String c h :: t
           end
  end.

(** [sep.join(parts)]. *)
Definition join (sep : string) (parts : list string) : string :=
  String.concat sep parts.

(** [s[n:]] and [s[:n]]. *)
Fixpoint drop (n : nat) (s : string) : string :=
  match n, s with
  | O, _ => s
  | S _, EmptyString => EmptyString
  | S m, String _ rest => drop m rest
  end.

Fixpoint take (n : nat) (s : string) : string :=
  match n, s with
  | O, _ => EmptyString
  | S _, EmptyString => EmptyString
  | S m, String c rest => String c (take m rest)
  end.

(** [repr(s)] of an ASCII [str]: between single quotes, or double ones
    when [s] holds a single quote and no double one; the quote in use and
    the backslash are escaped, TAB, LF and CR are written by letter, the
    other control characters in hexadecimal. *)
Definition squote : ascii := ascii_of_nat 39.
Definition dquote : ascii := ascii_of_nat 34.
Definition backslash : ascii := ascii_of_nat 92.

Definition hex_digit (n : nat) : ascii :=
  ascii_of_nat (if Nat.ltb n 10 then 48 + n else 87 + n).

Definition repr_char (quote c : ascii) : string :=
  if Ascii.eqb c quote || Ascii.eqb c backslash
  then String backslash (String c EmptyString)
  else if Nat.eqb (ord c) 9 then String backslash "t"
  else if Nat.eqb (ord c) 10 then String backslash "n"
  else if Nat.eqb (ord c) 13 then String backslash "r"
  else if Nat.ltb (ord c) 32 || Nat.eqb (ord c) 127
  then String backslash
              (String "x" (String (hex_digit (ord c / 16))
                                  (String (hex_digit (ord c mod 16))
                                          EmptyString)))
  else String c EmptyString.

Fixpoint repr_body (quote : ascii) (s : string) : string :=
  match s with
  | EmptyString => EmptyString
  | String c rest => repr_char quote c ++ repr_body quote rest
  end.

Definition py_repr (s : string) : string :=
  let quote := if mem_char squote s && negb (mem_char dquote s)
               then dquote else squote in
  String quote (repr_body quote s ++ String quote EmptyString).

(** [s.isdigit()]: non-empty, digits only. *)
Definition isdigit (s : string) : bool :=
  match s with
  | EmptyString => false
  | _ => all_chars isdigit_char s
  end.

(** Python truthiness of a [str]. *)
Definition nonempty (s : string) : bool :=
  match s with EmptyString => false | _ => true end.

(** [l[-1]] of a list of strings that is never empty where it is used
    (the result of a [split]). *)
Definition last_part (l : list string) : string := List.last l EmptyString.

(** [s.split(c, 1)] when [c] occurs in [s]: the text before and after the
    first [c]. *)
Fixpoint cut_at (c : ascii) (s : string) : option (string * string) :=
  match s with
  | EmptyString => None
  | String d rest =>
      if Ascii.eqb d c then Some (EmptyString, rest)
      else match cut_at c rest with
           | Some (a, b) => Some (String d a, b)
           | None => None
           end
  end.

(** [s.rpartition(c)] when [c] occurs in [s]: before and after the last
    [c]. *)
Fixpoint rcut_at (c : ascii) (s : string) : option (string * string) :=
  match s with
  | EmptyString => None
  | String d rest =>
      match rcut_at c rest with
      | Some (a, b) => Some (String d a, b)
      | None => if Ascii.eqb d c then Some (EmptyString, rest) else None
      end
  end.

(** The longest prefix whose characters all fail [p], and the rest. *)
Fixpoint span_until (p : ascii -> bool) (s : string) : string * string :=
  match s with
  | EmptyString => (EmptyString, EmptyString)
  | String c rest =>
      if p c then (EmptyString, s)
      else let (a, b) := span_until p rest in (String c a, b)
  end.

(* ================================================================= *)
(** ** normalize_base_url *)

Definition has_scheme (s : string) : bool :=
  startswith s "http://" || startswith s "https://".

Definition normalize_base_url (url : string) : string :=
  let url := rstrip_slash (strip url) in
  if negb (has_scheme url) then "http://" ++ url else url.

(* ================================================================= *)
(** ** Exceptions *)

(** The exception classes the program tells apart.  [URLError],
    [HTTPError], timeouts and the file-system errors are [OSError]s;
    [JSONDecodeError] and [UnicodeDecodeError] are [ValueError]s;
    [HTTPException] stands for the errors of [http.client].  All of them
    derive from [Exception]. *)
Inductive exn_class : Type :=
| KeyError
| TypeError
| AttributeError
| ValueError
| OSError
| HTTPException.

(** An exception: its class and [str(e)]. *)
Record exn : Type := Exn { exn_kind : exn_class; exn_msg : string }.

Inductive res (A : Type) : Type :=
| Ok (a : A)
| Raise (e : exn).
Arguments Ok {A} a.
Arguments Raise {A} e.

Definition res_bind {A B : Type} (r : res A) (k : A -> res B) : res B :=
  match r with
  | Ok a => k a
  | Raise e => Raise e
  end.

(** The partial, raising computations: [None] is "no answer". *)
Definition pres (A : Type) : Type := option (res A).

Definition pres_bind {A B : Type} (m : pres A) (k : A -> pres B) : pres B :=
  match m with
  | Some (Ok a) => k a
  | Some (Raise e) => Some (Raise e)
  | None => None
  end.

Declare Scope py_scope.
Delimit Scope py_scope with py.
Notation "x <- m ;; k" := (pres_bind m (fun x => k))
  (at level 61, m at next level, right associativity) : py_scope.
Notation "' pat <- m ;; k" := (pres_bind m (fun x => match x with pat => k end))
  (at level 61, pat pattern, m at next level, right associativity) : py_scope.

Definition ret {A : Type} (a : A) : pres A := Some (Ok a).
Definition raise {A : Type} (k : exn_class) (msg : string) : pres A :=
  Some (Raise (Exn k msg)).

(* ================================================================= *)
(** ** urllib.parse (CPython 3.12, [str] arguments) *)

Record url_parts : Type := UrlParts {
  u_scheme : string;
  u_netloc : string;
  u_path : string;
  u_params : string;
  u_query : string;
  u_fragment : string
}.

Definition uses_relative : list string :=
  [""; "ftp"; "http"; "gopher"; "nntp"; "imap"; "wais"; "file"; "https";
   "shttp"; "mms"; "prospero"; "rtsp"; "rtspu"; "sftp"; "svn"; "svn+ssh";
   "ws"; "wss"].

Definition uses_netloc : list string :=
  [""; "ftp"; "http"; "gopher"; "nntp"; "telnet"; "imap"; "wais"; "file";
   "mms"; "https"; "shttp"; "snews"; "prospero"; "rtsp"; "rtspu"; "rsync";
   "svn"; "svn+ssh"; "sftp"; "nfs"; "git"; "git+ssh"; "ws"; "wss"].

Definition uses_params : list string :=
  [""; "ftp"; "hdl"; "prospero"; "http"; "imap"; "https"; "shttp"; "rtsp";
   "rtspu"; "sip"; "sips"; "mms"; "sftp"; "tel"].

Definition mem_str (s : string) (l : list string) : bool :=
  existsb (String.eqb s) l.

(** [_WHATWG_C0_CONTROL_OR_SPACE]: the characters up to the space. *)
Definition c0_or_space (c : ascii) : bool := Nat.leb (ord c) 32.

(** [_UNSAFE_URL_BYTES_TO_REMOVE]: TAB, CR, LF. *)
Definition unsafe_url_byte (c : ascii) : bool :=
  Nat.eqb (ord c) 9 || Nat.eqb (ord c) 13 || Nat.eqb (ord c) 10.

Definition scheme_char (c : ascii) : bool :=
  isalpha_char c || isdigit_char c || mem_char c "+-.".

Definition is_ascii_char (c : ascii) : bool := Nat.leb (ord c) 127.

(** The scheme of [url], if it starts with one, and what follows the
    colon. *)
Definition split_scheme (url : string) : option (string * string) :=
  match url with
  | EmptyString => None
  | String c0 _ =>
      match cut_at ":" url with
      | Some (String _ _ as s, rest) =>
          if isalpha_char c0 && all_chars scheme_char s
          then Some (lower s, rest) else None
      | _ => None
      end
  end.

(** [urlsplit(url, scheme)], with [u_params] left empty.  A netloc that
    holds only one of the brackets raises [ValueError]; the checks of a
    bracketed host and of a non-ASCII netloc are outside the embedded
    fragment ([None]). *)
Definition urlsplit (url scheme : string) : pres url_parts :=
  let url := lstrip_by c0_or_space url in
  let scheme := strip_by c0_or_space scheme in
  let url := filter_chars (fun c => negb (unsafe_url_byte c)) url in
  let scheme := filter_chars (fun c => negb (unsafe_url_byte c)) scheme in
  let (scheme, url) :=
    match split_scheme url with
    | Some (s, rest) => (s, rest)
    | None => (scheme, url)
    end in
  let (netloc, url) :=
    if startswith url "//"
    then span_until (fun c => mem_char c "/?#") (drop 2 url)
    else (EmptyString, url) in
  let lb := mem_char "[" netloc in
  let rb := mem_char "]" netloc in
  if xorb lb rb then raise ValueError "Invalid IPv6 URL"
  else if lb || negb (all_chars is_ascii_char netloc) then None
  else
    let (url, fragment) :=
      match cut_at "#" url with
      | Some (a, b) => (a, b)
      | None => (url, EmptyString)
      end in
    let (url, query) :=
      match cut_at "?" url with
      | Some (a, b) => (a, b)
      | None => (url, EmptyString)
      end in
    ret (UrlParts scheme netloc url EmptyString query fragment).

(** [_splitparams(url)], called on a [url] that holds a semicolon. *)
Definition splitparams (url : string) : string * string :=
  match rcut_at "/" url with
  | Some (dir, tail) =>
      match cut_at ";" tail with
      | Some (a, b) => (dir ++ "/" ++ a, b)
      | None => (url, EmptyString)
      end
  | None =>
      match cut_at ";" url with
      | Some (a, b) => (a, b)
      | None => (url, EmptyString)
      end
  end.

Definition urlparse (url scheme : string) : pres url_parts :=
  (p <- urlsplit url scheme ;;
   if mem_str (u_scheme p) uses_params && mem_char ";" (u_path p)
   then let (path, params) := splitparams (u_path p) in
        ret (UrlParts (u_scheme p) (u_netloc p) path params
                      (u_query p) (u_fragment p))
   else ret p)%py.

Definition urlunsplit (scheme netloc url query fragment : string) : string :=
  let url :=
    if nonempty netloc
       || (nonempty scheme && mem_str scheme uses_netloc
           && negb (startswith url "//"))
    then "//" ++ netloc ++ (if nonempty url && negb (startswith url "/")
                            then "/" ++ url else url)
    else url in
  let url := if nonempty scheme then scheme ++ ":" ++ url else url in
  let url := if nonempty query then url ++ "?" ++ query else url in
  if nonempty fragment then url ++ "#" ++ fragment else url.

Definition urlunparse (p : url_parts) : string :=
  let url := if nonempty (u_params p)
             then u_path p ++ ";" ++ u_params p else u_path p in
  urlunsplit (u_scheme p) (u_netloc p) url (u_query p) (u_fragment p).

(** [segments[1:-1] = filter(None, segments[1:-1])]. *)
Definition drop_inner_empty (segments : list string) : list string :=
  match segments with
  | first :: (_ :: _) as rest =>
      first :: (filter nonempty (removelast rest) ++ [last_part rest])%list
  | _ => segments
  end.

(** The loop of [urljoin] that resolves the dot segments; [acc] is
    [resolved_path]. *)
Fixpoint resolve_dots (segments acc : list string) : list string :=
  match segments with
  | [] => acc
  | seg :: rest =>
      if String.eqb seg ".." then resolve_dots rest (removelast acc)
      else if String.eqb seg "." then resolve_dots rest acc
      else resolve_dots rest (acc ++ [seg])%list
  end.

Definition urljoin (base url : string) : pres string :=
  if negb (nonempty base) then ret url
  else if negb (nonempty url) then ret base
  else
    (b <- urlparse base "" ;;
     u <- urlparse url (u_scheme b) ;;
     if negb (String.eqb (u_scheme u) (u_scheme b))
        || negb (mem_str (u_scheme u) uses_relative)
     then ret url
     else if mem_str (u_scheme u) uses_netloc && nonempty (u_netloc u)
     then ret (urlunparse u)
     else
       let netloc := if mem_str (u_scheme u) uses_netloc
                     then u_netloc b else u_netloc u in
       if negb (nonempty (u_path u)) && negb (nonempty (u_params u))
       then
         let query := if nonempty (u_query u)
                      then u_query u else u_query b in
         ret (urlunparse (UrlParts (u_scheme u) netloc (u_path b)
                                   (u_params b) query (u_fragment u)))
       else
         let base_parts := split "/" (u_path b) in
         let base_parts :=
           if nonempty (last_part base_parts)
           then removelast base_parts else base_parts in
         let segments :=
           if startswith (u_path u) "/" then split "/" (u_path u)
           else drop_inner_empty (base_parts ++ split "/" (u_path u))%list in
         let resolved := resolve_dots segments [] in
         let resolved :=
           if mem_str (last_part segments) ["."; ".."]
           then (resolved ++ [EmptyString])%list else resolved in
         let path := join "/" resolved in
         let path := if nonempty path then path else "/" in
         ret (urlunparse (UrlParts (u_scheme u) netloc path (u_params u)
                                   (u_query u) (u_fragment u))))%py.

(* ================================================================= *)
(** ** urllib.request.Request *)

(** [urllib.parse.unwrap]. *)
Definition unwrap (url : string) : string :=
  let url := strip url in
  let url := if startswith url "<" && endswith url ">"
             then strip (take (String.length url - 2) (drop 1 url)) else url in
  if startswith url "URL:" then strip (drop 4 url) else url.

(** [_splittype] finds a type: a non-empty run without slash or colon,
    followed by a colon. *)
Definition has_url_type (url : string) : bool :=
  match span_until (fun c => mem_char c "/:") url with
  | (String _ _, String c _) => Ascii.eqb c ":"
  | _ => false
  end.

(** [Request(url, ...)] succeeds or raises [ValueError]; only that is
    kept of the request object, the URL itself names the request.  The
    message shows [full_url]: the unwrapped URL, without a [#] that
    nothing follows. *)
Definition Request (url : string) : pres string :=
  let unwrapped := unwrap url in
  let '(full, fragment) := match rcut_at "#" unwrapped with
                           | Some (a, b) => (a, b)
                           | None => (unwrapped, EmptyString)
                           end in
  if has_url_type full then ret url
  else raise ValueError
             ("unknown url type: "
                ++ py_repr (if nonempty fragment
                            then full ++ "#" ++ fragment else full)).

(* ================================================================= *)
(** ** JSON values, as [json.loads] returns them *)

Inductive json : Type :=
| JNull
| JBool (b : bool)
| JInt (n : Z)
| JFloat (mantissa exponent : Z)
| JStr (s : string)
| JArr (items : list json)
| JObj (members : list (string * json)).

(** [d.get(key)] and [key in d] on the members of a dict. *)
Fixpoint dict_get (key : string) (members : list (string * json))
  : option json :=
  match members with
  | [] => None
  | (k, v) :: rest => if String.eqb k key then Some v else dict_get key rest
  end.

Definition type_name (v : json) : string :=
  match v with
  | JNull => "NoneType"
  | JBool _ => "bool"
  | JInt _ => "int"
  | JFloat _ _ => "float"
  | JStr _ => "str"
  | JArr _ => "list"
  | JObj _ => "dict"
  end.

(** Python truthiness. *)
Definition truthy (v : json) : bool :=
  match v with
  | JNull => false
  | JBool b => b
  | JInt n => negb (Z.eqb n 0)
  | JFloat m _ => negb (Z.eqb m 0)
  | JStr s => nonempty s
  | JArr l => match l with [] => false | _ => true end
  | JObj m => match m with [] => false | _ => true end
  end.

Fixpoint chars_of (s : string) : list json :=
  match s with
  | EmptyString => []
  | String c rest => JStr (String c EmptyString) :: chars_of rest
  end.

(** What [for p in v] iterates over; [TypeError] when [v] is not
    iterable. *)
Definition py_iter (v : json) : pres (list json) :=
  match v with
  | JArr l => ret l
  | JObj m => ret (map (fun kv => JStr (fst kv)) m)
  | JStr s => ret (chars_of s)
  | _ => raise TypeError ("'" ++ type_name v ++ "' object is not iterable")
  end.

Definition no_attribute {A : Type} (v : json) (attr : string) : pres A :=
  raise AttributeError
        ("'" ++ type_name v ++ "' object has no attribute '" ++ attr ++ "'").

(** [int(s)] for a [str], read the way the interpreter reads it: blanks,
    a sign, decimal digits with single underscores between them, blanks.
    The blanks of [int] are TAB..CR and the space: FS..US, which
    [str.strip] removes, are no part of a number. *)
Definition int_space (c : ascii) : bool :=
  (Nat.leb 9 (ord c) && Nat.leb (ord c) 13) || Nat.eqb (ord c) 32.

(** The run of digits and underscores at the head of [s]: its value, the
    number of its digits and what follows it; [None] when two underscores
    meet or one ends the run. *)
Fixpoint scan_digits (s : string) (acc : Z) (digits : nat)
         (after_underscore : bool) : option (Z * nat * string) :=
  match s with
  | EmptyString =>
      if after_underscore then None else Some (acc, digits, EmptyString)
  | String c rest =>
      if isdigit_char c
      then scan_digits rest (10 * acc + Z.of_nat (ord c - 48))%Z
                       (S digits) false
      else if Ascii.eqb c "_"
      then if after_underscore then None
           else scan_digits rest acc digits true
      else if after_underscore then None else Some (acc, digits, s)
  end.

(** [sys.get_int_max_str_digits()], as the interpreter starts: a longer
    number is not converted. *)
Definition int_max_str_digits : nat := 4300.

Inductive int_outcome : Type :=
| IntValue (n : Z)
| InvalidLiteral
| ExceedsLimit (digits : nat).

(** The number of digits is checked once the run of digits is read, before
    what follows the run is looked at. *)
Definition read_int (s : string) : int_outcome :=
  let s := lstrip_by int_space s in
  let '(negative, body) := match s with
                           | String "-" body => (true, body)
                           | String "+" body => (false, body)
                           | _ => (false, s)
                           end in
  if startswith body "_" then InvalidLiteral
  else
    match scan_digits body 0%Z 0 false with
    | None => InvalidLiteral
    | Some (n, digits, rest) =>
        if Nat.ltb int_max_str_digits digits then ExceedsLimit digits
        else if Nat.eqb digits 0 then InvalidLiteral
        else if nonempty (lstrip_by int_space rest) then InvalidLiteral
        else IntValue (if negative then Z.opp n else n)
    end.

(** [int(s)] under a handler that turns its [ValueError] into [None]. *)
Definition py_int (s : string) : option Z :=
  match read_int s with
  | IntValue n => Some n
  | _ => None
  end.

(* ================================================================= *)
(** ** The environment: the server and the external tools *)

Inductive tool : Type := Wget | Curl | Builtin.

(** What [urlopen(url)] followed by reading the body gives: the connection
    fails, or a body arrives, whole or cut short by an exception. *)
Inductive get_outcome : Type :=
| ConnFail (e : exn)
| Body (data : string) (cut : option exn).

Record env : Type := Env {
  (** [json.loads(urlopen(url).read().decode())] *)
  get_json : string -> res json;
  (** [urlopen(url).read().decode()] *)
  get_text : string -> res string;
  (** the Content-Length header of the answer to a HEAD request *)
  head_content_length : string -> res (option string);
  (** a GET of a file, read in chunks *)
  get_file : string -> get_outcome;
  (** [shutil.which("wget")], [shutil.which("curl")] *)
  which_wget : bool;
  which_curl : bool;
  (** a run of wget or curl on a URL: its return code and, when it wrote
      the output file, what it left there *)
  run_tool : tool -> string -> Z * option string
}.

(* ================================================================= *)
(** ** Directory listings *)

Definition entry : Type := (string * bool)%type.

(** The URL of a listing request, up to the query marker. *)
Definition listing_url (base_url path : string) : pres string :=
  (url <- urljoin (base_url ++ "/")
                  (lstrip_slash (if nonempty path then path else ".") ++ "/") ;;
   ret (if negb (endswith url "/") then url ++ "/" else url))%py.

Definition fetch_json (e : env) (base_url path : string) : pres json :=
  (url <- listing_url base_url path ;;
   req <- Request (url ++ "?json") ;;
   Some (get_json e req))%py.

Fixpoint simple_entries (lines : list string) : list entry :=
  match lines with
  | [] => []
  | line :: rest =>
      if negb (nonempty line) then simple_entries rest
      else (rstrip_slash line, endswith line "/") :: simple_entries rest
  end.

Definition newline : ascii := ascii_of_nat 10.

Definition fetch_simple (e : env) (base_url path : string)
  : pres (list entry) :=
  (url <- listing_url base_url path ;;
   req <- Request (url ++ "?simple") ;;
   text <- Some (get_text e req) ;;
   ret (simple_entries (split newline (strip text))))%py.

(** One pass of the loop body of [list_directory] on the item [p].  A
    [name] member that is kept and is not a string is outside the embedded
    fragment ([None]): the entries of the model carry [str] names, as the
    annotation of [list_directory] has them. *)
Definition listing_entry (p : json) : pres entry :=
  match p with
  | JObj m =>
      let name := match dict_get "name" m with
                  | Some v => v
                  | None => JStr EmptyString
                  end in
      (name <-
         match negb (truthy name), dict_get "href" m with
         | true, Some (JStr h) =>
             let href := rstrip_slash h in
             ret (if nonempty href then last_part (split "/" href)
                  else EmptyString)
         | true, Some v => no_attribute v "rstrip"
         | _, _ => match name with
                   | JStr s => ret s
                   | _ => None
                   end
         end ;;
       let path_type := match dict_get "path_type" m with
                        | Some v => v
                        | None => JStr EmptyString
                        end in
       let is_dir := match path_type with
                     | JStr s => endswith s "Dir"
                     | _ => false
                     end in
       ret (name, is_dir))%py
  | _ => no_attribute p "get"
  end.

Fixpoint listing_entries (items : list json) : pres (list entry) :=
  match items with
  | [] => ret []
  | p :: rest =>
      (x <- listing_entry p ;;
       xs <- listing_entries rest ;;
       ret (x :: xs))%py
  end.

(** [not_iterable v]: [for p in v] raises [TypeError]. *)
Definition not_iterable (v : json) : bool :=
  match v with
  | JNull | JBool _ | JInt _ | JFloat _ _ => true
  | _ => false
  end.

(** The body of the [try] of [list_directory], after [fetch_json]. *)
Definition parse_listing (data : json) : pres (list entry) :=
  match data with
  | JObj m =>
      let paths := match dict_get "paths" m with
                   | Some v => v
                   | None => JArr []
                   end in
      (items <- py_iter paths ;; listing_entries items)%py
  | _ => no_attribute data "get"
  end.

(** [except (KeyError, TypeError)]. *)
Definition key_or_type_error (e : exn) : bool :=
  match exn_kind e with
  | KeyError | TypeError => true
  | _ => false
  end.

Definition list_directory (e : env) (base_url path : string)
  : pres (list entry) :=
  match (data <- fetch_json e base_url path ;; parse_listing data)%py with
  | Some (Raise ex) =>
      if key_or_type_error ex then fetch_simple e base_url path
      else Some (Raise ex)
  | r => r
  end.

(* ================================================================= *)
(** ** get_remote_size *)

(** The URL of a file, for HEAD and GET. *)
Definition file_url (base_url remote_path : string) : pres string :=
  urljoin (base_url ++ "/") (lstrip_slash remote_path).

Definition get_remote_size (e : env) (base_url remote_path : string)
  : pres (option Z) :=
  (url <- file_url base_url remote_path ;;
   req <- Request url ;;
   match head_content_length e req with
   | Ok (Some cl) => ret (py_int cl)
   | Ok None => ret None
   | Raise _ => ret None
   end)%py.

(* ================================================================= *)
(** ** pathlib and the local file system *)

(** An absolute POSIX path: its components below the root.  The model has
    no symbolic links, no permissions and a single root. *)
Definition Path : Type := list string.

(** The components a [str] contributes to a path: empty and [.]
    components are dropped. *)
Definition path_components (s : string) : list string :=
  filter (fun c => nonempty c && negb (String.eqb c ".")) (split "/" s).

(** [p / s]: an absolute [s] replaces [p].  With the single root of the
    model, an [s] that begins with exactly two slashes, for which pathlib
    keeps a root [//] of its own, is read as beginning with one. *)
Definition path_div (p : Path) (s : string) : Path :=
  if startswith s "/" then path_components s
  else (p ++ path_components s)%list.

(** [p.resolve()]: without links, the [..] components are applied.  (The
    components of a path hold no NUL character, on which [resolve]
    raises.) *)
Definition resolve (p : Path) : Path := resolve_dots p [].

Definition path_parent (p : Path) : Path := removelast p.
Definition path_name (p : Path) : string := last_part p.
Definition path_str (p : Path) : string := "/" ++ join "/" p.

Inductive node : Type :=
| File (content : string)
| Dir (entries : list (string * node)).

Fixpoint assoc (name : string) (entries : list (string * node))
  : option node :=
  match entries with
  | [] => None
  | (k, v) :: rest => if String.eqb k name then Some v else assoc name rest
  end.

(** Replaces the node called [name], or adds it at the end. *)
Fixpoint assoc_set (name : string) (n : node) (entries : list (string * node))
  : list (string * node) :=
  match entries with
  | [] => [(name, n)]
  | (k, v) :: rest =>
      if String.eqb k name then (k, n) :: rest
      else (k, v) :: assoc_set name n rest
  end.

Fixpoint lookup (n : node) (p : Path) : option node :=
  match p with
  | [] => Some n
  | c :: rest =>
      match n with
      | File _ => None
      | Dir entries =>
          match assoc c entries with
          | Some child => lookup child rest
          | None => None
          end
      end
  end.

Definition os_error {A : Type} (what target : string) : res A :=
  Raise (Exn OSError (what ++ ": '" ++ target ++ "'")).

(** [Path.mkdir(parents=True, exist_ok=True)] on the path [p] below [n];
    [target] is the whole path, for the message. *)
Fixpoint mkdir_p (target : string) (n : node) (p : Path) : res node :=
  match p with
  | [] =>
      match n with
      | Dir _ => Ok n
      | File _ => os_error "[Errno 17] File exists" target
      end
  | c :: rest =>
      match n with
      | File _ => os_error "[Errno 20] Not a directory" target
      | Dir entries =>
          let child := match assoc c entries with
                       | Some child => child
                       | None => Dir []
                       end in
          res_bind (mkdir_p target child rest)
                   (fun child' => Ok (Dir (assoc_set c child' entries)))
      end
  end.

(** [open(p, "wb")] followed by the writes that leave [content]. *)
Fixpoint write_file (target : string) (n : node) (p : Path)
         (content : string) : res node :=
  match p with
  | [] =>
      match n with
      | File _ => Ok (File content)
      | Dir _ => os_error "[Errno 21] Is a directory" target
      end
  | c :: rest =>
      match n with
      | File _ => os_error "[Errno 20] Not a directory" target
      | Dir entries =>
          match assoc c entries, rest with
          | Some child, _ =>
              res_bind (write_file target child rest content)
                       (fun child' => Ok (Dir (assoc_set c child' entries)))
          | None, [] => Ok (Dir (assoc_set c (File content) entries))
          | None, _ :: _ =>
              os_error "[Errno 2] No such file or directory" target
          end
      end
  end.

(* ================================================================= *)
(** ** The state *)

Record world : Type := World {
  (** the entries of the root directory *)
  fs : list (string * node);
  (** the texts printed, one per [print] *)
  stdout : list string;
  (** the transfers started: the means, the URL, the local file *)
  transfers : list (tool * string * string)
}.

(** A stateful computation: the state is kept when an exception is
    raised. *)
Definition M (A : Type) : Type := world -> option (res A * world).

Definition mret {A : Type} (a : A) : M A := fun w => Some (Ok a, w).

Definition mraise {A : Type} (e : exn) : M A := fun w => Some (Raise e, w).

Definition mbind {A B : Type} (m : M A) (k : A -> M B) : M B :=
  fun w =>
    match m w with
    | Some (Ok a, w') => k a w'
    | Some (Raise e, w') => Some (Raise e, w')
    | None => None
    end.

Definition lift {A : Type} (m : pres A) : M A :=
  fun w =>
    match m with
    | Some r => Some (r, w)
    | None => None
    end.

(** [try: m  except Exception as e: h e]. *)
Definition try_except {A : Type} (m : M A) (h : exn -> M A) : M A :=
  fun w =>
    match m w with
    | Some (Raise e, w') => h e w'
    | r => r
    end.

Declare Scope m_scope.
Delimit Scope m_scope with m.
Notation "x <- m ;; k" := (mbind m (fun x => k))
  (at level 61, m at next level, right associativity) : m_scope.
Notation "m ;; k" := (mbind m (fun _ => k))
  (at level 61, right associativity) : m_scope.

Definition print (s : string) : M unit :=
  fun w => Some (Ok tt, World (fs w) (stdout w ++ [s])%list (transfers w)).

Definition log_transfer (t : tool) (url : string) (local : Path) : M unit :=
  fun w => Some (Ok tt, World (fs w) (stdout w)
                              (transfers w ++ [(t, url, path_str local)])%list).

(** Runs a file-system operation on the root directory. *)
Definition on_fs (op : node -> res node) : M unit :=
  fun w =>
    match op (Dir (fs w)) with
    | Ok (Dir entries) => Some (Ok tt, World entries (stdout w) (transfers w))
    | Ok (File _) => Some (Ok tt, w)
    | Raise e => Some (Raise e, w)
    end.

Definition stat (p : Path) : M (option node) :=
  fun w => Some (Ok (lookup (Dir (fs w)) p), w).

(* ================================================================= *)
(** ** download_file *)

(** A run of wget or curl: the output file is what the tool left, if it
    could write it. *)
Definition run_external (e : env) (t : tool) (url : string) (local : Path)
  : M (bool * bool) :=
  (log_transfer t url local ;;
   let (returncode, written) := run_tool e t url in
   match written with
   | Some content =>
       try_except (on_fs (fun n => write_file (path_str local) n local content))
                  (fun _ => mret tt)
   | None => mret tt
   end ;;
   mret (Z.eqb returncode 0, false))%m.

(** The built-in streamed copy. *)
Definition run_builtin (e : env) (url : string) (local : Path)
  : M (bool * bool) :=
  (req <- lift (Request url) ;;
   log_transfer Builtin req local ;;
   match get_file e req with
   | ConnFail ex => mraise ex
   | Body data cut =>
       on_fs (fun n => write_file (path_str local) n local data) ;;
       match cut with
       | Some ex => mraise ex
       | None => mret (true, false)
       end
   end)%m.

Definition transfer (e : env) (url : string) (local : Path)
  : M (bool * bool) :=
  if which_wget e then run_external e Wget url local
  else if which_curl e then run_external e Curl url local
  else run_builtin e url local.

Definition download_file (e : env) (base_url remote_path : string)
           (local_path : Path) : M (bool * bool) :=
  (url <- lift (file_url base_url remote_path) ;;
   let local_path := resolve local_path in
   on_fs (fun n => mkdir_p (path_str (path_parent local_path)) n
                           (path_parent local_path)) ;;
   found <- stat local_path ;;
   match found with
   | Some (File content) =>
       remote_size <- lift (get_remote_size e base_url remote_path) ;;
       match remote_size with
       | Some size =>
           if Z.leb 0 size && Z.eqb (Z.of_nat (String.length content)) size
           then mret (true, true)
           else transfer e url local_path
       | None => transfer e url local_path
       end
   | _ => transfer e url local_path
   end)%m.

(* ================================================================= *)
(** ** collect_files_recursive *)

Definition is_dot_name (name : string) : bool :=
  mem_str name ["."; ".."].

(** [f"{remote_path.rstrip('/')}/{name}" if remote_path else name]. *)
Definition child_path (remote_path name : string) : string :=
  if nonempty remote_path then rstrip_slash remote_path ++ "/" ++ name
  else name.

(** The loop of [collect_files_recursive] over the entries of
    [remote_path]; [recurse] is the recursive call. *)
Fixpoint collect_loop (recurse : string -> pres (list string))
         (remote_path : string) (items : list entry) : pres (list string) :=
  match items with
  | [] => ret []
  | (name, is_dir) :: rest =>
      if is_dot_name name then collect_loop recurse remote_path rest
      else if is_dir
      then (sub <- recurse (child_path remote_path name) ;;
            more <- collect_loop recurse remote_path rest ;;
            ret (sub ++ more)%list)%py
      else (more <- collect_loop recurse remote_path rest ;;
            ret (child_path remote_path name :: more))%py
  end.

(** The recursion follows the server's answers, so it is bounded by
    [fuel]; [None] when the fuel runs out. *)
Fixpoint collect_files_recursive (fuel : nat) (e : env)
         (base_url remote_path : string) : pres (list string) :=
  match fuel with
  | O => None
  | S fuel' =>
      (items <- list_directory e base_url remote_path ;;
       collect_loop (collect_files_recursive fuel' e base_url)
                    remote_path items)%py
  end.

(** A finite remote tree, as the listings of a server describe it. *)
Inductive rtree : Type :=
| RFile
| RDir (children : list (string * rtree)).






(* ================================================================= *)
(** ** download_folder *)

(** [str(n)] for a length or an index. *)
Definition nat_str (n : nat) : string := NilZero.string_of_uint (Nat.to_uint n).

(** [remote_path.rstrip("/").split("/")[-1] or "download"]. *)
Definition folder_name (remote_path : string) : string :=
  let name := last_part (split "/" (rstrip_slash remote_path)) in
  if nonempty name then name else "download".

Definition folder_prefix (remote_path : string) : string :=
  rstrip_slash remote_path ++ "/".

(** The path of a collected file below the target directory. *)
Definition relative_path (remote_path file_path : string) : string :=
  let prefix := folder_prefix remote_path in
  if startswith file_path prefix
  then drop (String.length prefix) file_path
  else file_path.

(** Every path of [files] starts with the prefix of [remote_path]. *)
Definition under (remote_path : string) (files : list string) : Prop :=
  Forall (fun f => startswith f (folder_prefix remote_path) = true) files.

(** The line printed for one file of a folder. *)
Definition folder_report (file_path : string) (local_file : Path)
           (r : res (bool * bool)) : string :=
  match r with
  | Ok (true, skipped) =>
      "  " ++ (if skipped then "⊙ skipped (exists)" else "✓") ++ ": "
           ++ path_name local_file
  | Ok (false, _) => "  ✗ failed: " ++ file_path
  | Raise ex => "  ✗ failed: " ++ file_path ++ ": " ++ exn_msg ex
  end.

(** One pass of the loop body of [download_folder]. *)
Definition download_one (e : env) (base_url remote_path : string)
           (target_dir : Path) (file_path : string) : M unit :=
  let local_file := path_div target_dir (relative_path remote_path file_path) in
  try_except
    (r <- download_file e base_url file_path local_file ;;
     print (folder_report file_path local_file (Ok r)))%m
    (fun ex => print (folder_report file_path local_file (Raise ex))).

Fixpoint download_each (e : env) (base_url remote_path : string)
         (target_dir : Path) (files : list string) : M unit :=
  match files with
  | [] => mret tt
  | file_path :: rest =>
      (download_one e base_url remote_path target_dir file_path ;;
       download_each e base_url remote_path target_dir rest)%m
  end.

Definition download_folder (fuel : nat) (e : env)
           (base_url remote_path : string) (local_base : Path) : M unit :=
  (files <- lift (collect_files_recursive fuel e base_url remote_path) ;;
   let target_dir := path_div local_base (folder_name remote_path) in
   print ("Downloading " ++ nat_str (List.length files) ++ " file(s) to "
            ++ path_str target_dir) ;;
   download_each e base_url remote_path target_dir files)%m.


(* ================================================================= *)
(** ** interactive_download *)

(** What one pass of the [while True] loop leads to. *)
Inductive step_result : Type :=
| Continue (current_path : string)
| Return.

Fixpoint repeat_str (s : string) (n : nat) : string :=
  match n with
  | O => EmptyString
  | S m => s ++ repeat_str s m
  end.

(** [f"{i:3}"]. *)
Definition pad3 (i : nat) : string :=
  let s := nat_str i in
  repeat_str " " (3 - String.length s) ++ s.

Definition nl : string := String newline EmptyString.

Fixpoint print_items (i : nat) (items : list entry) : M unit :=
  match items with
  | [] => mret tt
  | (name, is_dir) :: rest =>
      (print ("  " ++ pad3 i ++ ". "
                ++ (if is_dir then "[dir]" else "[file]") ++ " " ++ name) ;;
       print_items (S i) rest)%m
  end.

Definition print_menu : M unit :=
  (print (nl ++ "Commands:") ;;
   print "  - number (e.g. 1): enter dir or download file" ;;
   print "  - d+number (e.g. d1): download selected file or folder" ;;
   print "  - .. or cd ..: go to parent directory" ;;
   print "  - q or quit: exit" ;;
   print "")%m.

(** [f"{current_path}/{name}".strip("/") if current_path else name]. *)
Definition target_of (current_path name : string) : string :=
  if nonempty current_path then strip_slash (current_path ++ "/" ++ name)
  else name.

(** The parent of [current_path], as the [..] command computes it. *)
Definition parent_of (current_path : string) : string :=
  if nonempty current_path
  then let parts := split "/" (rstrip_slash current_path) in
       if Nat.ltb 1 (List.length parts) then join "/" (removelast parts)
       else EmptyString
  else current_path.

(** The download of one file from the session, with its report. *)
Definition session_download_file (e : env) (base_url target_path : string)
           (save_dir : Path) (name : string) : M unit :=
  let local_file := path_div save_dir name in
  (r <- download_file e base_url target_path local_file ;;
   let '(ok, skipped) := r in
   if ok
   then print ((if skipped then "Skipped (exists)" else "Downloaded")
                 ++ ": " ++ path_str local_file)
   else print ("Download failed: " ++ target_path))%m.

Definition report_failure (ex : exn) : M unit :=
  print ("Download failed: " ++ exn_msg ex).

(** The message of the [ValueError] for a number of too many digits. *)
Definition exceeds_limit_message (digits : nat) : string :=
  "Exceeds the limit (" ++ nat_str int_max_str_digits
    ++ " digits) for integer string conversion: value has "
    ++ nat_str digits
    ++ " digits; use sys.set_int_max_str_digits() to increase the limit".

(** [int(s)] raising. *)
Definition int_of (s : string) : pres Z :=
  match read_int s with
  | IntValue n => ret n
  | InvalidLiteral =>
      raise ValueError
            ("invalid literal for int() with base 10: "
               ++ take 200 (py_repr s))
  | ExceedsLimit digits => raise ValueError (exceeds_limit_message digits)
  end.

(** The dispatch on a number: [items], [current_path] and whether the
    download is forced are those of the pass. *)
Definition select_index (fuel : nat) (e : env) (base_url : string)
           (save_dir : Path) (current_path : string) (items : list entry)
           (force_download : bool) (digits : string) : M step_result :=
  (idx <- lift (int_of digits) ;;
   if Z.leb 1 idx && Z.leb idx (Z.of_nat (List.length items))
   then
     match nth_error items (Z.to_nat (idx - 1)) with
     | Some (name, is_dir) =>
         let target_path := target_of current_path name in
         if is_dir && negb force_download then mret (Continue target_path)
         else
           try_except
             (if is_dir
              then download_folder fuel e base_url target_path save_dir
              else session_download_file e base_url target_path save_dir name)
             report_failure ;;
           mret (Continue current_path)
     | None => mret (Continue current_path)
     end
   else print "Invalid number" ;; mret (Continue current_path))%m.

(** The dispatch on an entry name. *)
Definition select_name (e : env) (base_url : string) (save_dir : Path)
           (current_path : string) (items : list entry) (name : string)
  : M step_result :=
  let target_path := target_of current_path name in
  match filter (fun it => String.eqb (fst it) name) items with
  | [] => (print "Not found" ;; mret (Continue current_path))%m
  | (_, is_dir) :: _ =>
      if is_dir then mret (Continue target_path)
      else (try_except
              (session_download_file e base_url target_path save_dir name)
              report_failure ;;
            mret (Continue current_path))%m
  end.

(** The part of a pass that follows [input("> ").strip()]. *)
Definition dispatch (fuel : nat) (e : env) (base_url : string)
           (save_dir : Path) (current_path : string) (items : list entry)
           (user_input : string) : M step_result :=
  if negb (nonempty user_input) then mret (Continue current_path)
  else if mem_str (lower user_input) ["q"; "quit"; "exit"]
  then (print "Bye!" ;; mret Return)%m
  else if mem_str user_input [".."; "cd .."]
  then mret (Continue (parent_of current_path))
  else
    let force_download :=
      startswith (lower user_input) "d"
      && isdigit (strip (drop 1 user_input)) in
    let user_input :=
      if force_download then strip (drop 1 user_input) else user_input in
    if isdigit user_input
    then select_index fuel e base_url save_dir current_path items
                      force_download user_input
    else select_name e base_url save_dir current_path items user_input.

Definition print_header (current_path : string) : M unit :=
  (print (nl ++ repeat_str "=" 50) ;;
   print (if nonempty current_path then "Current path: /" ++ current_path
          else "Current path: / (root)") ;;
   print (repeat_str "=" 50))%m.

Definition print_listing (items : list entry) : M unit :=
  (match items with
   | [] => print "(empty directory)"
   | _ => print_items 1 items
   end ;;
   print_menu)%m.

(** One pass of the loop: [line] is what [input] returns, [None] when it
    raises [EOFError] or [KeyboardInterrupt]. *)
Definition session_step (fuel : nat) (e : env) (base_url : string)
           (save_dir : Path) (current_path : string) (line : option string)
  : M step_result :=
  (print_header current_path ;;
   listed <- try_except
               (items <- lift (list_directory e base_url current_path) ;;
                mret (Some items))
               (fun ex => print ("Failed to list: " ++ exn_msg ex) ;;
                          mret None) ;;
   match listed with
   | None => mret Return
   | Some items =>
       print_listing items ;;
       match line with
       | None => print (nl ++ "Bye!") ;; mret Return
       | Some text =>
           dispatch fuel e base_url save_dir current_path items (strip text)
       end
   end)%m.

(** The loop, on the lines the user types; the end of the list is the end
    of the input. *)
Fixpoint session_loop (fuel : nat) (e : env) (base_url : string)
         (save_dir : Path) (current_path : string) (lines : list string)
  : M unit :=
  match lines with
  | [] =>
      (session_step fuel e base_url save_dir current_path None ;; mret tt)%m
  | text :: rest =>
      (r <- session_step fuel e base_url save_dir current_path (Some text) ;;
       match r with
       | Continue current_path' =>
           session_loop fuel e base_url save_dir current_path' rest
       | Return => mret tt
       end)%m
  end.

Definition interactive_download (fuel : nat) (e : env) (base_url : string)
           (save_dir : Path) (lines : list string) : M unit :=
  session_loop fuel e base_url save_dir EmptyString lines.

(** [m] does nothing but print the lines [out]. *)
Definition prints (m : M unit) (out : list string) : Prop :=
  forall w, m w = Some (Ok tt, World (fs w) (stdout w ++ out)%list
                                     (transfers w)).

(* ================================================================= *)
(** ** Well-formed bases and remote paths *)

(** No slash in [s]. *)
Definition slash_free (s : string) : bool :=
  all_chars (fun c => negb (is_slash c)) s.

(** A path segment: not empty, no slash. *)
Definition is_segment (s : string) : bool :=
  nonempty s && slash_free s.

(** A character that [urllib] takes as it is in a path: printable, and
    none of the delimiters of a URL. *)
Definition url_char (c : ascii) : bool :=
  Nat.ltb 32 (ord c) && negb (mem_char c "?#;:").

(** A segment of a remote path: a segment (not empty, no slash) of such
    characters, other than [.] and [..]. *)
Definition url_segment (s : string) : bool :=
  is_segment s && all_chars url_char s && negb (is_dot_name s).

Definition netloc_char (c : ascii) : bool :=
  Nat.ltb 32 (ord c) && is_ascii_char c && negb (mem_char c "/?#[]").

(** A host with an optional port. *)
Definition is_netloc (s : string) : bool :=
  nonempty s && all_chars netloc_char s.

(** A server base: [http://] or [https://] and a host with an optional
    port, without a trailing slash. *)
Definition server_base (scheme netloc : string) : string :=
  scheme ++ "://" ++ netloc.

Definition is_web_scheme (scheme : string) : bool :=
  mem_str scheme ["http"; "https"].

(** A remote path: its segments, joined by slashes; the root has none. *)
Definition remote_path_of (segments : list string) : string :=
  join "/" segments.

(* ================================================================= *)
(** ** is_directory *)

(** The loop of [is_directory]: the flag of the first entry called
    [name], [False] when there is none. *)
Fixpoint first_flag (name : string) (items : list entry) : bool :=
  match items with
  | [] => false
  | (n, is_dir) :: rest =>
      if String.eqb n name then is_dir else first_flag name rest
  end.

Definition is_directory (e : env) (base_url path : string) : pres bool :=
  (_ <- list_directory e base_url (if mem_char "/" path then path else "") ;;
   if negb (nonempty path) || String.eqb path "/" then ret true
   else
     let parts := split "/" (rstrip_slash path) in
     let parent := join "/" (removelast parts) in
     let name := last_part parts in
     parent_items <- (if nonempty parent
                      then list_directory e base_url parent
                      else list_directory e base_url "") ;;
     ret (first_flag name parent_items))%py.

(* ================================================================= *)
(** ** main *)

(** [main], from the parsed arguments on: [url] and [dir] are [args.url]
    and [args.dir], [lines] what the user types.  The result is the exit
    status: 1 for [sys.exit(1)], 0 for a return. *)
Definition main (fuel : nat) (e : env) (url : string) (dir : Path)
           (lines : list string) : M Z :=
  let base_url := normalize_base_url url in
  let save_dir := resolve dir in
  (on_fs (fun n => mkdir_p (path_str save_dir) n save_dir) ;;
   print "Dufs download client" ;;
   print ("Server: " ++ base_url) ;;
   print ("Save dir: " ++ path_str save_dir) ;;
   print "" ;;
   connected <- try_except
                  (lift (list_directory e base_url "") ;; mret true)
                  (fun ex =>
                     print ("Cannot connect to server " ++ base_url ++ ": "
                              ++ exn_msg ex) ;;
                     print "Check server address, port and network connection" ;;
                     mret false) ;;
   if connected
   then interactive_download fuel e base_url save_dir lines ;; mret 0%Z
   else mret 1%Z)%m.

(* ================================================================= *)
(** ** Listings as a server writes them *)

(** The four values of [path_type]. *)
Inductive path_kind : Type :=
| KDir
| KSymlinkDir
| KFile
| KSymlinkFile.

Definition kind_tag (k : path_kind) : string :=
  match k with
  | KDir => "Dir"
  | KSymlinkDir => "SymlinkDir"
  | KFile => "File"
  | KSymlinkFile => "SymlinkFile"
  end.

Definition kind_is_dir (k : path_kind) : bool :=
  match k with
  | KDir | KSymlinkDir => true
  | KFile | KSymlinkFile => false
  end.

(** The structured answer that lists [items]. *)
Definition listing_json (items : list (string * path_kind)) : json :=
  JObj [("paths",
         JArr (map (fun it => JObj [("name", JStr (fst it));
                                    ("path_type", JStr (kind_tag (snd it)))])
                   items))].

(** The line of an entry in the line-oriented answer, and the answer that
    lists [items]. *)
Definition simple_line (it : entry) : string :=
  if snd it then fst it ++ "/" else fst it.

Definition simple_text (items : list entry) : string :=
  join nl (map simple_line items).

(** A name without blank and without slash, not empty. *)
Definition plain_name (s : string) : bool :=
  nonempty s && all_chars (fun c => negb (isspace c) && negb (is_slash c)) s.

(* ================================================================= *)
(** ** Sample environments *)

(** An environment with the given listing answers, no size information,
    no file and no external tool. *)
Definition listing_env (json_at : string -> res json)
           (text_at : string -> res string) : env :=
  Env json_at text_at (fun _ => Ok None)
      (fun _ => ConnFail (Exn OSError "<urlopen error [Errno 111] Connection refused>"))
      false false (fun _ _ => (1%Z, None)).

(** A server whose structured answer has no [paths] member, and whose
    line-oriented answer lists a file and a directory. *)
Definition env_missing_paths : env :=
  listing_env (fun _ => Ok (JObj [("allow_upload", JBool false)]))
              (fun _ => Ok ("a.txt" ++ nl ++ "sub/" ++ nl)).

(** A server whose [paths] member is [null]. *)
Definition env_null_paths : env :=
  listing_env (fun _ => Ok (JObj [("paths", JNull)]))
              (fun _ => Ok ("a.txt" ++ nl ++ "sub/" ++ nl)).

(** A server whose [paths] member lists a number instead of an object. *)
Definition env_mistyped_item : env :=
  listing_env (fun _ => Ok (JObj [("paths", JArr [JInt 5])]))
              (fun _ => Ok ("a.txt" ++ nl ++ "sub/" ++ nl)).

(** A server that cannot be reached. *)
Definition env_unreachable : env :=
  listing_env (fun _ => Raise (Exn OSError "<urlopen error timed out>"))
              (fun _ => Ok ("a.txt" ++ nl ++ "sub/" ++ nl)).

(** A server that knows the size of [a.txt], five bytes, and serves it. *)
Definition env_sized : env :=
  Env (fun _ => Ok (JObj [("paths", JArr [])]))
      (fun _ => Ok "")
      (fun url => if String.eqb url "http://h/a.txt" then Ok (Some "5")
                  else Raise (Exn OSError "HTTP Error 404: Not Found"))
      (fun _ => Body "hello" None)
      false false (fun _ _ => (0%Z, None)).

(** A local disk with [/save/a.txt], five bytes long. *)
Definition world_with_copy : world :=
  World [("save", Dir [("a.txt", File "hello")])] [] [].

(** A server whose root lists one file, named [URL:x], five bytes long,
    and a local disk that holds a copy of it. *)
Definition env_url_name : env :=
  Env (fun _ => Ok (JObj [("paths", JArr [JObj [("name", JStr "URL:x");
                                                ("path_type", JStr "File")]])]))
      (fun _ => Ok "")
      (fun _ => Ok (Some "5"))
      (fun _ => Body "hello" None)
      false false (fun _ _ => (0%Z, None)).

Definition world_with_url_copy : world :=
  World [("save", Dir [("URL:x", File "hello")])] [] [].

(** The tree [A/{x.txt, B/{y.txt}}] and a server that lists it. *)
Definition tree_A : rtree :=
  RDir [("x.txt", RFile); ("B", RDir [("y.txt", RFile)])].

Definition json_entry (name path_type : string) : json :=
  JObj [("path_type", JStr path_type); ("name", JStr name)].

Definition env_tree_A : env :=
  listing_env
    (fun url =>
       if String.eqb url "http://h/A/?json"
       then Ok (JObj [("paths", JArr [json_entry "x.txt" "File";
                                       json_entry "B" "Dir"])])
       else if String.eqb url "http://h/A/B/?json"
       then Ok (JObj [("paths", JArr [json_entry "y.txt" "File"])])
       else Raise (Exn OSError "HTTP Error 404: Not Found"))
    (fun _ => Raise (Exn OSError "HTTP Error 404: Not Found")).

(** A server of [A/{x.txt, B/{y.txt}}] and [r.txt], listed from the root;
    every file is served with the body [hello], without size information.
    No external tool. *)
Definition env_site : env :=
  Env (fun url =>
         if String.eqb url "http://h/?json"
         then Ok (JObj [("paths", JArr [json_entry "A" "Dir";
                                         json_entry "r.txt" "File"])])
         else get_json env_tree_A url)
      (fun _ => Raise (Exn OSError "HTTP Error 404: Not Found"))
      (fun _ => Ok None)
      (fun _ => Body "hello" None)
      false false (fun _ _ => (1%Z, None)).

(** A server that lists [a.txt] and [b.txt] under [docs]; [a.txt] is
    served, the connection for [b.txt] fails.  No external tool. *)
Definition env_docs : env :=
  Env (fun url =>
         if String.eqb url "http://h/docs/?json"
         then Ok (JObj [("paths", JArr [json_entry "b.txt" "File";
                                         json_entry "a.txt" "File"])])
         else Raise (Exn OSError "HTTP Error 404: Not Found"))
      (fun _ => Raise (Exn OSError "HTTP Error 404: Not Found"))
      (fun _ => Ok None)
      (fun url => if String.eqb url "http://h/docs/a.txt"
                  then Body "hello" None
                  else ConnFail (Exn OSError "HTTP Error 500: Internal Server Error"))
      false false (fun _ _ => (1%Z, None)).

Definition empty_world : world := World [] [] [].

(** A server that answers a listing request with the URL requested. *)
Definition env_echo : env :=
  listing_env (fun url => Ok (JStr url)) (fun url => Ok url).

(** A machine with wget and curl: wget fetches [a.txt] and fails, with
    return code 8, on anything else, leaving an empty file. *)
Definition env_tools : env :=
  Env (fun _ => Ok (JObj [("paths", JArr [])]))
      (fun _ => Ok "")
      (fun _ => Ok None)
      (fun _ => ConnFail (Exn OSError "<urlopen error timed out>"))
      true true
      (fun t url =>
         match t with
         | Wget => if String.eqb url "http://h/a.txt"
                   then (0%Z, Some "hello") else (8%Z, Some "")
         | _ => (22%Z, None)
         end).

(* ================================================================= *)
(** ** Proof support *)


(* ================================================================= *)
(** * Properties *)

(* ================================================================= *)
(** ** Strings *)

Section StringFacts.

Variable p : ascii -> bool.



(** What [rstrip] leaves does not end with a stripped character. *)
Lemma rstrip_by_idem (s : string) :
  rstrip_by p (rstrip_by p s) = rstrip_by p s.
Proof.
  induction s as [|c s IH]; simpl; [reflexivity|].
  destruct (rstrip_by p s) as [|d r] eqn:E.
  - destruct (p c) eqn:Hc; simpl; [reflexivity|]. now rewrite Hc.
  - simpl in *. rewrite IH. reflexivity.
Qed.

Lemma rstrip_by_app (a b : string) :
  rstrip_by p (a ++ b) =
  match rstrip_by p b with
  | EmptyString => rstrip_by p a
  | r => a ++ r
  end.
Proof.
  induction a as [|c a IH]; simpl.
  - destruct (rstrip_by p b); reflexivity.
  - rewrite IH. destruct (rstrip_by p b) as [|d r]; [reflexivity|].
    destruct a; reflexivity.
Qed.

Lemma rstrip_by_cons_head (c : ascii) (s : string) :
  rstrip_by p (String c s) = EmptyString
  \/ exists r, rstrip_by p (String c s) = String c r.
Proof.
  simpl. destruct (rstrip_by p s) as [|d r].
  - destruct (p c); [now left | right; now exists EmptyString].
  - right. now exists (String d r).
Qed.

Lemma lstrip_by_noop (c : ascii) (s : string) :
  p c = false -> lstrip_by p (String c s) = String c s.
Proof. intros H. simpl. now rewrite H. Qed.

End StringFacts.

Lemma append_nil_r (s : string) : s ++ "" = s.
Proof. induction s; simpl; congruence. Qed.

Lemma append_assoc (a b c : string) : (a ++ b) ++ c = a ++ (b ++ c).
Proof. induction a; simpl; congruence. Qed.

Lemma nonempty_false (s : string) : nonempty s = false -> s = "".
Proof. destruct s; [reflexivity | discriminate]. Qed.

Lemma nonempty_true (s : string) : nonempty s = true -> s <> "".
Proof. destruct s; [discriminate | intros _; discriminate]. Qed.

Lemma startswith_app (a b : string) : startswith (a ++ b) a = true.
Proof.
  unfold startswith. induction a as [|c a IH]; simpl.
  - destruct b; reflexivity.
  - destruct (ascii_dec c c); [exact IH | congruence].
Qed.

Lemma startswith_trans (s a b : string) :
  startswith a b = true -> startswith s a = true -> startswith s b = true.
Proof.
  unfold startswith. revert s a.
  induction b as [|c b IH]; intros s a Hab Hsa.
  - destruct s; reflexivity.
  - destruct a as [|d a]; [discriminate|]. destruct s as [|x s]; [discriminate|].
    simpl in *. destruct (ascii_dec c d); [|discriminate].
    destruct (ascii_dec d x); [|discriminate]. subst.
    destruct (ascii_dec x x); [|congruence]. eauto.
Qed.

Lemma startswith_drop (s a : string) :
  startswith s a = true -> s = a ++ drop (String.length a) s.
Proof.
  unfold startswith. revert s.
  induction a as [|c a IH]; intros s H; [reflexivity|].
  destruct s as [|d s]; [discriminate|]. simpl in *.
  destruct (ascii_dec c d); [|discriminate]. subst. f_equal. auto.
Qed.

Lemma endswith_single_nonempty (a t : string) (c : ascii) :
  t <> "" -> endswith (a ++ t) (String c "") = endswith t (String c "").
Proof.
  intros Ht. induction a as [|d a IH]; [reflexivity|].
  simpl append. cbn [endswith].
  replace (String d (a ++ t) =? String c "") with false; [exact IH|].
  symmetry. apply String.eqb_neq. intros E. inversion E as [[E1 E2]].
  destruct a; [now apply Ht | discriminate].
Qed.

Lemma endswith_rstrip_slash (s : string) :
  endswith (rstrip_slash s) "/" = false.
Proof.
  unfold rstrip_slash. induction s as [|c s IH]; [reflexivity|].
  simpl rstrip_by. destruct (rstrip_by is_slash s) as [|d r] eqn:E.
  - destruct (is_slash c) eqn:Hc; [reflexivity|].
    unfold is_slash in Hc. cbn [endswith].
    replace (String c "" =? "/") with false; [reflexivity|].
    symmetry. apply String.eqb_neq. intros H. inversion H. subst.
    now rewrite Ascii.eqb_refl in Hc.
  - cbn [endswith]. cbn [endswith] in IH.
    replace (String c (String d r) =? "/") with false; [exact IH|].
    symmetry. apply String.eqb_neq. discriminate.
Qed.

(* ================================================================= *)
(** ** normalize_base_url (C3) *)

Example normalize_example :
  normalize_base_url "  example.org:6008// " = "http://example.org:6008".
Proof. reflexivity. Qed.

Example normalize_keeps_https :
  normalize_base_url "https://example.org/" = "https://example.org".
Proof. reflexivity. Qed.

(** C3, as stated, fails at the empty input: [normalize_base_url] does not
    fail there, it returns ["http://"], which ends with a slash. *)
Lemma normalize_base_url_empty_counterexample :
  normalize_base_url "" = "http://"
  /\ ~ (forall url : string, endswith (normalize_base_url url) "/" = false).
Proof.
  split; [reflexivity|].
  intros H. specialize (H ""). discriminate H.
Qed.

(** C3, amended: for every input the result is the trimmed input (leading
    and trailing whitespace, then trailing slashes, removed), with
    [http://] put in front when it starts with neither [http://] nor
    [https://]; the result always starts with one of the two, and it ends
    with a slash exactly when the trimmed input is empty, the result being
    ["http://"] then (no failure on empty input). *)
Theorem normalize_base_url_scheme_and_slash (url : string) :
  let trimmed := rstrip_slash (strip url) in
  normalize_base_url url
  = (if has_scheme trimmed then trimmed else "http://" ++ trimmed)
  /\ has_scheme (normalize_base_url url) = true
  /\ endswith (normalize_base_url url) "/" = negb (nonempty trimmed)
  /\ (if nonempty trimmed then True else normalize_base_url url = "http://").
Proof.
  intros trimmed. unfold normalize_base_url. fold trimmed.
  destruct (has_scheme trimmed) eqn:Hs; simpl negb; cbv iota.
  - assert (Hne : nonempty trimmed = true).
    { destruct trimmed; [discriminate Hs | reflexivity]. }
    rewrite Hne. repeat split; try assumption.
    apply endswith_rstrip_slash.
  - split; [reflexivity|]. split.
    { unfold has_scheme. now rewrite startswith_app. }
    split.
    + destruct (nonempty trimmed) eqn:Hne.
      * rewrite endswith_single_nonempty by (now apply nonempty_true).
        apply endswith_rstrip_slash.
      * apply nonempty_false in Hne. rewrite Hne. reflexivity.
    + destruct (nonempty trimmed) eqn:Hne; [exact I|].
      apply nonempty_false in Hne. now rewrite Hne.
Qed.

(* ================================================================= *)
(** ** list_directory (C1) *)

Example list_directory_types :
  list_directory
    (listing_env
       (fun _ => Ok (JObj [("paths",
           JArr [JObj [("name", JStr "a"); ("path_type", JStr "Dir")];
                 JObj [("name", JStr "b"); ("path_type", JStr "SymlinkDir")];
                 JObj [("name", JStr "c"); ("path_type", JStr "File")];
                 JObj [("href", JStr "/x/d/"); ("path_type", JStr "SymlinkFile")]])]))
       (fun _ => Ok ""))
    "http://h" "x"
  = ret [("a", true); ("b", true); ("c", false); ("d", false)].
Proof. reflexivity. Qed.

(** The loop body raises nothing but [AttributeError]. *)
Lemma listing_entry_raises (p : json) (ex : exn) :
  listing_entry p = Some (Raise ex) -> exn_kind ex = AttributeError.
Proof.
  unfold listing_entry, no_attribute, raise, ret.
  destruct p; try (intros H; inversion H; reflexivity).
  destruct (dict_get "name" members) as [name|].
  - destruct (truthy name) eqn:Ht; simpl negb; cbv iota.
    + destruct name; simpl; intros H; try discriminate H.
    + destruct (dict_get "href" members) as [h|].
      * destruct h; simpl; intros H; try discriminate H;
          inversion H; reflexivity.
      * destruct name; simpl; intros H; discriminate H.
  - simpl. destruct (dict_get "href" members) as [h|].
    + destruct h; simpl; intros H; try discriminate H;
        inversion H; reflexivity.
    + simpl. intros H; discriminate H.
Qed.

Lemma listing_entries_raises (items : list json) (ex : exn) :
  listing_entries items = Some (Raise ex) -> exn_kind ex = AttributeError.
Proof.
  induction items as [|p items IH]; simpl; [discriminate|].
  unfold pres_bind at 1.
  destruct (listing_entry p) as [[x|ex']|] eqn:E; [| |discriminate].
  - unfold pres_bind.
    destruct (listing_entries items) as [[xs|ex']|]; try discriminate.
    intros H. inversion H; subst. now apply IH.
  - intros H. inversion H; subst. now apply listing_entry_raises in E.
Qed.

(** C1, as stated, fails when the answer lacks [paths]: the default of
    [data.get("paths", [])] makes the listing empty, and the line-oriented
    listing, which has two entries here, is not consulted. *)
Lemma list_directory_missing_paths_counterexample :
  fetch_json env_missing_paths "http://h" "docs"
  = ret (JObj [("allow_upload", JBool false)])
  /\ fetch_simple env_missing_paths "http://h" "docs"
     = ret [("a.txt", false); ("sub", true)]
  /\ list_directory env_missing_paths "http://h" "docs" = ret []
  /\ list_directory env_missing_paths "http://h" "docs"
     <> fetch_simple env_missing_paths "http://h" "docs".
Proof.
  repeat split; try reflexivity.
  vm_compute. discriminate.
Qed.

(** A mistyped item is not recovered either: the [AttributeError] reaches
    the caller. *)
Example list_directory_mistyped_item :
  list_directory env_mistyped_item "http://h" "docs"
  = raise AttributeError "'int' object has no attribute 'get'".
Proof. reflexivity. Qed.

(** C1, amended: [list_directory] returns the line-oriented listing exactly
    when the structured path raises [KeyError] or [TypeError], which
    happens when [paths] is present and not iterable (null, a boolean, a
    number) and in no other case of an object answer; when [paths] is
    missing the listing is empty, without fallback; every other exception of the structured path (a failure of
    the request, an undecodable body, the [AttributeError] of a mistyped
    item) reaches the caller. *)
Theorem list_directory_fallback (e : env) (base_url path : string) :
  (forall m, fetch_json e base_url path = ret (JObj m) ->
             dict_get "paths" m = None ->
             list_directory e base_url path = ret [])
  /\ (forall m v, fetch_json e base_url path = ret (JObj m) ->
                  dict_get "paths" m = Some v ->
                  not_iterable v = true ->
                  list_directory e base_url path
                  = fetch_simple e base_url path)
  /\ (forall m v, fetch_json e base_url path = ret (JObj m) ->
                  dict_get "paths" m = Some v ->
                  not_iterable v = false ->
                  list_directory e base_url path = parse_listing (JObj m))
  /\ (forall ex, (data <- fetch_json e base_url path ;; parse_listing data)%py
                 = Some (Raise ex) ->
                 list_directory e base_url path
                 = if key_or_type_error ex
                   then fetch_simple e base_url path
                   else Some (Raise ex))
  /\ (forall ex, fetch_json e base_url path = Some (Raise ex) ->
                 key_or_type_error ex = false ->
                 list_directory e base_url path = Some (Raise ex))
  /\ (forall entries, list_directory e base_url path
                      <> fetch_simple e base_url path ->
                      list_directory e base_url path = ret entries ->
                      exists data, fetch_json e base_url path = ret data
                                   /\ parse_listing data = ret entries).
Proof.
  unfold list_directory, ret. repeat split.
  - intros m Hf Hp. rewrite Hf. simpl. rewrite Hp. reflexivity.
  - intros m v Hf Hp Hv. rewrite Hf. simpl. rewrite Hp.
    destruct v; try discriminate Hv; reflexivity.
  - intros m v Hf Hp Hv. rewrite Hf. simpl. rewrite Hp.
    assert (Hit : exists items, py_iter v = Some (Ok items)).
    { destruct v; try discriminate Hv; eexists; reflexivity. }
    destruct Hit as [items Hit]. rewrite Hit. simpl.
    destruct (listing_entries items) as [[xs|ex]|] eqn:E; try reflexivity.
    apply listing_entries_raises in E.
    unfold key_or_type_error. now rewrite E.
  - intros ex H. rewrite H. reflexivity.
  - intros ex Hf Hk. rewrite Hf. simpl. now rewrite Hk.
  - intros entries Hne H.
    destruct (fetch_json e base_url path) as [[data|ex]|] eqn:Hf;
      simpl in *.
    + exists data. split; [reflexivity|].
      destruct (parse_listing data) as [[xs|ex]|] eqn:Hp; try assumption.
      destruct (key_or_type_error ex); [now elim Hne | discriminate].
    + destruct (key_or_type_error ex); [now elim Hne | discriminate].
    + discriminate.
Qed.

(** The amended claim at work: an empty listing without [paths], the
    fallback on [paths: null], a network failure passed on. *)
Lemma list_directory_fallback_witness :
  list_directory env_missing_paths "http://h" "docs" = ret []
  /\ list_directory env_null_paths "http://h" "docs"
     = ret [("a.txt", false); ("sub", true)]
  /\ list_directory env_unreachable "http://h" "docs"
     = Some (Raise (Exn OSError "<urlopen error timed out>")).
Proof.
  split; [|split].
  - apply (proj1 (list_directory_fallback env_missing_paths "http://h" "docs")
             [("allow_upload", JBool false)]); reflexivity.
  - rewrite (proj1 (proj2 (list_directory_fallback
                             env_null_paths "http://h" "docs"))
               [("paths", JNull)] JNull); reflexivity.
  - apply (proj1 (proj2 (proj2 (proj2 (proj2 (list_directory_fallback
                             env_unreachable "http://h" "docs"))))));
      reflexivity.
Defined.

(* ================================================================= *)
(** ** get_remote_size (C9) *)

Example remote_size_known :
  get_remote_size env_sized "http://h" "a.txt" = ret (Some 5%Z).
Proof. reflexivity. Qed.

Example remote_size_unknown :
  get_remote_size env_sized "http://h" "b.txt" = ret None.
Proof. reflexivity. Qed.

Example py_int_forms :
  py_int " +1_000 " = Some 1000%Z /\ py_int "-7" = Some (-7)%Z
  /\ py_int "12a" = None /\ py_int "" = None /\ py_int "1__0" = None
  /\ py_int "+ 5" = None /\ py_int "_5" = None /\ py_int "5_" = None.
Proof. repeat split. Qed.

(** The separators FS..US are blanks for [str.strip], not for [int]. *)
Example py_int_separator :
  let s := String (ascii_of_nat 31) "5" in
  strip s = "5" /\ py_int s = None.
Proof. split; reflexivity. Qed.

(** The limit counts the digits, leading zeros included, and is checked
    before the text after the number. *)
Example py_int_limit :
  (exists n, py_int (repeat_str "1" 4300) = Some n)
  /\ py_int (repeat_str "1" 4301) = None
  /\ int_of (repeat_str "0" 4300 ++ "2")
     = raise ValueError
             ("Exceeds the limit (4300 digits) for integer string "
                ++ "conversion: value has 4301 digits; use "
                ++ "sys.set_int_max_str_digits() to increase the limit")
  /\ int_of (repeat_str "1" 4301 ++ "x")
     = raise ValueError (exceeds_limit_message 4301)
  /\ int_of "1'2"
     = raise ValueError
             ("invalid literal for int() with base 10: "
                ++ String dquote ("1'2" ++ String dquote "")).
Proof.
  split; [|repeat split; vm_compute; reflexivity].
  destruct (py_int (repeat_str "1" 4300)) as [n|] eqn:E.
  - now exists n.
  - vm_compute in E. discriminate E.
Qed.

(** Once the URL of the file is joined and the request object built (the
    two steps before the [try]), [get_remote_size] does not raise: it
    returns the integer value of the Content-Length header, and [None]
    when the request fails, the header is missing or is not an integer. *)
Lemma get_remote_size_guarded
      (e : env) (base_url remote_path url : string) :
  file_url base_url remote_path = ret url ->
  Request url = ret url ->
  get_remote_size e base_url remote_path
  = ret (match head_content_length e url with
         | Ok (Some cl) => py_int cl
         | Ok None => None
         | Raise _ => None
         end).
Proof.
  intros Hu Hr. unfold get_remote_size. rewrite Hu. simpl. rewrite Hr. simpl.
  destruct (head_content_length e url) as [[cl|]|ex]; reflexivity.
Qed.

Example remote_size_missing :
  get_remote_size env_sized "http://h" "missing.txt" = ret None.
Proof.
  apply (get_remote_size_guarded env_sized "http://h" "missing.txt"
                                 "http://h/missing.txt"); reflexivity.
Qed.

(** C9: the code does not keep the claim, nor its own docstring ("returns
    None on failure").  The request object is built before the [try], so
    a [ValueError] of [Request] leaves [get_remote_size].  A file that the
    server lists under the name [URL:x] is enough: [urljoin] takes the
    name for a URL with a scheme and returns it as it is, [Request]
    unwraps it to [x] and refuses it.  With a local copy in place the
    exception aborts [download_file] before any transfer, whatever the
    server would have answered to the HEAD request. *)
Theorem get_remote_size_raises_before_try :
  list_directory env_url_name "http://h" "" = ret [("URL:x", false)]
  /\ file_url "http://h" "URL:x" = ret "URL:x"
  /\ (forall e : env,
         get_remote_size e "http://h" "URL:x"
         = raise ValueError "unknown url type: 'x'")
  /\ download_file env_url_name "http://h" "URL:x" ["save"; "URL:x"]
                   world_with_url_copy
     = Some (Raise (Exn ValueError "unknown url type: 'x'"),
             world_with_url_copy)
  /\ ~ (forall (e : env) (base_url remote_path : string),
           exists size, get_remote_size e base_url remote_path = ret size).
Proof.
  split; [reflexivity|]. split; [reflexivity|].
  split; [intros e; reflexivity|]. split; [reflexivity|].
  intros H. destruct (H env_url_name "http://h" "URL:x") as [size Hs].
  discriminate Hs.
Qed.

(* ================================================================= *)
(** ** download_file (C2) *)

Lemma assoc_set_same (name : string) (n : node) (entries : list (string * node)) :
  assoc name entries = Some n -> assoc_set name n entries = entries.
Proof.
  induction entries as [|[k v] entries IH]; simpl; [discriminate|].
  destruct (String.eqb k name) eqn:E.
  - intros H. inversion H. reflexivity.
  - intros H. now rewrite IH.
Qed.

(** Creating a directory that exists changes nothing. *)
Lemma mkdir_p_existing (target : string) (p : Path) :
  forall n d, lookup n p = Some (Dir d) -> mkdir_p target n p = Ok n.
Proof.
  induction p as [|c rest IH]; intros n d H; simpl in *.
  - inversion H. reflexivity.
  - destruct n as [|entries]; [discriminate|].
    destruct (assoc c entries) as [child|] eqn:E; [|discriminate].
    rewrite (IH child d H). simpl. now rewrite (assoc_set_same _ _ _ E).
Qed.

(** A regular file lies in a directory. *)
Lemma lookup_file_parent (p : Path) :
  forall entries content,
    lookup (Dir entries) p = Some (File content) ->
    exists d, lookup (Dir entries) (removelast p) = Some (Dir d).
Proof.
  induction p as [|c rest IH]; intros entries content H.
  - discriminate H.
  - cbn [lookup] in H.
    destruct (assoc c entries) as [child|] eqn:E; [|discriminate].
    destruct rest as [|c' rest'].
    + exists entries. reflexivity.
    + destruct child as [|entries']; [discriminate H|].
      destruct (IH entries' content H) as [d Hd].
      exists d. change (removelast (c :: c' :: rest'))
        with (c :: removelast (c' :: rest')).
      cbn [lookup]. rewrite E. exact Hd.
Qed.

Example download_file_transfers :
  download_file env_sized "http://h" "b.txt" ["save"; "b.txt"] world_with_copy
  = Some (Ok (true, false),
          World [("save", Dir [("a.txt", File "hello"); ("b.txt", File "hello")])]
                []
                [(Builtin, "http://h/b.txt", "/save/b.txt")]).
Proof. reflexivity. Qed.

(** C2: when the (resolved) local path is a regular file and the size probe
    returns a size that is not negative and equals the length of that file,
    [download_file] returns [(True, True)] and leaves the state as it was:
    no transfer is started and the file system is unchanged. *)
Theorem download_file_skips_same_size
        (e : env) (base_url remote_path : string) (local_path : Path)
        (w : world) (content : string) (size : Z) :
  lookup (Dir (fs w)) (resolve local_path) = Some (File content) ->
  get_remote_size e base_url remote_path = ret (Some size) ->
  (0 <= size)%Z ->
  size = Z.of_nat (String.length content) ->
  download_file e base_url remote_path local_path w = Some (Ok (true, true), w).
Proof.
  intros Hfile Hsize Hpos Heq.
  assert (Hurl : exists url, file_url base_url remote_path = ret url).
  { unfold get_remote_size in Hsize.
    destruct (file_url base_url remote_path) as [[url|ex]|];
      try discriminate Hsize. now exists url. }
  destruct Hurl as [url Hurl].
  destruct (lookup_file_parent _ _ _ Hfile) as [d Hd].
  unfold download_file, mbind, lift, on_fs, stat, mret, path_parent.
  rewrite Hurl. simpl.
  rewrite (mkdir_p_existing _ _ _ _ Hd).
  cbn [fs]. rewrite Hfile. rewrite Hsize. simpl.
  subst size.
  rewrite Z.eqb_refl, andb_true_r.
  replace (0 <=? Z.of_nat (String.length content))%Z with true
    by (symmetry; apply Z.leb_le; lia).
  destruct w; reflexivity.
Qed.

Lemma download_file_skips_same_size_witness :
  download_file env_sized "http://h" "a.txt" ["save"; "a.txt"] world_with_copy
  = Some (Ok (true, true), world_with_copy).
Proof.
  apply (download_file_skips_same_size
           env_sized "http://h" "a.txt" ["save"; "a.txt"] world_with_copy
           "hello" 5%Z); [reflexivity | reflexivity | lia | reflexivity].
Defined.

(* ================================================================= *)
(** ** collect_files_recursive (C4, C10) *)

Example collect_tree_A :
  collect_files_recursive 2 env_tree_A "http://h" "A"
  = ret ["A/x.txt"; "A/B/y.txt"].
Proof. reflexivity. Qed.

Example collect_out_of_fuel :
  collect_files_recursive 1 env_tree_A "http://h" "A" = None.
Proof. reflexivity. Qed.

Section Collect.

Variable e : env.
Variable base_url : string.




End Collect.



Lemma startswith_refl (s : string) : startswith s s = true.
Proof.
  unfold startswith. induction s as [|c s IH]; [reflexivity|].
  simpl. destruct (ascii_dec c c); [exact IH | congruence].
Qed.

(** The prefix of a child directory extends the prefix of its parent. *)
Lemma folder_prefix_child (remote_path name : string) :
  nonempty remote_path = true ->
  startswith (folder_prefix (child_path remote_path name))
             (folder_prefix remote_path) = true.
Proof.
  intros Hne. unfold folder_prefix, child_path. rewrite Hne.
  unfold rstrip_slash. rewrite rstrip_by_app.
  destruct (rstrip_by_cons_head is_slash "/" name) as [E|[r E]];
    change ("/" ++ name) with (String "/" name); rewrite E.
  - rewrite rstrip_by_idem. apply startswith_refl.
  - replace ((rstrip_by is_slash remote_path ++ String "/" r) ++ "/")
      with ((rstrip_by is_slash remote_path ++ "/") ++ (r ++ "/")).
    + apply startswith_app.
    + rewrite !append_assoc. reflexivity.
Qed.

Lemma child_path_prefix (remote_path name : string) :
  nonempty remote_path = true ->
  startswith (child_path remote_path name) (folder_prefix remote_path) = true.
Proof.
  intros Hne. unfold folder_prefix, child_path. rewrite Hne.
  rewrite <- append_assoc. apply startswith_app.
Qed.

Lemma child_path_nonempty (remote_path name : string) :
  nonempty remote_path = true ->
  nonempty (child_path remote_path name) = true.
Proof.
  intros Hne. unfold child_path. rewrite Hne.
  destruct (rstrip_slash remote_path); reflexivity.
Qed.

Section CollectPrefix.

Variable e : env.
Variable base_url : string.

Lemma collect_loop_under (recurse : string -> pres (list string))
      (remote_path : string) :
  nonempty remote_path = true ->
  (forall child files, nonempty child = true ->
                       recurse child = ret files -> under child files) ->
  forall items files,
    collect_loop recurse remote_path items = ret files ->
    under remote_path files.
Proof.
  intros Hne Hrec. unfold under.
  induction items as [|[name is_dir] rest IH]; intros files H.
  - inversion H. constructor.
  - cbn [collect_loop] in H.
    destruct (is_dot_name name); [now apply IH|].
    destruct is_dir.
    + destruct (recurse (child_path remote_path name))
        as [[sub|ex]|] eqn:Hsub; try discriminate H.
      cbn [pres_bind] in H.
      destruct (collect_loop recurse remote_path rest)
        as [[more|ex]|] eqn:Hmore; try discriminate H.
      inversion H; subst. apply Forall_app. split; [|now apply IH].
      pose proof (Hrec _ _ (child_path_nonempty _ name Hne) Hsub) as Hu.
      eapply Forall_impl; [|exact Hu]. intros f Hf. cbv beta in *.
      eapply startswith_trans; [|exact Hf].
      now apply folder_prefix_child.
    + destruct (collect_loop recurse remote_path rest)
        as [[more|ex]|] eqn:Hmore; try discriminate H.
      inversion H; subst. constructor; [|now apply IH].
      now apply child_path_prefix.
Qed.

Lemma collect_under (fuel : nat) :
  forall remote_path files,
    nonempty remote_path = true ->
    collect_files_recursive fuel e base_url remote_path = ret files ->
    under remote_path files.
Proof.
  induction fuel as [|fuel IH]; intros remote_path files Hne H;
    [discriminate H|].
  cbn [collect_files_recursive] in H.
  destruct (list_directory e base_url remote_path) as [[items|ex]|];
    try discriminate H.
  cbn [pres_bind] in H.
  eapply collect_loop_under; [exact Hne | | exact H].
  intros child fs Hc Hfs. now apply IH.
Qed.

End CollectPrefix.

(** C10: for a non-empty remote path, every path that
    [collect_files_recursive] returns starts with that path, its trailing
    slashes removed, followed by a slash; so the relative path that
    [download_folder] computes for it is always the path with that prefix
    cut off, never the path itself (the [else] branch is not taken). *)
Theorem collected_paths_have_prefix
        (fuel : nat) (e : env) (base_url remote_path : string)
        (files : list string) (file_path : string) :
  remote_path <> "" ->
  collect_files_recursive fuel e base_url remote_path = ret files ->
  In file_path files ->
  startswith file_path (rstrip_slash remote_path ++ "/") = true
  /\ relative_path remote_path file_path
     = drop (String.length (rstrip_slash remote_path ++ "/")) file_path
  /\ file_path
     = (rstrip_slash remote_path ++ "/")
         ++ relative_path remote_path file_path.
Proof.
  intros Hne Hc Hin.
  assert (Hn : nonempty remote_path = true)
    by (destruct remote_path; [now elim Hne | reflexivity]).
  pose proof (collect_under e base_url fuel _ _ Hn Hc) as Hu.
  unfold under in Hu. rewrite Forall_forall in Hu.
  specialize (Hu _ Hin). unfold folder_prefix in Hu.
  unfold relative_path, folder_prefix. rewrite Hu.
  repeat split; try assumption.
  now apply startswith_drop.
Qed.

Lemma collected_paths_have_prefix_witness :
  startswith "A/B/y.txt" "A/" = true
  /\ relative_path "A" "A/B/y.txt" = "B/y.txt"
  /\ "A/B/y.txt" = "A/" ++ relative_path "A" "A/B/y.txt".
Proof.
  apply (collected_paths_have_prefix
           2 env_tree_A "http://h" "A" ["A/x.txt"; "A/B/y.txt"] "A/B/y.txt").
  - discriminate.
  - reflexivity.
  - simpl. auto.
Defined.

(* ================================================================= *)
(** ** download_folder (C5) *)

Example download_folder_docs :
  download_folder 1 env_docs "http://h" "docs" ["save"] empty_world
  = Some (Ok tt,
          World [("save", Dir [("docs", Dir [("a.txt", File "hello")])])]
                ["Downloading 2 file(s) to /save/docs";
                 "  ✗ failed: docs/b.txt: HTTP Error 500: Internal Server Error";
                 "  ✓: a.txt"]
                [(Builtin, "http://h/docs/b.txt", "/save/docs/b.txt");
                 (Builtin, "http://h/docs/a.txt", "/save/docs/a.txt")]).
Proof. reflexivity. Qed.

Section DownloadTotal.

Variable e : env.








End DownloadTotal.

Section DownloadFolder.

Variable e : env.
Variables base_url remote_path : string.
Variable target_dir : Path.




End DownloadFolder.



(* ================================================================= *)
(** ** The interactive session (C6, C7) *)

Lemma prints_print (s : string) : prints (print s) [s].
Proof. intros w. reflexivity. Qed.

Lemma prints_seq (m n : M unit) (a b : list string) :
  prints m a -> prints n b -> prints (m ;; n)%m (a ++ b)%list.
Proof.
  intros Hm Hn w. unfold mbind. rewrite Hm, Hn. cbn [fs stdout transfers].
  now rewrite app_assoc.
Qed.

Lemma prints_items (items : list entry) :
  forall i, exists out, prints (print_items i items) out.
Proof.
  induction items as [|[name is_dir] rest IH]; intros i.
  - exists []. intros w. cbn. rewrite app_nil_r. now destruct w.
  - destruct (IH (S i)) as [out Hout]. eexists.
    cbn [print_items]. apply prints_seq; [apply prints_print | exact Hout].
Qed.

Lemma prints_header (current_path : string) :
  exists out, prints (print_header current_path) out.
Proof.
  eexists. unfold print_header.
  repeat (apply prints_seq; [apply prints_print|]). apply prints_print.
Qed.

Lemma prints_listing (items : list entry) :
  exists out, prints (print_listing items) out.
Proof.
  assert (Hmenu : exists out, prints print_menu out).
  { eexists. unfold print_menu.
    repeat (apply prints_seq; [apply prints_print|]). apply prints_print. }
  destruct Hmenu as [menu Hmenu].
  unfold print_listing. destruct items as [|it rest].
  - eexists. apply prints_seq; [apply prints_print | exact Hmenu].
  - destruct (prints_items (it :: rest) 1) as [out Hout].
    eexists. apply prints_seq; [exact Hout | exact Hmenu].
Qed.

(** A pass that gets its listing prints the header, the listing and the
    menu, and hands over to [dispatch]. *)
Lemma session_step_listed (fuel : nat) (e : env) (base_url : string)
      (save_dir : Path) (current_path text : string) (items : list entry) :
  list_directory e base_url current_path = ret items ->
  exists out,
    forall w,
      session_step fuel e base_url save_dir current_path (Some text) w
      = dispatch fuel e base_url save_dir current_path items (strip text)
                 (World (fs w) (stdout w ++ out)%list (transfers w)).
Proof.
  intros Hl.
  destruct (prints_header current_path) as [h Hh].
  destruct (prints_listing items) as [l Hl'].
  exists (h ++ l)%list. intros w.
  unfold session_step. unfold mbind at 1. rewrite Hh.
  unfold mbind at 1. unfold try_except, mbind at 1, lift. rewrite Hl.
  cbn [ret mret]. unfold mbind at 1. rewrite Hl'.
  cbn [fs stdout transfers]. now rewrite app_assoc.
Qed.

Section PathSegments.

Lemma rstrip_by_noop (p : ascii -> bool) (s : string) :
  all_chars (fun c => negb (p c)) s = true -> rstrip_by p s = s.
Proof.
  induction s as [|c s IH]; [reflexivity|]. cbn [all_chars rstrip_by].
  intros H. apply andb_true_iff in H as [Hc Hs]. rewrite (IH Hs).
  destruct s; [|reflexivity].
  apply negb_true_iff in Hc. now rewrite Hc.
Qed.

Lemma split_segment (s : string) :
  all_chars (fun c => negb (is_slash c)) s = true -> split "/" s = [s].
Proof.
  induction s as [|c s IH]; [reflexivity|]. cbn [all_chars split].
  intros H. apply andb_true_iff in H as [Hc Hs].
  apply negb_true_iff in Hc. unfold is_slash in Hc. rewrite Hc.
  now rewrite (IH Hs).
Qed.

Lemma split_segment_app (s t : string) :
  all_chars (fun c => negb (is_slash c)) s = true ->
  split "/" (s ++ "/" ++ t) = s :: split "/" t.
Proof.
  induction s as [|c s IH]; [reflexivity|]. cbn [all_chars].
  intros H. apply andb_true_iff in H as [Hc Hs].
  apply negb_true_iff in Hc. unfold is_slash in Hc.
  change (String c s ++ "/" ++ t) with (String c (s ++ "/" ++ t)).
  cbn [split]. rewrite Hc. now rewrite (IH Hs).
Qed.

Lemma join_cons (s : string) (rest : list string) :
  rest <> [] -> join "/" (s :: rest) = s ++ "/" ++ join "/" rest.
Proof. destruct rest; [congruence | reflexivity]. Qed.

Lemma split_join (segs : list string) :
  forallb is_segment segs = true -> segs <> [] ->
  split "/" (join "/" segs) = segs.
Proof.
  induction segs as [|s rest IH]; [congruence|].
  cbn [forallb]. intros H _. apply andb_true_iff in H as [Hs Hrest].
  unfold is_segment in Hs. apply andb_true_iff in Hs as [_ Hs].
  destruct rest as [|s' rest'].
  - cbn. now apply split_segment.
  - rewrite join_cons by discriminate.
    rewrite split_segment_app by exact Hs. f_equal.
    apply IH; [exact Hrest | discriminate].
Qed.

Lemma rstrip_join (segs : list string) :
  forallb is_segment segs = true -> segs <> [] ->
  rstrip_slash (join "/" segs) = join "/" segs
  /\ join "/" segs <> "".
Proof.
  induction segs as [|s rest IH]; [congruence|].
  cbn [forallb]. intros H _. apply andb_true_iff in H as [Hs Hrest].
  unfold is_segment in Hs. apply andb_true_iff in Hs as [Hne Hs].
  destruct rest as [|s' rest'].
  - cbn. split; [now apply rstrip_by_noop | now apply nonempty_true].
  - rewrite join_cons by discriminate.
    destruct (IH Hrest) as [IH1 IH2]; [discriminate|].
    split.
    + unfold rstrip_slash in *. rewrite rstrip_by_app.
      change ("/" ++ join "/" (s' :: rest'))
        with (String "/" (join "/" (s' :: rest'))).
      cbn [rstrip_by]. rewrite IH1.
      destruct (join "/" (s' :: rest')); [congruence | reflexivity].
    + destruct s; discriminate.
Qed.

(** The parent of a path made of segments is the path made of the
    segments but the last. *)
Lemma parent_of_join (segs : list string) :
  forallb is_segment segs = true ->
  parent_of (join "/" segs) = join "/" (removelast segs).
Proof.
  intros H. destruct segs as [|s rest]; [reflexivity|].
  destruct (rstrip_join (s :: rest) H) as [Hr Hne]; [discriminate|].
  assert (Hn : nonempty (join "/" (s :: rest)) = true)
    by (destruct (join "/" (s :: rest)); [congruence | reflexivity]).
  unfold parent_of. rewrite Hn, Hr, split_join by (auto; discriminate).
  destruct rest; reflexivity.
Qed.

End PathSegments.

Example parent_of_examples :
  parent_of "a/b" = "a" /\ parent_of "a" = "" /\ parent_of "" = ""
  /\ parent_of "a/b/c" = "a/b".
Proof. repeat split. Qed.

(** C7: in a pass of the session that gets its listing, the input [..]
    (or [cd ..], surrounding blanks aside) leads to the next pass with the
    parent of the current path, doing nothing but printing; the parent of a
    path made of segments is that path without its last segment, so
    ["a/b"] becomes ["a"], and the root, the empty path, stays the
    root. *)
Theorem session_parent_navigation
        (fuel : nat) (e : env) (base_url : string) (save_dir : Path)
        (segments : list string) (items : list entry) (line : string)
        (w : world) :
  forallb is_segment segments = true ->
  list_directory e base_url (join "/" segments) = ret items ->
  strip line = ".." \/ strip line = "cd .." ->
  (exists out,
      session_step fuel e base_url save_dir (join "/" segments) (Some line) w
      = Some (Ok (Continue (join "/" (removelast segments))),
              World (fs w) (stdout w ++ out)%list (transfers w)))
  /\ parent_of "a/b" = "a"
  /\ parent_of "" = "".
Proof.
  intros Hseg Hl Hline. split; [|split; reflexivity].
  destruct (session_step_listed fuel e base_url save_dir _ line items Hl)
    as [out Hout].
  exists out. rewrite Hout, <- (parent_of_join segments Hseg).
  destruct Hline as [E|E]; rewrite E; reflexivity.
Qed.

Lemma session_parent_navigation_witness :
  (exists out,
      session_step 0 env_tree_A "http://h" ["save"] "A/B" (Some " .. ")
                   empty_world
      = Some (Ok (Continue "A"), World [] ([] ++ out)%list []))
  /\ parent_of "a/b" = "a"
  /\ parent_of "" = "".
Proof.
  apply (session_parent_navigation
           0 env_tree_A "http://h" ["save"] ["A"; "B"] [("y.txt", false)]
           " .. " empty_world); [reflexivity | reflexivity | now left].
Defined.

Section Digits.

Lemma all_chars_impl (p q : ascii -> bool) (s : string) :
  (forall c, p c = true -> q c = true) ->
  all_chars p s = true -> all_chars q s = true.
Proof.
  intros Hpq. induction s as [|c s IH]; [reflexivity|]. cbn [all_chars].
  intros H. apply andb_true_iff in H as [Hc Hs].
  now rewrite (Hpq c Hc), (IH Hs).
Qed.

Lemma digit_not_space (c : ascii) :
  isdigit_char c = true -> negb (isspace c) = true.
Proof.
  unfold isdigit_char, isspace. generalize (ord c) as n. intros n H.
  apply andb_true_iff in H as [H1 H2]. apply Nat.leb_le in H1, H2.
  apply negb_true_iff, orb_false_iff.
  split; apply andb_false_iff.
  - right. apply Nat.leb_gt. lia.
  - right. apply Nat.leb_gt. lia.
Qed.

Lemma strip_digits (s : string) :
  all_chars isdigit_char s = true -> strip s = s.
Proof.
  intros H. unfold strip, strip_by.
  assert (Hl : lstrip_by isspace s = s).
  { destruct s as [|c s]; [reflexivity|]. cbn [all_chars] in H.
    apply andb_true_iff in H as [Hc _].
    apply digit_not_space, negb_true_iff in Hc.
    now apply lstrip_by_noop. }
  rewrite Hl. apply rstrip_by_noop.
  eapply all_chars_impl; [|exact H]. apply digit_not_space.
Qed.

Lemma digit_not_int_space (c : ascii) :
  isdigit_char c = true -> int_space c = false.
Proof.
  unfold isdigit_char, int_space. generalize (ord c) as n. intros n H.
  apply andb_true_iff in H as [H1 H2]. apply Nat.leb_le in H1, H2.
  apply orb_false_iff. split.
  - apply andb_false_iff. right. apply Nat.leb_gt. lia.
  - apply Nat.eqb_neq. lia.
Qed.

(** The run of digits of a string of digits is the whole string. *)
Lemma scan_digits_all (s : string) :
  forall acc digits,
    all_chars isdigit_char s = true ->
    (0 <= acc)%Z ->
    exists n,
      scan_digits s acc digits false
      = Some (n, digits + String.length s, EmptyString)
      /\ (0 <= n)%Z.
Proof.
  induction s as [|c s IH]; intros acc digits H Hacc.
  - exists acc. cbn [scan_digits String.length]. now rewrite Nat.add_0_r.
  - cbn [all_chars] in H. apply andb_true_iff in H as [Hc Hs].
    cbn [scan_digits String.length]. rewrite Hc.
    assert (Hacc' : (0 <= 10 * acc + Z.of_nat (ord c - 48))%Z) by lia.
    destruct (IH (10 * acc + Z.of_nat (ord c - 48))%Z (S digits) Hs Hacc')
      as (n & E & Hn).
    exists n. split; [|exact Hn]. rewrite E.
    now replace (digits + S (String.length s))
      with (S digits + String.length s) by lia.
Qed.

Lemma read_int_unsigned (c : ascii) (s : string) :
  isdigit_char c = true ->
  read_int (String c s)
  = match scan_digits (String c s) 0%Z 0 false with
    | None => InvalidLiteral
    | Some (n, digits, rest) =>
        if Nat.ltb int_max_str_digits digits then ExceedsLimit digits
        else if Nat.eqb digits 0 then InvalidLiteral
        else if nonempty (lstrip_by int_space rest) then InvalidLiteral
        else IntValue n
    end.
Proof.
  intros Hc. unfold read_int.
  destruct c as [b0 b1 b2 b3 b4 b5 b6 b7].
  destruct b0, b1, b2, b3, b4, b5, b6, b7;
    try discriminate Hc; reflexivity.
Qed.

(** What [int] makes of a string of digits depends on its length alone:
    a number that is not negative, or the refusal of a number of too many
    digits. *)
Lemma read_int_digits (s : string) :
  isdigit s = true ->
  exists n,
    (0 <= n)%Z
    /\ read_int s
       = if Nat.ltb int_max_str_digits (String.length s)
         then ExceedsLimit (String.length s) else IntValue n.
Proof.
  intros H. destruct s as [|c s]; [discriminate H|].
  unfold isdigit in H.
  assert (Hc : isdigit_char c = true).
  { cbn [all_chars] in H. now apply andb_true_iff in H as [Hc _]. }
  destruct (scan_digits_all (String c s) 0%Z 0 H (Z.le_refl 0))
    as (n & E & Hn).
  exists n. split; [exact Hn|].
  rewrite (read_int_unsigned c s Hc), E. cbn [Nat.add].
  destruct (Nat.ltb int_max_str_digits (String.length (String c s)));
    reflexivity.
Qed.

(** [int] of a string of digits within the limit is a number that is not
    negative. *)
Lemma py_int_digits (s : string) :
  isdigit s = true ->
  (String.length s <= int_max_str_digits)%nat ->
  exists n, py_int s = Some n /\ (0 <= n)%Z.
Proof.
  intros H Hlen. destruct (read_int_digits s H) as (n & Hn & E).
  exists n. split; [|exact Hn]. unfold py_int. rewrite E.
  apply Nat.ltb_ge in Hlen. now rewrite Hlen.
Qed.

(** [int] of a string of digits beyond the limit raises. *)
Lemma int_of_beyond_limit (s : string) :
  isdigit s = true ->
  (int_max_str_digits < String.length s)%nat ->
  int_of s = raise ValueError (exceeds_limit_message (String.length s)).
Proof.
  intros H Hlen. destruct (read_int_digits s H) as (n & _ & E).
  unfold int_of. rewrite E. apply Nat.ltb_lt in Hlen. now rewrite Hlen.
Qed.

(** Where [int] has a value, the conversion returns it. *)
Lemma int_of_value (s : string) (n : Z) :
  py_int s = Some n -> int_of s = ret n.
Proof.
  unfold py_int, int_of. destruct (read_int s); intros H; inversion H.
  reflexivity.
Qed.

End Digits.

(** A forced download goes to the dispatch on the number. *)
Lemma dispatch_forced (fuel : nat) (e : env) (base_url : string)
      (save_dir : Path) (current_path : string) (items : list entry)
      (digits : string) :
  isdigit digits = true ->
  dispatch fuel e base_url save_dir current_path items ("d" ++ digits)
  = select_index fuel e base_url save_dir current_path items true digits.
Proof.
  intros H. unfold dispatch.
  change ("d" ++ digits) with (String "d" digits).
  assert (Hs : strip digits = digits).
  { apply strip_digits. destruct digits; [discriminate H | exact H]. }
  change (nonempty (String "d" digits)) with true.
  change (mem_str (lower (String "d" digits)) ["q"; "quit"; "exit"])
    with false.
  change (mem_str (String "d" digits) [".."; "cd .."]) with false.
  cbn [negb drop].
  change (lower (String "d" digits)) with ("d" ++ lower digits).
  rewrite startswith_app, Hs, H. cbn [andb]. now rewrite H.
Qed.

(** What follows a caught download leads to the next pass with the same
    path. *)
Lemma guarded_download_continues (m : M unit) (current_path : string)
      (w w' : world) (r : res step_result) :
  (try_except m report_failure ;; mret (Continue current_path))%m w
  = Some (r, w') ->
  r = Ok (Continue current_path).
Proof.
  unfold mbind, try_except, report_failure, print, mret.
  destruct (m w) as [[[[]|ex] w1]|]; intros H; inversion H; reflexivity.
Qed.

Example session_forced_folder :
  session_step 1 env_tree_A "http://h" ["save"] "A" (Some "d2") empty_world
  = (try_except (download_folder 1 env_tree_A "http://h" "A/B" ["save"])
                report_failure ;;
     mret (Continue "A"))%m
      (World [] (stdout (snd (match (print_header "A" ;;
                                     print_listing [("x.txt", false); ("B", true)])%m
                                    empty_world with
                              | Some p => p
                              | None => (Ok tt, empty_world)
                              end))) []).
Proof. reflexivity. Qed.

(** C6: the code does not keep the claim.  The number after [d] is
    converted by [int] outside any [try], and the interpreter refuses a
    number of more than 4300 digits with [ValueError].  On [d] followed by
    so many digits the pass does not report an invalid number and leads to
    no next pass: with the header and the listing printed and nothing
    else done, the exception leaves the pass, and with it the loop,
    whatever lines follow. *)
Theorem session_forced_download_exceeds_limit
        (fuel : nat) (e : env) (base_url : string) (save_dir : Path)
        (current_path : string) (items : list entry)
        (line digits : string) (rest : list string) (w : world) :
  list_directory e base_url current_path = ret items ->
  strip line = "d" ++ digits ->
  isdigit digits = true ->
  (int_max_str_digits < String.length digits)%nat ->
  exists out : list string,
    let ex := Exn ValueError (exceeds_limit_message (String.length digits)) in
    let w0 := World (fs w) (stdout w ++ out)%list (transfers w) in
    session_step fuel e base_url save_dir current_path (Some line) w
    = Some (Raise ex, w0)
    /\ session_loop fuel e base_url save_dir current_path (line :: rest) w
       = Some (Raise ex, w0).
Proof.
  intros Hl Hline Hd Hlen.
  destruct (session_step_listed fuel e base_url save_dir current_path
                                line items Hl) as [out Hout].
  exists out. intros ex w0.
  assert (Hstep :
            session_step fuel e base_url save_dir current_path (Some line) w
            = Some (Raise ex, w0)).
  { rewrite Hout, Hline, dispatch_forced by exact Hd.
    unfold select_index. rewrite (int_of_beyond_limit digits Hd Hlen).
    reflexivity. }
  split; [exact Hstep|].
  cbn [session_loop]. unfold mbind. now rewrite Hstep.
Qed.

Lemma session_forced_download_exceeds_limit_witness :
  exists out : list string,
    let ex :=
      Exn ValueError
          ("Exceeds the limit (4300 digits) for integer string conversion: "
             ++ "value has 4301 digits; use sys.set_int_max_str_digits() "
             ++ "to increase the limit") in
    let w0 := World [] ([] ++ out)%list [] in
    session_step 1 env_tree_A "http://h" ["save"] "A"
                 (Some ("d" ++ repeat_str "1" 4301)) empty_world
    = Some (Raise ex, w0)
    /\ session_loop 1 env_tree_A "http://h" ["save"] "A"
                    [("d" ++ repeat_str "1" 4301); "q"] empty_world
       = Some (Raise ex, w0).
Proof.
  apply (session_forced_download_exceeds_limit
           1 env_tree_A "http://h" ["save"] "A"
           [("x.txt", false); ("B", true)]
           ("d" ++ repeat_str "1" 4301) (repeat_str "1" 4301) ["q"]
           empty_world).
  - reflexivity.
  - vm_compute. reflexivity.
  - vm_compute. reflexivity.
  - vm_compute. apply le_n.
Defined.

(** X23: in a pass of the session that gets its listing, an input made of
    [d] and at most 4300 digits is a forced download of the entry the
    digits number, counting from 1: for a directory [download_folder] is
    called on it, for a file [download_file] with the file placed in the
    save directory and the outcome reported, an exception of either being
    caught and reported; a number out of range is reported as invalid,
    with nothing but the printing done.  In every case the pass leads to
    the next one with the current path unchanged. *)
Theorem session_forced_download_within_limit
        (fuel : nat) (e : env) (base_url : string) (save_dir : Path)
        (current_path : string) (items : list entry)
        (line digits : string) (w : world) :
  list_directory e base_url current_path = ret items ->
  strip line = "d" ++ digits ->
  isdigit digits = true ->
  (String.length digits <= int_max_str_digits)%nat ->
  exists (idx : Z) (out : list string),
    let w0 := World (fs w) (stdout w ++ out)%list (transfers w) in
    let step :=
      session_step fuel e base_url save_dir current_path (Some line) w in
    let caught (ex : exn) := print ("Download failed: " ++ exn_msg ex) in
    py_int digits = Some idx
    /\ (forall name,
           (1 <= idx <= Z.of_nat (List.length items))%Z ->
           nth_error items (Z.to_nat (idx - 1)) = Some (name, true) ->
           step = (try_except
                     (download_folder fuel e base_url
                                      (target_of current_path name) save_dir)
                     caught ;;
                   mret (Continue current_path))%m w0)
    /\ (forall name,
           (1 <= idx <= Z.of_nat (List.length items))%Z ->
           nth_error items (Z.to_nat (idx - 1)) = Some (name, false) ->
           let target_path := target_of current_path name in
           let local_file := path_div save_dir name in
           step = (try_except
                     (r <- download_file e base_url target_path local_file ;;
                      let '(ok, skipped) := r in
                      if ok
                      then print ((if skipped then "Skipped (exists)"
                                   else "Downloaded")
                                    ++ ": " ++ path_str local_file)
                      else print ("Download failed: " ++ target_path))
                     caught ;;
                   mret (Continue current_path))%m w0)
    /\ (~ (1 <= idx <= Z.of_nat (List.length items))%Z ->
        step = Some (Ok (Continue current_path),
                     World (fs w) (stdout w ++ out ++ ["Invalid number"])%list
                           (transfers w)))
    /\ (forall r w', step = Some (r, w') -> r = Ok (Continue current_path)).
Proof.
  intros Hl Hline Hd Hlen.
  destruct (py_int_digits digits Hd Hlen) as (idx & Hidx & Hpos).
  destruct (session_step_listed fuel e base_url save_dir current_path
                                line items Hl) as [out Hout].
  exists idx, out. intros w0 step caught.
  assert (Hstep :
            step
            = (if (1 <=? idx)%Z && (idx <=? Z.of_nat (List.length items))%Z
               then match nth_error items (Z.to_nat (idx - 1)) with
                    | Some (name, is_dir) =>
                        (try_except
                           (if is_dir
                            then download_folder fuel e base_url
                                   (target_of current_path name) save_dir
                            else session_download_file e base_url
                                   (target_of current_path name) save_dir name)
                           report_failure ;;
                         mret (Continue current_path))%m
                    | None => mret (Continue current_path)
                    end
               else (print "Invalid number" ;;
                     mret (Continue current_path))%m) w0).
  { unfold step. rewrite Hout, Hline, dispatch_forced by exact Hd.
    unfold select_index. rewrite (int_of_value _ _ Hidx).
    unfold mbind at 1, lift, ret. fold w0.
    destruct ((1 <=? idx)%Z && (idx <=? Z.of_nat (List.length items))%Z);
      [|reflexivity].
    destruct (nth_error items (Z.to_nat (idx - 1))) as [[name is_dir]|];
      [|reflexivity].
    now rewrite andb_false_r. }
  clearbody step. subst step. unfold entry in *.
  split; [exact Hidx|].
  destruct ((1 <=? idx)%Z && (idx <=? Z.of_nat (List.length items))%Z)
    eqn:Hrange.
  - apply andb_true_iff in Hrange as [H1 H2].
    apply Z.leb_le in H1, H2.
    split; [|split; [|split]].
    + intros name _ Hn. rewrite Hn. reflexivity.
    + intros name _ Hn. cbv zeta. rewrite Hn. reflexivity.
    + intros Hout'. elim Hout'. lia.
    + intros r w'.
      destruct (nth_error items (Z.to_nat (idx - 1))) as [[name is_dir]|].
      * apply guarded_download_continues.
      * unfold mret. intros H. inversion H. reflexivity.
  - assert (Hout' : ~ (1 <= idx <= Z.of_nat (List.length items))%Z).
    { intros [H1 H2]. apply Z.leb_le in H1, H2.
      rewrite H1, H2 in Hrange. discriminate. }
    split; [|split; [|split]].
    + intros name Hin. now elim Hout'.
    + intros name Hin. now elim Hout'.
    + intros _. unfold mbind, print, mret. subst w0.
      cbn [fs stdout transfers]. now rewrite <- app_assoc.
    + intros r w'. unfold mbind, print, mret. intros H. inversion H.
      reflexivity.
Qed.

Lemma session_forced_download_within_limit_witness :
  exists (idx : Z) (out : list string),
    let w0 := World [] ([] ++ out)%list [] in
    let step :=
      session_step 1 env_site "http://h" ["save"] "A" (Some " d1 ")
                   empty_world in
    let caught (ex : exn) := print ("Download failed: " ++ exn_msg ex) in
    py_int "1" = Some idx
    /\ (forall name,
           (1 <= idx <= 2)%Z ->
           nth_error [("x.txt", false); ("B", true)] (Z.to_nat (idx - 1))
           = Some (name, true) ->
           step = (try_except
                     (download_folder 1 env_site "http://h"
                                      (target_of "A" name) ["save"])
                     caught ;;
                   mret (Continue "A"))%m w0)
    /\ (forall name,
           (1 <= idx <= 2)%Z ->
           nth_error [("x.txt", false); ("B", true)] (Z.to_nat (idx - 1))
           = Some (name, false) ->
           let target_path := target_of "A" name in
           let local_file := path_div ["save"] name in
           step = (try_except
                     (r <- download_file env_site "http://h" target_path
                                         local_file ;;
                      let '(ok, skipped) := r in
                      if ok
                      then print ((if skipped then "Skipped (exists)"
                                   else "Downloaded")
                                    ++ ": " ++ path_str local_file)
                      else print ("Download failed: " ++ target_path))
                     caught ;;
                   mret (Continue "A"))%m w0)
    /\ (~ (1 <= idx <= 2)%Z ->
        step = Some (Ok (Continue "A"),
                     World [] ([] ++ out ++ ["Invalid number"])%list []))
    /\ (forall r w', step = Some (r, w') -> r = Ok (Continue "A")).
Proof.
  apply (session_forced_download_within_limit
           1 env_site "http://h" ["save"] "A"
           [("x.txt", false); ("B", true)] " d1 " "1" empty_world);
    [reflexivity | reflexivity | reflexivity |].
  unfold int_max_str_digits. cbn [String.length]. lia.
Defined.

(** The forced download of a file of the sample site stores it in the
    save directory and reports it. *)
Example session_forced_file :
  option_map (fun p => (fst p, fs (snd p), transfers (snd p),
                        last (stdout (snd p)) ""))
             (session_step 1 env_site "http://h" ["save"] "A" (Some " d1 ")
                           empty_world)
  = Some (Ok (Continue "A"),
          [("save", Dir [("x.txt", File "hello")])],
          [(Builtin, "http://h/A/x.txt", "/save/x.txt")],
          "Downloaded: /save/x.txt").
Proof. vm_compute. reflexivity. Qed.

(* ================================================================= *)
(** ** URL construction (C8) *)

(** [urljoin] on some references, as CPython answers. *)
Example urljoin_examples :
  urljoin "http://h:6008/" "a/b/" = ret "http://h:6008/a/b/"
  /\ urljoin "http://h:6008/" "./" = ret "http://h:6008/"
  /\ urljoin "http://h/" "a/b.txt" = ret "http://h/a/b.txt"
  /\ urljoin "http://h/" "a//b/" = ret "http://h/a/b/"
  /\ urljoin "http://h/x/y" "../z" = ret "http://h/z"
  /\ urljoin "http://h/" "a/./b/.." = ret "http://h/a/"
  /\ urljoin "http://h/" "a?b/" = ret "http://h/a?b/"
  /\ urljoin "http://h/" "x:y" = ret "x:y"
  /\ urljoin "http://h/" "" = ret "http://h/"
  /\ urljoin "http://[/" "x" = raise ValueError "Invalid IPv6 URL".
Proof. repeat split. Qed.

Example string_examples :
  split "/" "a//b" = ["a"; ""; "b"] /\ split "/" "" = [""]
  /\ rstrip_slash "a/b//" = "a/b" /\ lstrip_slash "//a/" = "a/"
  /\ strip "  d 3 " = "d 3" /\ strip_slash "/a/b/" = "a/b"
  /\ endswith "SymlinkDir" "Dir" = true /\ endswith "File" "Dir" = false
  /\ join "/" ["a"; "b"; ""] = "a/b/" /\ lower "QuIt" = "quit".
Proof. repeat split. Qed.

Section CharFacts.

Lemma all_chars_app (p : ascii -> bool) (a b : string) :
  all_chars p (a ++ b) = all_chars p a && all_chars p b.
Proof.
  induction a as [|c a IH]; [reflexivity|]. simpl.
  now rewrite IH, andb_assoc.
Qed.

Lemma filter_chars_all (p : ascii -> bool) (s : string) :
  all_chars p s = true -> filter_chars p s = s.
Proof.
  induction s as [|c s IH]; [reflexivity|]. cbn [all_chars filter_chars].
  intros H. apply andb_true_iff in H as [Hc Hs].
  now rewrite Hc, (IH Hs).
Qed.

(** A character that fails [q] does not occur in a string of characters
    that satisfy [q]. *)
Lemma mem_char_absent (q : ascii -> bool) (x : ascii) (s : string) :
  q x = false -> all_chars q s = true -> mem_char x s = false.
Proof.
  intros Hx. induction s as [|c s IH]; [reflexivity|].
  cbn [all_chars mem_char]. intros H.
  apply andb_true_iff in H as [Hc Hs]. rewrite (IH Hs), orb_false_r.
  destruct (Ascii.eqb x c) eqn:E; [|reflexivity].
  apply Ascii.eqb_eq in E. subst. congruence.
Qed.

Lemma cut_at_absent (x : ascii) (s : string) :
  mem_char x s = false -> cut_at x s = None.
Proof.
  induction s as [|c s IH]; [reflexivity|]. cbn [mem_char cut_at].
  intros H. apply orb_false_iff in H as [Hc Hs].
  rewrite Ascii.eqb_sym in Hc. now rewrite Hc, (IH Hs).
Qed.

Lemma rcut_at_absent (x : ascii) (s : string) :
  mem_char x s = false -> rcut_at x s = None.
Proof.
  induction s as [|c s IH]; [reflexivity|]. cbn [mem_char rcut_at].
  intros H. apply orb_false_iff in H as [Hc Hs].
  rewrite Ascii.eqb_sym in Hc. now rewrite Hc, (IH Hs).
Qed.

Lemma span_until_app (p : ascii -> bool) (a : string) (c : ascii)
      (rest : string) :
  all_chars (fun x => negb (p x)) a = true -> p c = true ->
  span_until p (a ++ String c rest) = (a, String c rest).
Proof.
  intros Ha Hc. induction a as [|d a IH].
  - simpl. now rewrite Hc.
  - cbn [all_chars] in Ha. apply andb_true_iff in Ha as [Hd Ha].
    apply negb_true_iff in Hd. simpl. now rewrite Hd, (IH Ha).
Qed.

Lemma all_chars_join (p : ascii -> bool) (parts : list string) :
  p "/"%char = true ->
  forallb (all_chars p) parts = true ->
  all_chars p (join "/" parts) = true.
Proof.
  intros Hp. induction parts as [|s rest IH]; [reflexivity|].
  cbn [forallb]. intros H. apply andb_true_iff in H as [Hs Hrest].
  destruct rest as [|s' rest']; [exact Hs|].
  rewrite join_cons by discriminate.
  rewrite all_chars_app, Hs. cbn [append all_chars].
  now rewrite Hp, (IH Hrest).
Qed.

End CharFacts.

Section UrlParse.

Variable netloc : string.
Hypothesis netloc_ok : is_netloc netloc = true.

Lemma netloc_nonempty : nonempty netloc = true.
Proof. unfold is_netloc in netloc_ok. now apply andb_true_iff in netloc_ok. Qed.

Lemma netloc_chars : all_chars netloc_char netloc = true.
Proof. unfold is_netloc in netloc_ok. now apply andb_true_iff in netloc_ok. Qed.

Lemma netloc_char_tests (c : ascii) :
  netloc_char c = true ->
  negb (unsafe_url_byte c) = true
  /\ negb (mem_char c "/?#") = true
  /\ is_ascii_char c = true.
Proof.
  unfold netloc_char, unsafe_url_byte. intros H.
  apply andb_true_iff in H as [H H3]. apply andb_true_iff in H as [H1 H2].
  apply Nat.ltb_lt in H1. repeat split; [| |exact H2].
  - apply negb_true_iff. rewrite !orb_false_iff, !Nat.eqb_neq. lia.
  - apply negb_true_iff in H3. cbn [mem_char] in *.
    repeat (apply orb_false_iff in H3 as [? H3]).
    apply negb_true_iff. now repeat (apply orb_false_iff; split).
Qed.

Lemma netloc_no_bracket :
  mem_char "[" netloc = false /\ mem_char "]" netloc = false.
Proof.
  split; apply (mem_char_absent netloc_char); try reflexivity;
    apply netloc_chars.
Qed.

Lemma urlparse_base (scheme : string) :
  is_web_scheme scheme = true ->
  urlparse (server_base scheme netloc ++ "/") ""
  = ret (UrlParts scheme netloc "/" "" "" "").
Proof.
  intros Hs.
  assert (Hf : filter_chars (fun c => negb (unsafe_url_byte c)) netloc
               = netloc).
  { apply filter_chars_all.
    eapply all_chars_impl; [|apply netloc_chars].
    intros c Hc. apply (netloc_char_tests c Hc). }
  assert (Hspan : span_until (fun c => mem_char c "/?#") (netloc ++ "/")
                  = (netloc, "/")).
  { apply span_until_app; [|reflexivity].
    eapply all_chars_impl; [|apply netloc_chars].
    intros c Hc. apply (netloc_char_tests c Hc). }
  assert (Hascii : all_chars is_ascii_char netloc = true).
  { eapply all_chars_impl; [|apply netloc_chars].
    intros c Hc. apply (netloc_char_tests c Hc). }
  destruct netloc_no_bracket as [Hl Hr].
  assert (Hsafe : forall pre,
             all_chars (fun c => negb (unsafe_url_byte c)) pre = true ->
             filter_chars (fun c => negb (unsafe_url_byte c))
                          (pre ++ netloc ++ "/")
             = pre ++ netloc ++ "/").
  { intros pre Hpre. apply filter_chars_all.
    rewrite !all_chars_app, Hpre.
    replace (all_chars (fun c => negb (unsafe_url_byte c)) netloc)
      with true; [reflexivity|].
    symmetry. eapply all_chars_impl; [|apply netloc_chars].
    intros c Hc. apply (netloc_char_tests c Hc). }
  unfold is_web_scheme in Hs. cbn [mem_str existsb] in Hs.
  rewrite orb_false_r in Hs. apply orb_true_iff in Hs as [Hs|Hs];
    apply String.eqb_eq in Hs; subst scheme.
  - change (server_base "http" netloc ++ "/")
      with ("http://" ++ netloc ++ "/").
    unfold urlparse, urlsplit.
    change (lstrip_by c0_or_space ("http://" ++ netloc ++ "/"))
      with ("http://" ++ netloc ++ "/").
    rewrite (Hsafe "http://" eq_refl).
    change (split_scheme ("http://" ++ netloc ++ "/"))
      with (Some ("http", "//" ++ netloc ++ "/")).
    cbv beta iota zeta.
    rewrite (startswith_app "//" (netloc ++ "/")).
    change (drop 2 ("//" ++ netloc ++ "/")) with (netloc ++ "/").
    rewrite Hspan. cbv beta iota zeta.
    rewrite Hl, Hr, Hascii. reflexivity.
  - change (server_base "https" netloc ++ "/")
      with ("https://" ++ netloc ++ "/").
    unfold urlparse, urlsplit.
    change (lstrip_by c0_or_space ("https://" ++ netloc ++ "/"))
      with ("https://" ++ netloc ++ "/").
    rewrite (Hsafe "https://" eq_refl).
    change (split_scheme ("https://" ++ netloc ++ "/"))
      with (Some ("https", "//" ++ netloc ++ "/")).
    cbv beta iota zeta.
    rewrite (startswith_app "//" (netloc ++ "/")).
    change (drop 2 ("//" ++ netloc ++ "/")) with (netloc ++ "/").
    rewrite Hspan. cbv beta iota zeta.
    rewrite Hl, Hr, Hascii. reflexivity.
Qed.

End UrlParse.
Lemma url_char_tests (c : ascii) :
  url_char c = true ->
  c0_or_space c = false /\ negb (unsafe_url_byte c) = true.
Proof.
  unfold url_char, c0_or_space, unsafe_url_byte. intros H.
  apply andb_true_iff in H as [H _]. apply Nat.ltb_lt in H. split.
  - apply Nat.leb_gt. exact H.
  - apply negb_true_iff. rewrite !orb_false_iff, !Nat.eqb_neq. lia.
Qed.

Lemma lstrip_c0_url_chars (rel : string) :
  all_chars url_char rel = true -> lstrip_by c0_or_space rel = rel.
Proof.
  destruct rel as [|c r]; [reflexivity|]. cbn [all_chars]. intros H.
  apply andb_true_iff in H as [Hc _].
  apply lstrip_by_noop. apply (url_char_tests c Hc).
Qed.

Lemma split_scheme_absent (rel : string) :
  mem_char ":" rel = false -> split_scheme rel = None.
Proof.
  intros H. unfold split_scheme. destruct rel as [|c r] eqn:E; [reflexivity|].
  now rewrite cut_at_absent.
Qed.

Lemma startswith_two_slashes (rel : string) :
  startswith rel "/" = false -> startswith rel "//" = false.
Proof.
  unfold startswith. destruct rel as [|c r]; [reflexivity|].
  cbn [prefix]. destruct (ascii_dec "/" c); [|reflexivity].
  destruct r; intros H; discriminate H.
Qed.

(** A relative reference made of path characters is parsed as a path. *)
Lemma urlparse_relative (rel scheme : string) :
  all_chars url_char rel = true ->
  startswith rel "/" = false ->
  is_web_scheme scheme = true ->
  urlparse rel scheme = ret (UrlParts scheme "" rel "" "" "").
Proof.
  intros Hchars Hslash Hs.
  assert (Habs : forall x, url_char x = false -> mem_char x rel = false)
    by (intros x Hx; now apply (mem_char_absent url_char)).
  assert (H2 : filter_chars (fun c => negb (unsafe_url_byte c)) rel = rel).
  { apply filter_chars_all. eapply all_chars_impl; [|exact Hchars].
    intros c Hc. apply (url_char_tests c Hc). }
  unfold urlparse, urlsplit.
  rewrite (lstrip_c0_url_chars rel Hchars), H2.
  rewrite (split_scheme_absent rel (Habs ":"%char eq_refl)).
  cbv beta iota zeta.
  rewrite (startswith_two_slashes rel Hslash). cbv beta iota zeta.
  change (mem_char "[" "") with false. change (mem_char "]" "") with false.
  cbn [xorb orb all_chars negb]. cbv beta iota zeta.
  rewrite (cut_at_absent "#" rel (Habs "#"%char eq_refl)).
  rewrite (cut_at_absent "?" rel (Habs "?"%char eq_refl)).
  cbv beta iota zeta. cbn [pres_bind ret u_path].
  cbn [u_scheme u_netloc u_query u_fragment].
  rewrite (Habs ";"%char eq_refl), andb_false_r.
  unfold is_web_scheme in Hs. cbn [mem_str existsb] in Hs.
  rewrite orb_false_r in Hs. apply orb_true_iff in Hs as [Hs|Hs];
    apply String.eqb_eq in Hs; subst scheme; reflexivity.
Qed.


Section JoinedSegments.

Lemma split_join_slash_free (parts : list string) :
  forallb slash_free parts = true -> parts <> [] ->
  split "/" (join "/" parts) = parts.
Proof.
  induction parts as [|s rest IH]; [congruence|].
  cbn [forallb]. intros H _. apply andb_true_iff in H as [Hs Hrest].
  destruct rest as [|s' rest'].
  - cbn. now apply split_segment.
  - rewrite join_cons by discriminate.
    rewrite split_segment_app by exact Hs. f_equal.
    apply IH; [exact Hrest | discriminate].
Qed.

Lemma resolve_dots_plain (parts : list string) :
  forallb (fun s => negb (is_dot_name s)) parts = true ->
  forall acc, resolve_dots parts acc = (acc ++ parts)%list.
Proof.
  induction parts as [|s rest IH]; intros H acc.
  - now rewrite app_nil_r.
  - cbn [forallb] in H. apply andb_true_iff in H as [Hs Hrest].
    apply negb_true_iff in Hs. unfold is_dot_name in Hs.
    cbn [mem_str existsb] in Hs.
    apply orb_false_iff in Hs as [H1 H2].
    apply orb_false_iff in H2 as [H2 _].
    cbn [resolve_dots]. rewrite H2, H1, (IH Hrest).
    now rewrite <- app_assoc.
Qed.

Lemma filter_nonempty_all (parts : list string) :
  forallb nonempty parts = true -> filter nonempty parts = parts.
Proof.
  induction parts as [|s rest IH]; [reflexivity|]. cbn [forallb filter].
  intros H. apply andb_true_iff in H as [Hs Hrest].
  now rewrite Hs, (IH Hrest).
Qed.

(** The inner empty segments that joining the base path and the
    reference brings are dropped. *)
Lemma drop_inner_empty_joined (parts : list string) :
  parts <> [] ->
  forallb nonempty (removelast parts) = true ->
  drop_inner_empty ("" :: "" :: parts) = "" :: parts.
Proof.
  intros Hne Hall. unfold drop_inner_empty.
  change (removelast ("" :: parts))
    with (match parts with [] => [] | _ => "" :: removelast parts end).
  destruct parts as [|s rest]; [congruence|].
  cbn [filter nonempty]. rewrite (filter_nonempty_all _ Hall).
  unfold last_part. f_equal.
  change (last ("" :: s :: rest) "") with (last (s :: rest) "").
  symmetry. apply app_removelast_last. discriminate.
Qed.

Lemma join_leading_empty (parts : list string) :
  parts <> [] -> join "/" ("" :: parts) = "/" ++ join "/" parts.
Proof. intros H. now rewrite join_cons. Qed.

End JoinedSegments.

Section UrlJoin.

Variables scheme netloc : string.
Hypothesis scheme_ok : is_web_scheme scheme = true.
Hypothesis netloc_ok : is_netloc netloc = true.

Variable segments : list string.
Hypothesis segments_ok : forallb url_segment segments = true.
Hypothesis segments_some : segments <> [].

Variable tail : list string.
Hypothesis tail_ok : tail = [] \/ tail = [""].

Let parts : list string := (segments ++ tail)%list.

Lemma url_segment_facts (s : string) :
  url_segment s = true ->
  nonempty s = true /\ slash_free s = true
  /\ all_chars url_char s = true /\ negb (is_dot_name s) = true.
Proof.
  unfold url_segment, is_segment. intros H.
  apply andb_true_iff in H as [H H3]. apply andb_true_iff in H as [H H2].
  apply andb_true_iff in H as [H0 H1]. auto.
Qed.

Lemma forallb_parts (q : string -> bool) :
  (forall s, url_segment s = true -> q s = true) ->
  q "" = true ->
  forallb q parts = true.
Proof.
  intros Hq He. unfold parts. rewrite forallb_app. apply andb_true_iff.
  split.
  - apply forallb_forall. intros s Hs. apply Hq.
    now apply (proj1 (forallb_forall _ _) segments_ok).
  - destruct tail_ok as [E|E]; rewrite E; cbn; [reflexivity|].
    now rewrite He.
Qed.

Lemma parts_some : parts <> [].
Proof.
  unfold parts. destruct segments; [now elim segments_some | discriminate].
Qed.

Lemma parts_inner_nonempty : forallb nonempty (removelast parts) = true.
Proof.
  assert (Hseg : forallb nonempty segments = true).
  { apply forallb_forall. intros s Hs.
    apply url_segment_facts.
    now apply (proj1 (forallb_forall _ _) segments_ok). }
  unfold parts. destruct tail_ok as [E|E]; rewrite E.
  - rewrite app_nil_r. apply forallb_forall. intros s Hs.
    apply (proj1 (forallb_forall _ _) Hseg).
    destruct (exists_last segments_some) as (l & x & El).
    rewrite El in *. rewrite removelast_last in Hs.
    apply in_or_app. now left.
  - now rewrite removelast_last.
Qed.

Lemma parts_head :
  startswith (join "/" parts) "/" = false
  /\ nonempty (join "/" parts) = true.
Proof.
  unfold parts. destruct segments as [|s rest] eqn:E;
    [now elim segments_some|].
  cbn [forallb] in segments_ok.
  apply andb_true_iff in segments_ok as [Hs _].
  destruct (url_segment_facts s Hs) as (Hn & Hf & _ & _).
  destruct s as [|c s']; [discriminate Hn|].
  assert (Hj : exists r, join "/" ((String c s' :: rest) ++ tail)
                         = String c r).
  { cbn [app]. destruct (rest ++ tail)%list.
    - now exists s'.
    - rewrite join_cons by discriminate. now eexists. }
  destruct Hj as [r Hj]. rewrite Hj. split; [|reflexivity].
  unfold startswith. cbn [prefix].
  destruct (ascii_dec "/" c) as [Ec|]; [|reflexivity].
  subst c. discriminate Hf.
Qed.

Lemma parts_last_plain : mem_str (last_part ("" :: parts)) ["."; ".."] = false.
Proof.
  pose proof (forallb_parts (fun s => negb (is_dot_name s))
                (fun s Hs => proj2 (proj2 (proj2 (url_segment_facts s Hs))))
                eq_refl) as H.
  pose proof parts_some as Hne.
  destruct (exists_last Hne) as (l & x & El).
  unfold last_part. change ("" :: parts) with ([""] ++ parts)%list.
  rewrite El, app_assoc, last_last.
  rewrite El, forallb_app in H. apply andb_true_iff in H as [_ H].
  cbn [forallb] in H. rewrite andb_true_r in H.
  now apply negb_true_iff in H.
Qed.

Lemma web_scheme_tests :
  nonempty scheme = true
  /\ mem_str scheme uses_relative = true
  /\ mem_str scheme uses_netloc = true
  /\ nonempty (server_base scheme netloc ++ "/") = true.
Proof.
  pose proof scheme_ok as Hs.
  unfold is_web_scheme in Hs. cbn [mem_str existsb] in Hs.
  rewrite orb_false_r in Hs. apply orb_true_iff in Hs as [Hs|Hs];
    apply String.eqb_eq in Hs; rewrite Hs; repeat split.
Qed.

(** Joining the base and a reference made of plain segments puts the
    reference behind the base. *)
Lemma urljoin_parts :
  urljoin (server_base scheme netloc ++ "/") (join "/" parts)
  = ret (server_base scheme netloc ++ "/" ++ join "/" parts).
Proof.
  destruct web_scheme_tests as (Hs1 & Hs2 & Hs3 & Hs4).
  destruct parts_head as [Hp1 Hp2].
  unfold urljoin. rewrite Hs4, Hp2. cbn [negb].
  rewrite (urlparse_base netloc netloc_ok scheme scheme_ok).
  cbn [pres_bind ret u_scheme].
  rewrite (urlparse_relative (join "/" parts) scheme).
  2:{ apply all_chars_join; [reflexivity|].
      apply forallb_parts; [|reflexivity].
      intros s Hs. apply (url_segment_facts s Hs). }
  2:{ exact Hp1. }
  2:{ exact scheme_ok. }
  cbn [pres_bind ret u_scheme u_netloc u_path u_params u_query u_fragment].
  rewrite String.eqb_refl, Hs2, Hs3, Hp1, Hp2. cbn [negb orb andb nonempty].
  change (split "/" "/") with [""; ""].
  change (nonempty (last_part [""; ""])) with false. cbv iota.
  rewrite split_join_slash_free.
  2:{ apply forallb_parts; [|reflexivity].
      intros s Hs. apply (url_segment_facts s Hs). }
  2:{ apply parts_some. }
  change ([""; ""] ++ parts)%list with ("" :: "" :: parts).
  rewrite (drop_inner_empty_joined parts parts_some parts_inner_nonempty).
  rewrite parts_last_plain.
  rewrite resolve_dots_plain.
  2:{ change (forallb (fun s => negb (is_dot_name s)) ("" :: parts))
        with (forallb (fun s => negb (is_dot_name s)) parts).
      apply forallb_parts; [|reflexivity].
      intros s Hs. apply (url_segment_facts s Hs). }
  cbn [app]. rewrite (join_leading_empty parts parts_some).
  cbn [append nonempty].
  unfold urlunparse, urlunsplit.
  cbn [u_scheme u_netloc u_path u_params u_query u_fragment nonempty].
  rewrite (netloc_nonempty netloc netloc_ok), Hs1. cbn [orb andb negb].
  change (String "/" (join "/" parts)) with ("/" ++ join "/" parts).
  rewrite (startswith_app "/" (join "/" parts)). cbn [negb].
  unfold server_base. rewrite !append_assoc. reflexivity.
Qed.

End UrlJoin.

Lemma join_trailing_empty (parts : list string) :
  parts <> [] -> join "/" (parts ++ [""]) = join "/" parts ++ "/".
Proof.
  induction parts as [|s rest IH]; [congruence|]. intros _.
  destruct rest as [|s' rest'].
  - cbn. reflexivity.
  - change ((s :: s' :: rest') ++ [""])%list
      with (s :: ((s' :: rest') ++ [""]))%list.
    rewrite join_cons by (cbn; discriminate).
    rewrite IH by discriminate.
    rewrite (join_cons s (s' :: rest')) by discriminate.
    now rewrite !append_assoc.
Qed.

Lemma endswith_app (a b : string) : endswith (a ++ b) b = true.
Proof.
  induction a as [|c a IH].
  - cbn [append]. destruct b; cbn [endswith]; now rewrite String.eqb_refl.
  - cbn [append endswith]. rewrite IH.
    destruct (String c (a ++ b) =? b)%string; reflexivity.
Qed.

Lemma lstrip_slash_head (s : string) :
  startswith s "/" = false -> lstrip_slash s = s.
Proof.
  unfold startswith, lstrip_slash. destruct s as [|c s]; [reflexivity|].
  cbn [prefix lstrip_by]. unfold is_slash.
  destruct (ascii_dec "/" c) as [E|E].
  - destruct s; intros H; discriminate H.
  - intros _. destruct (Ascii.eqb c "/") eqn:Ec; [|reflexivity].
    apply Ascii.eqb_eq in Ec. congruence.
Qed.

Section UrlConstruction.

Variables scheme netloc : string.
Hypothesis scheme_ok : is_web_scheme scheme = true.
Hypothesis netloc_ok : is_netloc netloc = true.

Let base : string := server_base scheme netloc.

(** The listing URL of the root has a single slash. *)
Lemma listing_url_root : listing_url base "" = ret (base ++ "/").
Proof.
  destruct (web_scheme_tests scheme netloc scheme_ok) as (Hs1 & Hs2 & Hs3 & Hs4).
  unfold listing_url, base. cbn [nonempty].
  change (lstrip_slash "." ++ "/") with "./".
  unfold urljoin. rewrite Hs4. cbn [nonempty negb].
  rewrite (urlparse_base netloc netloc_ok scheme scheme_ok).
  cbn [pres_bind ret u_scheme].
  rewrite (urlparse_relative "./" scheme eq_refl eq_refl scheme_ok).
  cbn [pres_bind ret u_scheme u_netloc u_path u_params u_query u_fragment].
  rewrite String.eqb_refl, Hs2, Hs3. cbn [negb orb andb nonempty].
  change (split "/" "/") with [""; ""].
  change (nonempty (last_part [""; ""])) with false. cbv iota.
  change (startswith "./" "/") with false. cbv iota.
  change (drop_inner_empty ([""; ""] ++ split "/" "./"))
    with [""; "."; ""].
  change (resolve_dots [""; "."; ""] []) with [""; ""].
  change (mem_str (last_part [""; "."; ""]) ["."; ".."]) with false.
  cbv iota. change (join "/" [""; ""]) with "/". cbn [nonempty].
  unfold urlunparse, urlunsplit.
  cbn [u_scheme u_netloc u_path u_params u_query u_fragment nonempty].
  rewrite (netloc_nonempty netloc netloc_ok), Hs1.
  cbn [orb andb negb nonempty].
  change (startswith "/" "/") with true. cbn [negb andb].
  cbn [pres_bind ret].
  replace (scheme ++ ":" ++ "//" ++ netloc ++ "/")
    with (server_base scheme netloc ++ "/")
    by (unfold server_base; now rewrite !append_assoc).
  now rewrite endswith_app.
Qed.

Variable segments : list string.
Hypothesis segments_ok : forallb url_segment segments = true.
Hypothesis segments_some : segments <> [].

Let path : string := remote_path_of segments.

Lemma path_head : startswith path "/" = false /\ nonempty path = true.
Proof.
  pose proof (parts_head segments segments_ok segments_some []) as H.
  now rewrite app_nil_r in H.
Qed.

Lemma listing_url_path : listing_url base path = ret (base ++ "/" ++ path ++ "/").
Proof.
  destruct path_head as [H1 H2].
  unfold listing_url. rewrite H2, (lstrip_slash_head _ H1).
  unfold path, remote_path_of.
  rewrite <- (join_trailing_empty segments segments_some).
  unfold base.
  rewrite (urljoin_parts scheme netloc scheme_ok netloc_ok segments
                         segments_ok segments_some [""]
                         (or_intror eq_refl)).
  cbn [pres_bind ret].
  rewrite (join_trailing_empty segments segments_some).
  replace (server_base scheme netloc ++ "/" ++ join "/" segments ++ "/")
    with ((server_base scheme netloc ++ "/" ++ join "/" segments) ++ "/")
    by (now rewrite !append_assoc).
  rewrite endswith_app. cbn [negb]. now rewrite !append_assoc.
Qed.

Lemma file_url_path : file_url base path = ret (base ++ "/" ++ path).
Proof.
  destruct path_head as [H1 H2].
  unfold file_url. rewrite (lstrip_slash_head _ H1).
  pose proof (urljoin_parts scheme netloc scheme_ok netloc_ok segments
                            segments_ok segments_some []
                            (or_introl eq_refl)) as H.
  rewrite app_nil_r in H. exact H.
Qed.

End UrlConstruction.

Lemma mem_char_app (x : ascii) (a b : string) :
  mem_char x (a ++ b) = mem_char x a || mem_char x b.
Proof.
  induction a as [|c a IH]; [reflexivity|]. simpl.
  now rewrite IH, orb_assoc.
Qed.

(** [Request] accepts a URL that starts with [http://] or [https://]. *)
Lemma Request_web (scheme body : string) :
  is_web_scheme scheme = true ->
  mem_char "#" body = false ->
  Request (scheme ++ "://" ++ body ++ "?json")
  = ret (scheme ++ "://" ++ body ++ "?json").
Proof.
  intros Hs Hb.
  assert (Hr : forall pre, rstrip_by isspace (pre ++ body ++ "?json")
                           = pre ++ body ++ "?json").
  { intros pre. rewrite rstrip_by_app.
    replace (rstrip_by isspace (body ++ "?json")) with (body ++ "?json")
      by (now rewrite rstrip_by_app).
    destruct body; reflexivity. }
  assert (Hm : forall pre, mem_char "#" pre = false ->
                           rcut_at "#" (pre ++ body ++ "?json") = None).
  { intros pre Hpre. apply rcut_at_absent.
    now rewrite !mem_char_app, Hpre, Hb. }
  unfold is_web_scheme in Hs. cbn [mem_str existsb] in Hs.
  rewrite orb_false_r in Hs. apply orb_true_iff in Hs as [Hs|Hs];
    apply String.eqb_eq in Hs; subst scheme.
  - change ("http" ++ "://" ++ body ++ "?json")
      with ("http://" ++ body ++ "?json").
    unfold Request, unwrap, strip, strip_by.
    change (lstrip_by isspace ("http://" ++ body ++ "?json"))
      with ("http://" ++ body ++ "?json").
    rewrite (Hr "http://").
    change (startswith ("http://" ++ body ++ "?json") "<") with false.
    cbn [andb].
    change (startswith ("http://" ++ body ++ "?json") "URL:") with false.
    cbv iota. rewrite (Hm "http://" eq_refl). reflexivity.
  - change ("https" ++ "://" ++ body ++ "?json")
      with ("https://" ++ body ++ "?json").
    unfold Request, unwrap, strip, strip_by.
    change (lstrip_by isspace ("https://" ++ body ++ "?json"))
      with ("https://" ++ body ++ "?json").
    rewrite (Hr "https://").
    change (startswith ("https://" ++ body ++ "?json") "<") with false.
    cbn [andb].
    change (startswith ("https://" ++ body ++ "?json") "URL:") with false.
    cbv iota. rewrite (Hm "https://" eq_refl). reflexivity.
Qed.

Lemma cut_at_app (x : ascii) (a rest : string) :
  mem_char x a = false -> cut_at x (a ++ String x rest) = Some (a, rest).
Proof.
  induction a as [|c a IH]; intros H.
  - cbn. now rewrite Ascii.eqb_refl.
  - cbn [mem_char] in H. apply orb_false_iff in H as [Hc Ha].
    cbn [append cut_at]. rewrite Ascii.eqb_sym in Hc.
    now rewrite Hc, (IH Ha).
Qed.

Lemma netloc_slash_free (netloc : string) :
  is_netloc netloc = true -> mem_char "/" netloc = false.
Proof.
  intros H. apply (mem_char_absent netloc_char); [reflexivity|].
  now apply netloc_chars.
Qed.

(** The base and what follows its slash can be read back from a URL. *)
Lemma server_base_injective (s1 n1 t1 s2 n2 t2 : string) :
  is_web_scheme s1 = true -> is_netloc n1 = true ->
  is_web_scheme s2 = true -> is_netloc n2 = true ->
  server_base s1 n1 ++ "/" ++ t1 = server_base s2 n2 ++ "/" ++ t2 ->
  s1 = s2 /\ n1 = n2 /\ t1 = t2.
Proof.
  intros Hs1 Hn1 Hs2 Hn2 H.
  assert (Hcut : forall n t, is_netloc n = true ->
                             cut_at "/" (n ++ String "/" t) = Some (n, t)).
  { intros n t Hn. apply cut_at_app. now apply netloc_slash_free. }
  unfold is_web_scheme in Hs1, Hs2. cbn [mem_str existsb] in Hs1, Hs2.
  rewrite orb_false_r in Hs1, Hs2.
  apply orb_true_iff in Hs1 as [Hs1|Hs1];
    apply orb_true_iff in Hs2 as [Hs2|Hs2];
    apply String.eqb_eq in Hs1, Hs2; subst s1 s2;
    unfold server_base in H; rewrite !append_assoc in H;
    cbn [append] in H; try discriminate H.
  - injection H as H. pose proof (Hcut n1 t1 Hn1) as C1.
    rewrite H, (Hcut n2 t2 Hn2) in C1. now inversion C1.
  - injection H as H. pose proof (Hcut n1 t1 Hn1) as C1.
    rewrite H, (Hcut n2 t2 Hn2) in C1. now inversion C1.
Qed.

(** Segments can be read back from their path. *)
Lemma remote_path_injective (l1 l2 : list string) :
  forallb url_segment l1 = true -> forallb url_segment l2 = true ->
  remote_path_of l1 = remote_path_of l2 -> l1 = l2.
Proof.
  intros H1 H2 H. unfold remote_path_of in H.
  assert (Hfree : forall l, forallb url_segment l = true ->
                            forallb slash_free l = true).
  { intros l Hl. apply forallb_forall. intros s Hs.
    apply url_segment_facts. now apply (proj1 (forallb_forall _ _) Hl). }
  assert (Hne : forall l, forallb url_segment l = true -> l <> [] ->
                          join "/" l <> "").
  { intros l Hl Hn E.
    pose proof (parts_head l Hl Hn []) as [_ Hp].
    rewrite app_nil_r, E in Hp. discriminate Hp. }
  destruct l1 as [|a1 r1], l2 as [|a2 r2]; [reflexivity | | |].
  - symmetry in H. now apply Hne in H.
  - now apply Hne in H.
  - rewrite <- (split_join_slash_free (a1 :: r1)) by (auto; discriminate).
    rewrite H. apply split_join_slash_free; [auto | discriminate].
Qed.

Example fetch_json_urls :
  fetch_json env_echo "http://h:6008" "docs/img"
  = ret (JStr "http://h:6008/docs/img/?json")
  /\ fetch_json env_echo "http://h:6008" "docs/img/"
     = ret (JStr "http://h:6008/docs/img/?json")
  /\ fetch_json env_echo "http://h:6008" "" = ret (JStr "http://h:6008/?json")
  /\ file_url "http://h:6008" "docs/a.txt" = ret "http://h:6008/docs/a.txt".
Proof. repeat split. Qed.

(** C8, as stated, fails at the root: for the empty remote path the listing
    URL is the base, one slash and the query marker, not the base, a
    slash, the (empty) path, a second slash and the marker. *)
Lemma listing_url_root_counterexample :
  fetch_json env_echo "http://h" "" = ret (JStr "http://h/?json")
  /\ listing_url "http://h" "" = ret "http://h/"
  /\ listing_url "http://h" "" <> ret ("http://h" ++ "/" ++ "" ++ "/").
Proof. repeat split. discriminate. Qed.

(** C8, amended: for a base made of [http://] or [https://] and a host
    with an optional port, and a remote path made of plain segments, the
    URL of a listing is the base, a slash, the path, a slash and the query
    marker when the path is not empty, and the base, a slash and the query
    marker for the root; the URL of a file is the base, a slash and the
    path; both constructions are injective on such bases and paths. *)
Theorem url_construction
        (scheme netloc : string) (segments : list string)
        (scheme' netloc' : string) (segments' : list string) :
  is_web_scheme scheme = true -> is_netloc netloc = true ->
  forallb url_segment segments = true ->
  is_web_scheme scheme' = true -> is_netloc netloc' = true ->
  forallb url_segment segments' = true ->
  let base := server_base scheme netloc in
  let path := remote_path_of segments in
  let base' := server_base scheme' netloc' in
  let path' := remote_path_of segments' in
  let listing := if nonempty path then base ++ "/" ++ path ++ "/"
                 else base ++ "/" in
  listing_url base path = ret listing
  /\ (forall e, fetch_json e base path = Some (get_json e (listing ++ "?json")))
  /\ file_url base path = ret (base ++ "/" ++ path)
  /\ (listing_url base path = listing_url base' path' ->
      base = base' /\ path = path')
  /\ (file_url base path = file_url base' path' ->
      base = base' /\ path = path').
Proof.
  intros Hs Hn Hseg Hs' Hn' Hseg' base path base' path' listing.
  assert (Hlist : forall s n l,
             is_web_scheme s = true -> is_netloc n = true ->
             forallb url_segment l = true ->
             listing_url (server_base s n) (remote_path_of l)
             = ret (server_base s n ++ "/"
                      ++ match l with
                         | [] => ""
                         | _ => remote_path_of l ++ "/"
                         end)).
  { intros s n l Hs0 Hn0 Hl. destruct l as [|a r].
    - change (remote_path_of []) with "".
      rewrite (listing_url_root s n Hs0 Hn0). now rewrite append_nil_r.
    - apply listing_url_path; [assumption.. | discriminate]. }
  assert (Hfile : forall s n l,
             is_web_scheme s = true -> is_netloc n = true ->
             forallb url_segment l = true ->
             file_url (server_base s n) (remote_path_of l)
             = ret (server_base s n ++ "/" ++ remote_path_of l)).
  { intros s n l Hs0 Hn0 Hl. destruct l as [|a r].
    - unfold file_url. change (lstrip_slash (remote_path_of [])) with "".
      unfold urljoin.
      destruct (web_scheme_tests s n Hs0) as (_ & _ & _ & H4).
      rewrite H4. reflexivity.
    - apply file_url_path; [assumption.. | discriminate]. }
  assert (Hlisting : listing
                     = base ++ "/" ++ match segments with
                                      | [] => ""
                                      | _ => path ++ "/"
                                      end).
  { unfold listing. destruct segments as [|a r]; [reflexivity|].
    destruct (path_head (a :: r) Hseg) as [_ Hp]; [discriminate|].
    unfold path. now rewrite Hp. }
  split; [|split; [|split; [|split]]].
  - rewrite Hlisting. now apply Hlist.
  - intros e. unfold fetch_json. rewrite Hlisting. unfold base, path.
    rewrite (Hlist scheme netloc segments Hs Hn Hseg).
    cbn [pres_bind ret].
    assert (Hreq : forall body,
               mem_char "#" body = false ->
               Request ((server_base scheme netloc ++ "/" ++ body) ++ "?json")
               = ret ((server_base scheme netloc ++ "/" ++ body) ++ "?json")).
    { intros body Hb. unfold server_base.
      rewrite !append_assoc.
      replace (netloc ++ "/" ++ body ++ "?json")
        with ((netloc ++ "/" ++ body) ++ "?json")
        by (now rewrite !append_assoc).
      apply (Request_web scheme (netloc ++ "/" ++ body) Hs).
      rewrite !mem_char_app, Hb.
      rewrite (mem_char_absent netloc_char "#" netloc eq_refl
                               (netloc_chars netloc Hn)).
      reflexivity. }
    rewrite Hreq; [reflexivity|].
    destruct segments as [|a r]; [reflexivity|].
    rewrite mem_char_app, orb_false_r.
    apply (mem_char_absent url_char); [reflexivity|].
    apply all_chars_join; [reflexivity|].
    apply forallb_forall. intros s Hin. apply url_segment_facts.
    now apply (proj1 (forallb_forall _ _) Hseg).
  - now apply Hfile.
  - unfold base, path, base', path'.
    rewrite (Hlist _ _ _ Hs Hn Hseg), (Hlist _ _ _ Hs' Hn' Hseg').
    intros H. injection H as H.
    apply server_base_injective in H as (E1 & E2 & E3); try assumption.
    subst. split; [reflexivity|].
    destruct segments as [|a r], segments' as [|a' r']; try reflexivity.
    + destruct (remote_path_of (a' :: r')); discriminate E3.
    + destruct (remote_path_of (a :: r)); discriminate E3.
    + assert (E : forall x y : string, x ++ "/" = y ++ "/" -> x = y).
      { induction x as [|c x IHx]; intros [|d y] Hxy;
          try reflexivity; cbn in Hxy.
        - destruct y; discriminate Hxy.
        - destruct x; discriminate Hxy.
        - injection Hxy as Ec Hxy. subst. f_equal. now apply IHx. }
      now apply E.
  - unfold base, path, base', path'.
    rewrite (Hfile _ _ _ Hs Hn Hseg), (Hfile _ _ _ Hs' Hn' Hseg').
    intros H. injection H as H.
    apply server_base_injective in H as (E1 & E2 & E3); try assumption.
    now subst.
Qed.

Lemma url_construction_witness :
  listing_url "http://h:6008" "A/B" = ret "http://h:6008/A/B/"
  /\ (forall e, fetch_json e "http://h:6008" "A/B"
                = Some (get_json e "http://h:6008/A/B/?json"))
  /\ file_url "http://h:6008" "A/B" = ret "http://h:6008/A/B"
  /\ (listing_url "http://h:6008" "A/B" = listing_url "https://h" "A" ->
      "http://h:6008" = "https://h" /\ "A/B" = "A")
  /\ (file_url "http://h:6008" "A/B" = file_url "https://h" "A" ->
      "http://h:6008" = "https://h" /\ "A/B" = "A").
Proof.
  apply (url_construction "http" "h:6008" ["A"; "B"] "https" "h" ["A"]);
    reflexivity.
Defined.


(* ================================================================= *)
(** * Further properties *)

(* ================================================================= *)
(** ** Splitting and joining on any separator *)

Lemma split_absent (c : ascii) (s : string) :
  mem_char c s = false -> split c s = [s].
Proof.
  induction s as [|d s IH]; [reflexivity|]. cbn [mem_char split].
  intros H. apply orb_false_iff in H as [Hd Hs].
  rewrite Ascii.eqb_sym in Hd. now rewrite Hd, (IH Hs).
Qed.

Lemma split_app_sep (c : ascii) (s t : string) :
  mem_char c s = false -> split c (s ++ String c t) = s :: split c t.
Proof.
  induction s as [|d s IH]; intros H.
  - cbn. now rewrite Ascii.eqb_refl.
  - cbn [mem_char] in H. apply orb_false_iff in H as [Hd Hs].
    rewrite Ascii.eqb_sym in Hd. cbn [append split].
    now rewrite Hd, (IH Hs).
Qed.

Lemma concat_cons (sep s : string) (rest : list string) :
  rest <> [] -> join sep (s :: rest) = s ++ sep ++ join sep rest.
Proof. destruct rest; [congruence | reflexivity]. Qed.

(** Splitting undoes joining, for parts that do not hold the separator. *)
Lemma split_join_sep (c : ascii) (parts : list string) :
  forallb (fun s => negb (mem_char c s)) parts = true -> parts <> [] ->
  split c (join (String c "") parts) = parts.
Proof.
  induction parts as [|s rest IH]; [congruence|].
  cbn [forallb]. intros H _. apply andb_true_iff in H as [Hs Hrest].
  apply negb_true_iff in Hs.
  destruct rest as [|s' rest'].
  - cbn. now apply split_absent.
  - rewrite concat_cons by discriminate. cbn [append].
    rewrite split_app_sep by exact Hs. f_equal.
    apply IH; [exact Hrest | discriminate].
Qed.

Lemma rstrip_by_only (p : ascii -> bool) (s : string) :
  all_chars p s = true -> rstrip_by p s = EmptyString.
Proof.
  induction s as [|c s IH]; simpl; [reflexivity|].
  intros H. apply andb_true_iff in H as [Hc Hs].
  now rewrite (IH Hs), Hc.
Qed.

(** A string whose last character is kept is left alone by [rstrip]. *)
Lemma rstrip_by_last_kept (p : ascii -> bool) (s : string) (c : ascii) :
  p c = false -> rstrip_by p (s ++ String c "") = s ++ String c "".
Proof.
  intros Hc. rewrite rstrip_by_app. cbn [rstrip_by]. now rewrite Hc.
Qed.

(** The elements of a split do not hold the separator. *)
Lemma split_parts_free (c : ascii) (s : string) :
  forallb (fun x => negb (mem_char c x)) (split c s) = true.
Proof.
  induction s as [|d s IH]; [reflexivity|]. cbn [split].
  destruct (Ascii.eqb d c) eqn:E.
  - cbn [forallb mem_char negb]. exact IH.
  - destruct (split c s) as [|h t];
      [cbn; now rewrite Ascii.eqb_sym, E|].
    cbn [forallb] in *. apply andb_true_iff in IH as [Hh Ht].
    rewrite Ht, andb_true_r. cbn [mem_char].
    rewrite Ascii.eqb_sym, E. exact Hh.
Qed.

Lemma split_nonempty (c : ascii) (s : string) : split c s <> [].
Proof.
  destruct s as [|d s]; [discriminate|]. cbn [split].
  destruct (Ascii.eqb d c); [discriminate|].
  destruct (split c s); discriminate.
Qed.

(** Joining undoes splitting. *)
Lemma join_split (c : ascii) (s : string) :
  join (String c "") (split c s) = s.
Proof.
  induction s as [|d s IH]; [reflexivity|]. cbn [split].
  pose proof (split_nonempty c s) as Hne.
  destruct (Ascii.eqb d c) eqn:E.
  - apply Ascii.eqb_eq in E. subst d.
    rewrite concat_cons by exact Hne. cbn [append]. now rewrite IH.
  - destruct (split c s) as [|h t] eqn:Es; [congruence|].
    destruct t as [|h' t'].
    + cbn in *. now rewrite IH.
    + rewrite concat_cons by discriminate.
      rewrite concat_cons in IH by discriminate.
      cbn [append] in *. now rewrite IH.
Qed.

(* ================================================================= *)
(** ** fetch_simple *)

Lemma rstrip_by_empty_only (p : ascii -> bool) (s : string) :
  rstrip_by p s = EmptyString -> all_chars p s = true.
Proof.
  induction s as [|c s IH]; simpl; [reflexivity|].
  destruct (rstrip_by p s) eqn:E; [|discriminate].
  destruct (p c); [|discriminate].
  intros _. now rewrite IH.
Qed.

Lemma endswith_all_slashes (s : string) :
  all_chars is_slash s = true -> s <> "" -> endswith s "/" = true.
Proof.
  induction s as [|c s IH]; [congruence|]. cbn [all_chars].
  intros H _. apply andb_true_iff in H as [Hc Hs].
  unfold is_slash in Hc. apply Ascii.eqb_eq in Hc. subst c.
  destruct s as [|d s]; [reflexivity|].
  cbn [endswith]. cbn [endswith] in IH.
  destruct (String "/" (String d s) =? "/")%string; [reflexivity|].
  apply IH; [exact Hs | discriminate].
Qed.

Lemma simple_entries_names (lines : list string) (name : string)
      (is_dir : bool) :
  In (name, is_dir) (simple_entries lines) ->
  endswith name "/" = false /\ (is_dir = false -> name <> "").
Proof.
  induction lines as [|line rest IH]; [intros []|].
  cbn [simple_entries]. destruct (nonempty line) eqn:Hne; cbn [negb];
    [|exact IH].
  intros [H|H]; [|now apply IH]. inversion H; subst. split.
  - apply endswith_rstrip_slash.
  - intros Hd E. apply rstrip_by_empty_only in E.
    rewrite endswith_all_slashes in Hd; [discriminate | exact E|].
    now apply nonempty_true.
Qed.

(** X1: whatever the server answers, no name of the line-oriented listing
    ends with a slash, and the name of an entry that is not a directory is
    not empty. *)
Theorem fetch_simple_names
        (e : env) (base_url path : string) (entries : list entry)
        (name : string) (is_dir : bool) :
  fetch_simple e base_url path = ret entries ->
  In (name, is_dir) entries ->
  endswith name "/" = false /\ (is_dir = false -> name <> "").
Proof.
  unfold fetch_simple. intros H Hin.
  destruct (listing_url base_url path) as [[url|ex]|]; try discriminate H.
  cbn [pres_bind] in H.
  destruct (Request (url ++ "?simple")) as [[req|ex]|]; try discriminate H.
  cbn [pres_bind] in H.
  destruct (get_text e req) as [text|ex]; try discriminate H.
  cbn [pres_bind ret] in H. inversion H; subst entries.
  now apply (simple_entries_names _ _ _ Hin).
Qed.

Lemma fetch_simple_names_witness :
  endswith "sub" "/" = false /\ (true = false -> "sub" <> "").
Proof.
  apply (fetch_simple_names env_missing_paths "http://h" "docs"
                            [("a.txt", false); ("sub", true)] "sub" true).
  - reflexivity.
  - simpl. auto.
Defined.

Lemma plain_name_facts (s : string) :
  plain_name s = true ->
  nonempty s = true
  /\ all_chars (fun c => negb (isspace c)) s = true
  /\ slash_free s = true.
Proof.
  unfold plain_name. intros H. apply andb_true_iff in H as [H0 H].
  split; [exact H0|]. split.
  - eapply all_chars_impl; [|exact H]. intros c Hc.
    now apply andb_true_iff in Hc.
  - eapply all_chars_impl; [|exact H]. intros c Hc.
    now apply andb_true_iff in Hc.
Qed.

Lemma simple_entries_lines (items : list entry) :
  forallb (fun it => plain_name (fst it)) items = true ->
  simple_entries (map simple_line items) = items.
Proof.
  induction items as [|[name is_dir] rest IH]; [reflexivity|].
  cbn [forallb map fst]. intros H. apply andb_true_iff in H as [Hn Hrest].
  destruct (plain_name_facts name Hn) as (Hne & _ & Hfree).
  assert (Hr : rstrip_slash name = name) by (now apply rstrip_by_noop).
  change (simple_line (name, is_dir))
    with (if is_dir then name ++ "/" else name).
  cbn [simple_entries].
  destruct is_dir.
  - replace (nonempty (name ++ "/")) with true
      by (destruct name; reflexivity).
    cbn [negb]. rewrite endswith_app, (IH Hrest).
    unfold rstrip_slash in *. rewrite rstrip_by_app. cbn. now rewrite Hr.
  - assert (He : endswith name "/" = false)
      by (rewrite <- Hr; apply endswith_rstrip_slash).
    rewrite Hne. cbn [negb]. now rewrite (IH Hrest), Hr, He.
Qed.

Lemma string_snoc (s : string) :
  s <> "" ->
  exists x c, s = x ++ String c ""
              /\ forall q, all_chars q s = true -> q c = true.
Proof.
  induction s as [|d s IH]; [congruence|]. intros _.
  destruct s as [|d' s'].
  - exists "", d. split; [reflexivity|]. intros q H. cbn in H.
    now rewrite andb_true_r in H.
  - destruct IH as (x & c & E & Hq); [discriminate|].
    exists (String d x), c. split; [cbn; now rewrite <- E|].
    intros q H. cbn [all_chars] in H. apply andb_true_iff in H as [_ H].
    now apply Hq.
Qed.

Lemma lstrip_by_only (p : ascii -> bool) (s : string) :
  all_chars p s = true -> lstrip_by p s = EmptyString.
Proof.
  induction s as [|c s IH]; simpl; [reflexivity|].
  intros H. apply andb_true_iff in H as [Hc Hs]. now rewrite Hc, IH.
Qed.

(** The line of a plain name starts and ends with a character that is
    not a blank, and holds no newline. *)
Lemma simple_line_shape (name : string) (is_dir : bool) :
  plain_name name = true ->
  (exists c r, simple_line (name, is_dir) = String c r /\ isspace c = false)
  /\ (exists x c, simple_line (name, is_dir) = x ++ String c ""
                  /\ isspace c = false)
  /\ mem_char newline (simple_line (name, is_dir)) = false.
Proof.
  intros Hn. destruct (plain_name_facts name Hn) as (Hne & Hsp & _).
  assert (Hnl : mem_char newline name = false).
  { apply (mem_char_absent (fun c => negb (isspace c))); [reflexivity|].
    exact Hsp. }
  unfold simple_line. cbn [fst snd]. split; [|split].
  - destruct name as [|c r]; [discriminate Hne|].
    cbn [all_chars] in Hsp. apply andb_true_iff in Hsp as [Hc _].
    apply negb_true_iff in Hc.
    destruct is_dir; eexists _, _; (split; [reflexivity | exact Hc]).
  - destruct is_dir.
    + exists name, "/"%char. split; reflexivity.
    + destruct (string_snoc name (nonempty_true _ Hne)) as (x & c & E & Hq).
      exists x, c. split; [exact E|].
      apply negb_true_iff. now apply (Hq (fun c => negb (isspace c))).
  - destruct is_dir; [|exact Hnl].
    now rewrite mem_char_app, Hnl.
Qed.

Lemma simple_text_last (items : list entry) :
  items <> [] ->
  forallb (fun it => plain_name (fst it)) items = true ->
  exists x c, simple_text items = x ++ String c "" /\ isspace c = false.
Proof.
  unfold simple_text.
  induction items as [|[name is_dir] rest IH]; [congruence|].
  intros _ H. cbn [forallb fst] in H. apply andb_true_iff in H as [Hn Hr].
  destruct rest as [|it2 rest'].
  - destruct (simple_line_shape name is_dir Hn) as (_ & Hl & _). exact Hl.
  - destruct IH as (x & c & E & Hc); [discriminate | exact Hr |].
    cbn [map] in *. rewrite concat_cons by discriminate. rewrite E.
    exists (simple_line (name, is_dir) ++ nl ++ x), c.
    split; [now rewrite !append_assoc | exact Hc].
Qed.

Lemma simple_text_first (items : list entry) :
  items <> [] ->
  forallb (fun it => plain_name (fst it)) items = true ->
  exists c r, simple_text items = String c r /\ isspace c = false.
Proof.
  unfold simple_text. destruct items as [|[name is_dir] rest]; [congruence|].
  intros _ H. cbn [forallb fst] in H. apply andb_true_iff in H as [Hn _].
  destruct (simple_line_shape name is_dir Hn) as ((c & r & E & Hc) & _ & _).
  cbn [map]. destruct (map simple_line rest) as [|l ls].
  - exists c, r. now split.
  - rewrite concat_cons by discriminate. rewrite E.
    exists c. eexists. split; [reflexivity | exact Hc].
Qed.

(** What [strip] makes of the text of a listing followed by blanks. *)
Lemma strip_simple_text (items : list entry) (trailing : string) :
  forallb (fun it => plain_name (fst it)) items = true ->
  all_chars isspace trailing = true ->
  strip (simple_text items ++ trailing) = simple_text items.
Proof.
  intros Hitems Htr. unfold strip, strip_by.
  destruct items as [|it rest] eqn:Ei.
  - cbn. now rewrite (lstrip_by_only _ _ Htr).
  - rewrite <- Ei in *.
    assert (Hne : items <> []) by (rewrite Ei; discriminate).
    destruct (simple_text_first items Hne Hitems) as (c0 & r0 & E0 & Hc0).
    destruct (simple_text_last items Hne Hitems) as (x & c & E & Hc).
    rewrite E0. cbn [append lstrip_by]. rewrite Hc0.
    change (String c0 (r0 ++ trailing)) with (String c0 r0 ++ trailing).
    rewrite rstrip_by_app, (rstrip_by_only _ _ Htr).
    rewrite <- E0, E. now apply rstrip_by_last_kept.
Qed.

(** X2: the line-oriented listing is read back as it was written: for
    entries with plain names (not empty, no blank, no slash), written one
    per line with a slash after the directories and followed by any
    blanks, [fetch_simple] returns the entries, in their order. *)
Theorem fetch_simple_roundtrip
        (e : env) (base_url path url : string) (items : list entry)
        (trailing : string) :
  listing_url base_url path = ret url ->
  Request (url ++ "?simple") = ret (url ++ "?simple") ->
  get_text e (url ++ "?simple") = Ok (simple_text items ++ trailing) ->
  all_chars isspace trailing = true ->
  forallb (fun it => plain_name (fst it)) items = true ->
  fetch_simple e base_url path = ret items.
Proof.
  intros Hu Hr Ht Htr Hitems. unfold fetch_simple.
  rewrite Hu. cbn [pres_bind ret]. rewrite Hr. cbn [pres_bind ret].
  rewrite Ht. cbn [pres_bind ret].
  rewrite (strip_simple_text items trailing Hitems Htr).
  destruct items as [|it rest] eqn:Ei; [reflexivity|]. rewrite <- Ei in *.
  unfold simple_text. change nl with (String newline "").
  rewrite split_join_sep.
  - now rewrite simple_entries_lines.
  - rewrite forallb_forall. intros line Hin.
    apply in_map_iff in Hin as ([name is_dir] & El & Hin). subst line.
    apply negb_true_iff.
    apply (simple_line_shape name is_dir).
    now apply (proj1 (forallb_forall _ _) Hitems (name, is_dir)).
  - rewrite Ei. discriminate.
Qed.

Lemma fetch_simple_roundtrip_witness :
  fetch_simple env_missing_paths "http://h" "docs"
  = ret [("a.txt", false); ("sub", true)].
Proof.
  apply (fetch_simple_roundtrip
           env_missing_paths "http://h" "docs" "http://h/docs/"
           [("a.txt", false); ("sub", true)] nl); reflexivity.
Defined.

(* ================================================================= *)
(** ** The structured listing *)

Lemma listing_entries_written (items : list (string * path_kind)) :
  listing_entries
    (map (fun it => JObj [("name", JStr (fst it));
                          ("path_type", JStr (kind_tag (snd it)))]) items)
  = ret (map (fun it => (fst it, kind_is_dir (snd it))) items).
Proof.
  induction items as [|[name kind] rest IH]; [reflexivity|].
  cbn [map listing_entries fst snd]. rewrite IH.
  destruct name as [|c name]; destruct kind; reflexivity.
Qed.

(** X3: a structured answer that lists names with the four path types is
    read as written: [Dir] and [SymlinkDir] are directories, [File] and
    [SymlinkFile] are not, names and order are kept, and the line-oriented
    listing is not asked for. *)
Theorem list_directory_four_types
        (e : env) (base_url path : string)
        (items : list (string * path_kind)) :
  fetch_json e base_url path = ret (listing_json items) ->
  list_directory e base_url path
  = ret (map (fun it => (fst it, kind_is_dir (snd it))) items).
Proof.
  intros H.
  assert (Hp : parse_listing (listing_json items)
               = ret (map (fun it => (fst it, kind_is_dir (snd it))) items))
    by (exact (listing_entries_written items)).
  unfold list_directory. rewrite H. cbn [pres_bind ret]. now rewrite Hp.
Qed.

Lemma list_directory_four_types_witness :
  list_directory
    (listing_env (fun _ => Ok (listing_json [("a", KDir); ("b", KSymlinkDir);
                                              ("c", KFile); ("", KSymlinkFile)]))
                 (fun _ => Ok ""))
    "http://h" "x"
  = ret [("a", true); ("b", true); ("c", false); ("", false)].
Proof.
  apply (list_directory_four_types
           (listing_env (fun _ => Ok (listing_json
                                        [("a", KDir); ("b", KSymlinkDir);
                                         ("c", KFile); ("", KSymlinkFile)]))
                        (fun _ => Ok ""))
           "http://h" "x"
           [("a", KDir); ("b", KSymlinkDir); ("c", KFile); ("", KSymlinkFile)]).
  reflexivity.
Defined.

Lemma endswith_self (s : string) : endswith s s = true.
Proof. destruct s; cbn [endswith]; now rewrite String.eqb_refl. Qed.

Lemma endswith_app_r (a b c : string) :
  endswith b c = true -> endswith (a ++ b) c = true.
Proof.
  intros H. induction a as [|d a IH]; [exact H|].
  cbn [append endswith]. rewrite IH.
  destruct (String d (a ++ b) =? c)%string; reflexivity.
Qed.

(** The last part of a split is the end of the string. *)
Lemma endswith_last_part (c : ascii) (s : string) :
  endswith s (last_part (split c s)) = true.
Proof.
  rewrite <- (join_split c s) at 1.
  pose proof (split_nonempty c s) as Hne.
  induction (split c s) as [|x rest IH]; [congruence|].
  destruct rest as [|y rest'].
  - cbn. apply endswith_self.
  - rewrite concat_cons by discriminate.
    change (last_part (x :: y :: rest')) with (last_part (y :: rest')).
    rewrite <- append_assoc. apply endswith_app_r. apply IH. discriminate.
Qed.

Lemma last_part_forallb (q : string -> bool) (l : list string) :
  l <> [] -> forallb q l = true -> q (last_part l) = true.
Proof.
  intros Hne H. destruct (exists_last Hne) as (l' & x & E). subst l.
  unfold last_part. rewrite last_last.
  rewrite forallb_app in H. apply andb_true_iff in H as [_ H].
  cbn in H. now rewrite andb_true_r in H.
Qed.

(** X4: an item without a name (or with an empty one) and with an [href]
    gets the last segment of the [href] as its name: what follows the last
    slash once the trailing slashes are removed, so a name without a
    slash. *)
Theorem listing_entry_href_name
        (m : list (string * json)) (h : string) :
  dict_get "name" m = None \/ dict_get "name" m = Some (JStr "") ->
  dict_get "href" m = Some (JStr h) ->
  exists name is_dir,
    listing_entry (JObj m) = ret (name, is_dir)
    /\ name = last_part (split "/" (rstrip_slash h))
    /\ mem_char "/" name = false
    /\ endswith (rstrip_slash h) name = true.
Proof.
  intros Hn Hh.
  assert (Hs : forall s, mem_char "/" (last_part (split "/" s)) = false).
  { intros s. apply negb_true_iff.
    apply (last_part_forallb (fun x => negb (mem_char "/" x)));
      [apply split_nonempty | apply split_parts_free]. }
  assert (He : listing_entry (JObj m)
               = ret (if nonempty (rstrip_slash h)
                      then last_part (split "/" (rstrip_slash h)) else "",
                      match match dict_get "path_type" m with
                            | Some v => v
                            | None => JStr ""
                            end with
                      | JStr s => endswith s "Dir"
                      | _ => false
                      end)).
  { unfold listing_entry. destruct Hn as [Hn|Hn]; rewrite Hn, Hh; reflexivity. }
  rewrite He. eexists _, _. split; [reflexivity|].
  destruct (rstrip_slash h) as [|c r] eqn:E; cbn [nonempty].
  - repeat split.
  - split; [reflexivity|]. split; [apply Hs | apply endswith_last_part].
Qed.

Lemma listing_entry_href_name_witness :
  exists name is_dir,
    listing_entry (JObj [("href", JStr "/docs/img/"); ("path_type", JStr "Dir")])
    = ret (name, is_dir)
    /\ name = last_part (split "/" (rstrip_slash "/docs/img/"))
    /\ mem_char "/" name = false
    /\ endswith (rstrip_slash "/docs/img/") name = true.
Proof.
  apply (listing_entry_href_name
           [("href", JStr "/docs/img/"); ("path_type", JStr "Dir")]
           "/docs/img/"); [now left | reflexivity].
Defined.

(* ================================================================= *)
(** ** download_file, beyond the skip *)

Lemma assoc_assoc_set (name : string) (n : node)
      (entries : list (string * node)) :
  assoc name (assoc_set name n entries) = Some n.
Proof.
  induction entries as [|[k v] entries IH]; cbn [assoc_set assoc].
  - now rewrite String.eqb_refl.
  - destruct (String.eqb k name) eqn:E; cbn [assoc]; now rewrite E.
Qed.

(** A directory just made is empty: a file found below the path that
    [mkdir] was asked for shows that nothing was made. *)
Lemma mkdir_p_file_below (target : string) (p : Path) :
  forall n n' name content,
    mkdir_p target n p = Ok n' ->
    lookup n' (p ++ [name])%list = Some (File content) ->
    n' = n.
Proof.
  induction p as [|c rest IH]; intros n n' name content Hm Hl.
  - cbn in Hm. destruct n; inversion Hm. reflexivity.
  - cbn [mkdir_p] in Hm. destruct n as [|entries]; [discriminate Hm|].
    destruct (mkdir_p target
                (match assoc c entries with
                 | Some child => child
                 | None => Dir []
                 end) rest) as [child'|ex] eqn:Hc; [|discriminate Hm].
    cbn [res_bind] in Hm. inversion Hm; subst n'.
    cbn [app lookup] in Hl. rewrite assoc_assoc_set in Hl.
    pose proof (IH _ _ _ _ Hc Hl) as E. subst child'.
    destruct (assoc c entries) as [child|] eqn:Ea.
    + now rewrite (assoc_set_same _ _ _ Ea).
    + destruct rest; cbn in Hl; discriminate Hl.
Qed.

(** [mkdir] on a directory gives a directory. *)
Lemma mkdir_p_dir (target : string) (p : Path)
      (entries : list (string * node)) (n' : node) :
  mkdir_p target (Dir entries) p = Ok n' -> exists entries', n' = Dir entries'.
Proof.
  destruct p as [|c rest]; cbn [mkdir_p].
  - intros H. inversion H. now eexists.
  - destruct (mkdir_p target _ rest) as [child'|ex]; cbn [res_bind];
      intros H; inversion H. now eexists.
Qed.

Lemma run_external_not_skipped (e : env) (t : tool) (url : string)
      (local : Path) (w w' : world) (ok skipped : bool) :
  run_external e t url local w = Some (Ok (ok, skipped), w') ->
  skipped = false.
Proof.
  unfold run_external, mbind, log_transfer, mret, try_except.
  destruct (run_tool e t url) as [returncode [content|]].
  - match goal with
    | |- context [on_fs ?op ?w0] => destruct (on_fs op w0) as [[[[]|ex] w1]|]
    end; intros H; inversion H; reflexivity.
  - intros H; inversion H; reflexivity.
Qed.

Lemma transfer_not_skipped (e : env) (url : string) (local : Path)
      (w w' : world) (ok skipped : bool) :
  transfer e url local w = Some (Ok (ok, skipped), w') -> skipped = false.
Proof.
  unfold transfer.
  destruct (which_wget e); [apply run_external_not_skipped|].
  destruct (which_curl e); [apply run_external_not_skipped|].
  unfold run_builtin, mbind, lift, log_transfer, mret, mraise.
  destruct (Request url) as [[req|ex]|]; try discriminate.
  destruct (get_file e req) as [ex|data cut]; try discriminate.
  match goal with
  | |- context [on_fs ?op ?w0] => destruct (on_fs op w0) as [[[[]|ex] w1]|]
  end; try discriminate.
  destruct cut; intros H; inversion H; reflexivity.
Qed.

(** X5: [download_file] reports a skip only in the case of the skip: when
    it returns [(ok, True)], [ok] is [True], the resolved local path was a
    regular file, the size probe returned the length of that file, and
    the state is as it was. *)
Theorem download_file_skipped_means
        (e : env) (base_url remote_path : string) (local_path : Path)
        (w w' : world) (ok : bool) :
  download_file e base_url remote_path local_path w
  = Some (Ok (ok, true), w') ->
  ok = true /\ w' = w
  /\ exists content,
      lookup (Dir (fs w)) (resolve local_path) = Some (File content)
      /\ get_remote_size e base_url remote_path
         = ret (Some (Z.of_nat (String.length content))).
Proof.
  unfold download_file. unfold mbind at 1, lift.
  destruct (file_url base_url remote_path) as [[url|ex]|]; try discriminate.
  unfold mbind at 1, on_fs.
  destruct (mkdir_p (path_str (path_parent (resolve local_path)))
                    (Dir (fs w)) (path_parent (resolve local_path)))
    as [[c|entries]|ex] eqn:Hm; try discriminate.
  - destruct (mkdir_p_dir _ _ _ _ Hm) as [es E]. discriminate E.
  - unfold mbind at 1, stat. cbn [fs].
    destruct (lookup (Dir entries) (resolve local_path))
      as [[content|d]|] eqn:Hl;
      try (intros H; apply transfer_not_skipped in H; discriminate H).
    unfold mbind, lift.
    destruct (get_remote_size e base_url remote_path)
      as [[[size|]|ex]|] eqn:Hs; try discriminate;
      try (intros H; apply transfer_not_skipped in H; discriminate H).
    destruct ((0 <=? size)%Z
              && (Z.of_nat (String.length content) =? size)%Z) eqn:Hc;
      [|intros H; apply transfer_not_skipped in H; discriminate H].
    unfold mret. intros H. inversion H; subst ok w'. clear H.
    apply andb_true_iff in Hc as [_ Hc]. apply Z.eqb_eq in Hc. subst size.
    assert (Hne : resolve local_path <> []).
    { intros E. rewrite E in Hl. discriminate Hl. }
    rewrite (app_removelast_last "" Hne) in Hl.
    pose proof (mkdir_p_file_below _ _ _ _ _ _ Hm Hl) as E.
    inversion E; subst entries.
    rewrite <- (app_removelast_last "" Hne) in Hl.
    split; [reflexivity|]. split; [now destruct w|].
    exists content. now split.
Qed.

Lemma download_file_skipped_means_witness :
  true = true /\ world_with_copy = world_with_copy
  /\ exists content,
      lookup (Dir (fs world_with_copy)) (resolve ["save"; "a.txt"])
      = Some (File content)
      /\ get_remote_size env_sized "http://h" "a.txt"
         = ret (Some (Z.of_nat (String.length content))).
Proof.
  apply (download_file_skipped_means
           env_sized "http://h" "a.txt" ["save"; "a.txt"]
           world_with_copy world_with_copy true).
  reflexivity.
Defined.

(** X6: when the local file exists but the size probe gives no size, or a
    size other than the length of the file, [download_file] goes on to the
    transfer, from the state as it is. *)
Theorem download_file_size_differs
        (e : env) (base_url remote_path url : string) (local_path : Path)
        (w : world) (content : string) (remote_size : option Z) :
  file_url base_url remote_path = ret url ->
  lookup (Dir (fs w)) (resolve local_path) = Some (File content) ->
  get_remote_size e base_url remote_path = ret remote_size ->
  remote_size <> Some (Z.of_nat (String.length content)) ->
  download_file e base_url remote_path local_path w
  = transfer e url (resolve local_path) w.
Proof.
  intros Hurl Hfile Hsize Hne.
  destruct (lookup_file_parent _ _ _ Hfile) as [d Hd].
  unfold ret in *.
  unfold download_file, mbind, lift, on_fs, stat, mret, path_parent.
  rewrite Hurl. rewrite (mkdir_p_existing _ _ _ _ Hd).
  cbn [fs]. rewrite Hfile, Hsize.
  replace (World (fs w) (stdout w) (transfers w)) with w by (now destruct w).
  destruct remote_size as [size|]; [|reflexivity].
  destruct ((0 <=? size)%Z && (Z.of_nat (String.length content) =? size)%Z)
    eqn:Hc; [|reflexivity].
  apply andb_true_iff in Hc as [_ Hc]. apply Z.eqb_eq in Hc.
  subst size. now elim Hne.
Qed.

Lemma download_file_size_differs_witness :
  download_file env_sized "http://h" "a.txt" ["save"; "a.txt"]
                (World [("save", Dir [("a.txt", File "hi")])] [] [])
  = transfer env_sized "http://h/a.txt" (resolve ["save"; "a.txt"])
             (World [("save", Dir [("a.txt", File "hi")])] [] []).
Proof.
  apply (download_file_size_differs
           env_sized "http://h" "a.txt" "http://h/a.txt" ["save"; "a.txt"]
           (World [("save", Dir [("a.txt", File "hi")])] [] [])
           "hi" (Some 5%Z)); [reflexivity | reflexivity | reflexivity |].
  discriminate.
Defined.

Lemma lookup_empty_dir (c : string) (rest : Path) :
  lookup (Dir []) (c :: rest) = None.
Proof. reflexivity. Qed.

(** [mkdir] makes the directory asked for and no file below it. *)
Lemma mkdir_p_made (target : string) (p : Path) (name : string) :
  forall n n',
    mkdir_p target n p = Ok n' ->
    (exists d, lookup n' p = Some (Dir d))
    /\ (lookup n (p ++ [name])%list = None ->
        lookup n' (p ++ [name])%list = None).
Proof.
  induction p as [|c rest IH]; intros n n' Hm.
  - cbn in Hm. destruct n as [|d]; inversion Hm; subst.
    split; [now exists d | auto].
  - cbn [mkdir_p] in Hm. destruct n as [|entries]; [discriminate Hm|].
    destruct (mkdir_p target
                (match assoc c entries with
                 | Some child => child
                 | None => Dir []
                 end) rest) as [child'|ex] eqn:Hc; [|discriminate Hm].
    cbn [res_bind] in Hm. inversion Hm; subst n'.
    destruct (IH _ _ Hc) as [Hd Hn].
    cbn [app lookup]. rewrite assoc_assoc_set. split; [exact Hd|].
    intros H. apply Hn.
    destruct (assoc c entries) as [child|]; [exact H|].
    destruct rest; reflexivity.
Qed.

(** Writing a file that is not there, in a directory that is, puts it
    there. *)
Lemma write_file_fresh (target : string) (p : Path) (name content : string) :
  forall entries d,
    lookup (Dir entries) p = Some (Dir d) ->
    lookup (Dir entries) (p ++ [name])%list = None ->
    exists entries',
      write_file target (Dir entries) (p ++ [name])%list content
      = Ok (Dir entries')
      /\ lookup (Dir entries') (p ++ [name])%list = Some (File content).
Proof.
  induction p as [|c rest IH]; intros entries d Hd Hn.
  - cbn in Hd. inversion Hd; subst d. cbn [app lookup] in Hn.
    destruct (assoc name entries) as [x|] eqn:Ea; [discriminate Hn|].
    cbn [app write_file]. rewrite Ea.
    eexists. split; [reflexivity|].
    cbn [lookup]. now rewrite assoc_assoc_set.
  - cbn [lookup] in Hd. cbn [app lookup] in Hn.
    destruct (assoc c entries) as [child|] eqn:Ea; [|discriminate Hd].
    destruct child as [x|ces].
    { destruct rest; discriminate Hd. }
    destruct (IH ces d Hd Hn) as (ces' & Hw & Hl).
    cbn [app write_file]. rewrite Ea, Hw. cbn [res_bind].
    eexists. split; [reflexivity|].
    cbn [lookup]. now rewrite assoc_assoc_set.
Qed.

(** X7: without wget and curl, the download of a file that is not there
    yet, whose body arrives whole, returns [(True, False)] and leaves the
    body in the local file, in directories made on the way; nothing is
    printed and one transfer is started. *)
Theorem download_file_builtin_stores
        (e : env) (base_url remote_path url : string) (local_path : Path)
        (w : world) (data : string) (made : list (string * node)) :
  which_wget e = false -> which_curl e = false ->
  file_url base_url remote_path = ret url ->
  Request url = ret url ->
  get_file e url = Body data None ->
  lookup (Dir (fs w)) (resolve local_path) = None ->
  mkdir_p (path_str (path_parent (resolve local_path))) (Dir (fs w))
          (path_parent (resolve local_path)) = Ok (Dir made) ->
  exists w',
    download_file e base_url remote_path local_path w
    = Some (Ok (true, false), w')
    /\ lookup (Dir (fs w')) (resolve local_path) = Some (File data)
    /\ stdout w' = stdout w
    /\ transfers w'
       = (transfers w ++ [(Builtin, url, path_str (resolve local_path))])%list.
Proof.
  intros Hw Hc Hurl Hreq Hget Hnone Hmk.
  assert (Hne : resolve local_path <> []).
  { intros E. rewrite E in Hnone. discriminate Hnone. }
  pose proof (app_removelast_last "" Hne) as Esplit.
  set (local := resolve local_path) in *.
  set (name := last local "") in *.
  unfold path_parent in Hmk.
  destruct (mkdir_p_made _ _ name _ _ Hmk) as [[d Hd] Hkeep].
  rewrite <- Esplit in Hkeep. specialize (Hkeep Hnone).
  destruct (write_file_fresh (path_str local) (removelast local) name data
                             made d Hd)
    as (entries' & Hwrite & Hfound); [now rewrite <- Esplit|].
  rewrite <- Esplit in Hwrite, Hfound.
  exists (World entries' (stdout w)
                (transfers w ++ [(Builtin, url, path_str local)])%list).
  split; [|now repeat split].
  unfold ret in *.
  unfold download_file, mbind, lift, on_fs, stat, mret, path_parent.
  rewrite Hurl. fold local. rewrite Hmk. cbn [fs]. rewrite Hkeep.
  unfold transfer. rewrite Hw, Hc.
  unfold run_builtin, mbind, lift, log_transfer, on_fs, mret.
  rewrite Hreq, Hget. cbn [fs stdout transfers]. now rewrite Hwrite.
Qed.

Lemma download_file_builtin_stores_witness :
  exists w',
    download_file env_sized "http://h" "docs/b.txt" ["save"; "docs"; "b.txt"]
                  world_with_copy
    = Some (Ok (true, false), w')
    /\ lookup (Dir (fs w')) (resolve ["save"; "docs"; "b.txt"])
       = Some (File "hello")
    /\ stdout w' = stdout world_with_copy
    /\ transfers w'
       = (transfers world_with_copy
            ++ [(Builtin, "http://h/docs/b.txt",
                 path_str (resolve ["save"; "docs"; "b.txt"]))])%list.
Proof.
  apply (download_file_builtin_stores
           env_sized "http://h" "docs/b.txt" "http://h/docs/b.txt"
           ["save"; "docs"; "b.txt"] world_with_copy "hello"
           [("save", Dir [("a.txt", File "hello"); ("docs", Dir [])])]);
    reflexivity.
Defined.

(** X8: with wget or curl at hand, the transfer runs the tool, wget before
    curl, and never raises: the success reported is exactly "return code
    0", one transfer is started, nothing is printed, and the file system
    is untouched when the tool wrote nothing. *)
Theorem transfer_external_tool
        (e : env) (url : string) (local : Path) (w : world) :
  which_wget e = true \/ which_curl e = true ->
  let t := if which_wget e then Wget else Curl in
  exists w',
    transfer e url local w
    = Some (Ok (Z.eqb (fst (run_tool e t url)) 0, false), w')
    /\ stdout w' = stdout w
    /\ transfers w' = (transfers w ++ [(t, url, path_str local)])%list
    /\ (snd (run_tool e t url) = None -> fs w' = fs w).
Proof.
  intros Htool t.
  assert (Ht : transfer e url local w = run_external e t url local w).
  { unfold transfer, t. destruct (which_wget e); [reflexivity|].
    destruct Htool as [H|H]; [discriminate H | now rewrite H]. }
  rewrite Ht. unfold run_external, mbind, log_transfer, mret, try_except, on_fs.
  destruct (run_tool e t url) as [returncode [content|]]; cbn [fst snd fs stdout transfers].
  - destruct (write_file (path_str local) (Dir (fs w)) local content)
      as [[c|entries]|ex]; eexists; (split; [reflexivity|]);
      cbn [fs stdout transfers]; repeat split; discriminate.
  - eexists. split; [reflexivity|]. now repeat split.
Qed.

Lemma transfer_external_tool_witness :
  exists w',
    transfer env_tools "http://h/b.txt" ["save"; "b.txt"] world_with_copy
    = Some (Ok (Z.eqb (fst (run_tool env_tools Wget "http://h/b.txt")) 0,
                false), w')
    /\ stdout w' = stdout world_with_copy
    /\ transfers w'
       = (transfers world_with_copy
            ++ [(Wget, "http://h/b.txt", path_str ["save"; "b.txt"])])%list
    /\ (snd (run_tool env_tools Wget "http://h/b.txt") = None ->
        fs w' = fs world_with_copy).
Proof.
  apply (transfer_external_tool env_tools "http://h/b.txt" ["save"; "b.txt"]
                                world_with_copy).
  now left.
Defined.

(* ================================================================= *)
(** ** Where a folder is mirrored *)

Lemma last_default (l : list string) (a b : string) :
  l <> [] -> last l a = last l b.
Proof.
  intros H. destruct (exists_last H) as (l' & x & E). subst l.
  now rewrite !last_last.
Qed.

Lemma is_segment_facts (s : string) :
  is_segment s = true -> nonempty s = true /\ slash_free s = true.
Proof. unfold is_segment. intros H. now apply andb_true_iff in H. Qed.

(** The folder of a path made of segments bears the name of the last
    one. *)
Lemma folder_name_join (segments : list string) :
  forallb is_segment segments = true -> segments <> [] ->
  folder_name (join "/" segments) = last segments "".
Proof.
  intros H Hne.
  destruct (rstrip_join segments H Hne) as [Hr _].
  unfold folder_name. rewrite Hr, (split_join segments H Hne).
  assert (Hlast : nonempty (last_part segments) = true).
  { apply (last_part_forallb nonempty _ Hne).
    apply forallb_forall. intros x Hx. apply is_segment_facts.
    now apply (proj1 (forallb_forall _ _) H). }
  now rewrite Hlast.
Qed.

(** X9: the folder of a download is named after the last segment of the
    remote path, and ["download"] for the root. *)
Theorem folder_name_last_segment (segments : list string) :
  forallb is_segment segments = true ->
  folder_name (join "/" segments) = last segments "download".
Proof.
  intros H. destruct segments as [|s rest] eqn:E; [reflexivity|].
  rewrite <- E in *.
  assert (Hne : segments <> []) by (rewrite E; discriminate).
  destruct (rstrip_join segments H Hne) as [Hr _].
  unfold folder_name. rewrite Hr, (split_join segments H Hne).
  assert (Hlast : nonempty (last_part segments) = true).
  { apply (last_part_forallb nonempty _ Hne).
    apply forallb_forall. intros x Hx. apply is_segment_facts.
    now apply (proj1 (forallb_forall _ _) H). }
  rewrite Hlast. unfold last_part. now apply last_default.
Qed.

Lemma folder_name_last_segment_witness :
  folder_name (join "/" ["docs"; "img"]) = last ["docs"; "img"] "download".
Proof. apply (folder_name_last_segment ["docs"; "img"]). reflexivity. Defined.

Lemma drop_app (a b : string) : drop (String.length a) (a ++ b) = b.
Proof. induction a as [|c a IH]; [reflexivity | exact IH]. Qed.

Lemma join_app (a b : list string) :
  a <> [] -> b <> [] ->
  join "/" (a ++ b) = join "/" a ++ "/" ++ join "/" b.
Proof.
  intros Ha Hb. induction a as [|x rest IH]; [congruence|].
  destruct rest as [|y rest'].
  - cbn [app]. now rewrite join_cons.
  - change ((x :: y :: rest') ++ b)%list with (x :: ((y :: rest') ++ b))%list.
    rewrite join_cons by (cbn; discriminate).
    rewrite IH by discriminate.
    rewrite (join_cons x (y :: rest')) by discriminate.
    now rewrite !append_assoc.
Qed.

Lemma url_segments_head (l : list string) :
  forallb url_segment l = true -> l <> [] ->
  startswith (join "/" l) "/" = false.
Proof.
  intros H Hne. pose proof (parts_head l H Hne []) as [Hp _].
  now rewrite app_nil_r in Hp.
Qed.

Lemma path_components_segments (l : list string) :
  forallb url_segment l = true ->
  path_components (join "/" l) = l.
Proof.
  intros H. unfold path_components.
  destruct l as [|s rest] eqn:E; [reflexivity|]. rewrite <- E in *.
  rewrite split_join_slash_free.
  - clear E. induction l as [|x l IH]; [reflexivity|].
    cbn [forallb] in H. apply andb_true_iff in H as [Hx Hl].
    destruct (url_segment_facts x Hx) as (Hn & _ & _ & Hd).
    cbn [filter]. rewrite Hn. cbn [andb].
    unfold is_dot_name in Hd. cbn [mem_str existsb] in Hd.
    apply negb_true_iff, orb_false_iff in Hd as [Hd _]. rewrite Hd.
    cbn [negb]. now rewrite (IH Hl).
  - apply forallb_forall. intros x Hx. apply url_segment_facts.
    now apply (proj1 (forallb_forall _ _) H).
  - rewrite E. discriminate.
Qed.

(** X10: a folder is mirrored with its structure: the local file of a
    collected path, made of the segments of the remote folder followed by
    the segments below it, is the save directory, the last segment of the
    folder and the segments below. *)
Theorem download_folder_local_path
        (local_base : Path) (folder below : list string) :
  forallb url_segment folder = true -> folder <> [] ->
  forallb url_segment below = true -> below <> [] ->
  let remote_path := join "/" folder in
  let file_path := join "/" (folder ++ below) in
  path_div (path_div local_base (folder_name remote_path))
           (relative_path remote_path file_path)
  = (local_base ++ [last folder ""] ++ below)%list.
Proof.
  intros Hf Hfne Hb Hbne remote_path file_path.
  assert (Hseg : forallb is_segment folder = true).
  { apply forallb_forall. intros x Hx.
    destruct (url_segment_facts x (proj1 (forallb_forall _ _) Hf x Hx))
      as (H1 & H2 & _).
    unfold is_segment. now rewrite H1, H2. }
  assert (Hname : folder_name remote_path = last folder "").
  { unfold remote_path. now apply folder_name_join. }
  assert (Hlast : url_segment (last folder "") = true)
    by (now apply (last_part_forallb url_segment folder Hfne)).
  assert (Hrel : relative_path remote_path file_path = join "/" below).
  { unfold relative_path, folder_prefix, remote_path, file_path.
    destruct (rstrip_join folder Hseg Hfne) as [Hr _]. rewrite Hr.
    rewrite (join_app folder below Hfne Hbne).
    rewrite <- append_assoc, startswith_app. apply drop_app. }
  rewrite Hname, Hrel.
  assert (Hdiv : forall base l, forallb url_segment l = true -> l <> [] ->
                                path_div base (join "/" l) = (base ++ l)%list).
  { intros base l Hl Hlne. unfold path_div.
    now rewrite (url_segments_head l Hl Hlne), (path_components_segments l Hl). }
  change (last folder "") with (join "/" [last folder ""]).
  rewrite (Hdiv local_base [last folder ""]);
    [| cbn [forallb]; now rewrite Hlast | discriminate].
  rewrite (Hdiv _ below Hb Hbne). now rewrite <- app_assoc.
Qed.

Lemma download_folder_local_path_witness :
  path_div (path_div ["save"] (folder_name "remote/docs"))
           (relative_path "remote/docs" "remote/docs/img/logo.png")
  = ["save"; "docs"; "img"; "logo.png"].
Proof.
  apply (download_folder_local_path ["save"] ["remote"; "docs"]
                                    ["img"; "logo.png"]);
    (reflexivity || discriminate).
Defined.

(* ================================================================= *)
(** ** The session, pass by pass *)

Lemma segments_head (l : list string) :
  forallb is_segment l = true -> l <> [] ->
  lstrip_slash (join "/" l) = join "/" l.
Proof.
  intros H Hne. destruct l as [|s rest]; [congruence|].
  cbn [forallb] in H. apply andb_true_iff in H as [Hs _].
  destruct (is_segment_facts s Hs) as [Hn Hf].
  destruct s as [|c s']; [discriminate Hn|].
  assert (Hj : exists r, join "/" (String c s' :: rest) = String c r).
  { destruct rest; [now exists s'|].
    rewrite join_cons by discriminate. now eexists. }
  destruct Hj as [r Hj]. rewrite Hj.
  unfold slash_free in Hf. cbn [all_chars] in Hf.
  apply andb_true_iff in Hf as [Hc _]. apply negb_true_iff in Hc.
  now apply lstrip_by_noop.
Qed.

Lemma join_snoc (l : list string) (name : string) :
  l <> [] -> join "/" (l ++ [name]) = join "/" l ++ "/" ++ name.
Proof. intros H. now rewrite join_app by (assumption || discriminate). Qed.

(** The path of an entry of the current directory. *)
Lemma target_of_join (segments : list string) (name : string) :
  forallb is_segment segments = true -> is_segment name = true ->
  target_of (join "/" segments) name = join "/" (segments ++ [name]).
Proof.
  intros Hs Hn. destruct segments as [|s rest] eqn:E; [reflexivity|].
  rewrite <- E in *.
  assert (Hne : segments <> []) by (rewrite E; discriminate).
  assert (Hall : forallb is_segment (segments ++ [name]) = true).
  { rewrite forallb_app, Hs. cbn. now rewrite Hn. }
  assert (Hne' : (segments ++ [name])%list <> [])
    by (destruct segments; discriminate).
  destruct (rstrip_join segments Hs Hne) as [_ Hj].
  unfold target_of.
  replace (nonempty (join "/" segments)) with true
    by (destruct (join "/" segments); [congruence | reflexivity]).
  rewrite <- (join_snoc segments name Hne).
  unfold strip_slash, strip_by.
  fold (lstrip_slash (join "/" (segments ++ [name]))).
  rewrite (segments_head _ Hall Hne').
  apply (rstrip_join _ Hall Hne').
Qed.

(** X11: entering an entry and going up again leads back: for a current
    path made of segments and an entry name that is a segment, the parent
    of the path of the entry is the current path. *)
Theorem parent_of_target_of (segments : list string) (name : string) :
  forallb is_segment segments = true -> is_segment name = true ->
  parent_of (target_of (join "/" segments) name) = join "/" segments.
Proof.
  intros Hs Hn. rewrite (target_of_join segments name Hs Hn).
  rewrite parent_of_join.
  - now rewrite removelast_last.
  - rewrite forallb_app, Hs. cbn. now rewrite Hn.
Qed.

Lemma parent_of_target_of_witness :
  parent_of (target_of (join "/" ["a"; "b"]) "c") = join "/" ["a"; "b"].
Proof. apply (parent_of_target_of ["a"; "b"] "c"); reflexivity. Defined.

(** A pass whose listing fails prints the failure and ends the loop. *)
Lemma session_step_failed (fuel : nat) (e : env) (base_url : string)
      (save_dir : Path) (current_path : string) (ex : exn) :
  list_directory e base_url current_path = Some (Raise ex) ->
  exists header,
    prints (print_header current_path) header
    /\ forall line w,
        session_step fuel e base_url save_dir current_path line w
        = Some (Ok Return,
                World (fs w)
                      (stdout w ++ header
                         ++ [("Failed to list: " ++ exn_msg ex)%string])%list
                      (transfers w)).
Proof.
  intros Hl. destruct (prints_header current_path) as [h Hh].
  exists h. split; [exact Hh|]. intros line w.
  unfold session_step. unfold mbind at 1. rewrite Hh.
  unfold mbind at 1. unfold try_except, mbind at 1, lift. rewrite Hl.
  unfold mbind, print, mret. cbn [fs stdout transfers].
  now rewrite <- app_assoc.
Qed.

(** X12: a listing failure ends the session: the failure is printed, the
    loop returns normally, and none of the lines still to come is read;
    nothing is transferred and no file is touched. *)
Theorem session_ends_on_listing_failure
        (fuel : nat) (e : env) (base_url : string) (save_dir : Path)
        (current_path : string) (lines : list string) (ex : exn) (w : world) :
  list_directory e base_url current_path = Some (Raise ex) ->
  exists header,
    prints (print_header current_path) header
    /\ session_loop fuel e base_url save_dir current_path lines w
       = Some (Ok tt,
               World (fs w)
                     (stdout w ++ header
                        ++ [("Failed to list: " ++ exn_msg ex)%string])%list
                     (transfers w)).
Proof.
  intros Hl.
  destruct (session_step_failed fuel e base_url save_dir current_path ex Hl)
    as (h & Hh & Hstep).
  exists h. split; [exact Hh|].
  destruct lines as [|text rest]; cbn [session_loop]; unfold mbind;
    rewrite Hstep; reflexivity.
Qed.

Lemma session_ends_on_listing_failure_witness :
  exists header,
    prints (print_header "") header
    /\ session_loop 1 env_unreachable "http://h" ["save"] "" ["1"; "d2"; "q"]
                    empty_world
       = Some (Ok tt,
               World (fs empty_world)
                     (stdout empty_world ++ header
                        ++ ["Failed to list: <urlopen error timed out>"])%list
                     (transfers empty_world)).
Proof.
  apply (session_ends_on_listing_failure
           1 env_unreachable "http://h" ["save"] "" ["1"; "d2"; "q"]
           (Exn OSError "<urlopen error timed out>") empty_world).
  reflexivity.
Defined.

Lemma session_step_listed_any (fuel : nat) (e : env) (base_url : string)
      (save_dir : Path) (current_path : string) (line : option string)
      (items : list entry) :
  list_directory e base_url current_path = ret items ->
  exists out,
    forall w,
      session_step fuel e base_url save_dir current_path line w
      = match line with
        | None => (print (nl ++ "Bye!") ;; mret Return)%m
        | Some text =>
            dispatch fuel e base_url save_dir current_path items (strip text)
        end (World (fs w) (stdout w ++ out)%list (transfers w)).
Proof.
  intros Hl.
  destruct (prints_header current_path) as [h Hh].
  destruct (prints_listing items) as [l Hl'].
  exists (h ++ l)%list. intros w.
  unfold session_step. unfold mbind at 1. rewrite Hh.
  unfold mbind at 1. unfold try_except, mbind at 1, lift. rewrite Hl.
  cbn [ret mret]. unfold mbind at 1. rewrite Hl'.
  cbn [fs stdout transfers]. now rewrite app_assoc.
Qed.

Lemma select_index_moves (fuel : nat) (e : env) (base_url : string)
      (save_dir : Path) (current_path : string) (items : list entry)
      (force_download : bool) (digits p' : string) (w w' : world) :
  select_index fuel e base_url save_dir current_path items force_download
               digits w
  = Some (Ok (Continue p'), w') ->
  p' = current_path
  \/ exists name, In (name, true) items /\ p' = target_of current_path name.
Proof.
  unfold select_index, int_of. unfold mbind at 1, lift.
  destruct (read_int digits) as [idx| |d]; [|discriminate|discriminate].
  cbn [ret].
  destruct ((1 <=? idx)%Z && (idx <=? Z.of_nat (List.length items))%Z).
  - destruct (nth_error items (Z.to_nat (idx - 1))) as [[name is_dir]|] eqn:En.
    + destruct (is_dir && negb force_download) eqn:Hd.
      * unfold mret. intros H. inversion H; subst. right. exists name.
        apply andb_true_iff in Hd as [Hd _]. subst is_dir.
        split; [|reflexivity]. now apply nth_error_In in En.
      * intros H. apply guarded_download_continues in H.
        inversion H. now left.
    + unfold mret. intros H. inversion H. now left.
  - unfold mbind, print, mret. intros H. inversion H. now left.
Qed.

Lemma select_name_moves (e : env) (base_url : string) (save_dir : Path)
      (current_path : string) (items : list entry) (name p' : string)
      (w w' : world) :
  select_name e base_url save_dir current_path items name w
  = Some (Ok (Continue p'), w') ->
  p' = current_path
  \/ (In (name, true) items /\ p' = target_of current_path name).
Proof.
  unfold select_name.
  destruct (filter (fun it => String.eqb (fst it) name) items)
    as [|[n is_dir] rest] eqn:Ef.
  - unfold mbind, print, mret. intros H. inversion H. now left.
  - assert (Hin : In (n, is_dir)
                     (filter (fun it => String.eqb (fst it) name) items))
      by (rewrite Ef; now left).
    apply filter_In in Hin as [Hin Hn]. cbn [fst] in Hn.
    apply String.eqb_eq in Hn. subst n.
    destruct is_dir.
    + unfold mret. intros H. inversion H. right. now split.
    + intros H. apply guarded_download_continues in H.
      inversion H. now left.
Qed.

(** What a pass can do to the current path, whatever is typed. *)
Lemma dispatch_moves (fuel : nat) (e : env) (base_url : string)
      (save_dir : Path) (current_path : string) (items : list entry)
      (user_input p' : string) (w w' : world) :
  dispatch fuel e base_url save_dir current_path items user_input w
  = Some (Ok (Continue p'), w') ->
  p' = current_path \/ p' = parent_of current_path
  \/ exists name, In (name, true) items /\ p' = target_of current_path name.
Proof.
  unfold dispatch.
  destruct (nonempty user_input); cbn [negb].
  2:{ unfold mret. intros H. inversion H. now left. }
  destruct (mem_str (lower user_input) ["q"; "quit"; "exit"]).
  { unfold mbind, print, mret. intros H. inversion H. }
  destruct (mem_str user_input [".."; "cd .."]).
  { unfold mret. intros H. inversion H. right. now left. }
  match goal with
  | |- context [if isdigit ?u then _ else _] => destruct (isdigit u)
  end.
  - intros H. apply select_index_moves in H as [H|H]; auto.
  - intros H. apply select_name_moves in H as [H|[H1 H2]]; eauto.
Qed.

(** A pass that leads to a next pass got its listing and a line, and the
    dispatch on the line named the path. *)
Lemma session_step_continues
      (fuel : nat) (e : env) (base_url : string) (save_dir : Path)
      (current_path : string) (line : option string) (p' : string)
      (w w' : world) :
  session_step fuel e base_url save_dir current_path line w
  = Some (Ok (Continue p'), w') ->
  exists items text w0,
    list_directory e base_url current_path = ret items
    /\ dispatch fuel e base_url save_dir current_path items (strip text) w0
       = Some (Ok (Continue p'), w').
Proof.
  intros H.
  destruct (list_directory e base_url current_path) as [[items|ex]|] eqn:Hl.
  - destruct (session_step_listed_any fuel e base_url save_dir current_path
                                      line items Hl) as [out Hout].
    rewrite Hout in H. destruct line as [text|].
    + now exists items, text, (World (fs w) (stdout w ++ out)%list (transfers w)).
    + unfold mbind, print, mret in H. inversion H.
  - destruct (session_step_failed fuel e base_url save_dir current_path
                                  ex Hl) as (h & _ & Hstep).
    rewrite Hstep in H. inversion H.
  - unfold session_step in H. unfold mbind at 1 in H.
    destruct (prints_header current_path) as [h Hh]. rewrite Hh in H.
    unfold mbind at 1, try_except, mbind at 1, lift in H.
    rewrite Hl in H. discriminate H.
Qed.

(** X13: whatever the user types, a pass of the session leaves the current
    path as it is, replaces it by its parent, or replaces it by the path
    of an entry of the listing that is a directory; it never moves into a
    file or to a path that is not listed. *)
Theorem session_step_moves
        (fuel : nat) (e : env) (base_url : string) (save_dir : Path)
        (current_path : string) (line : option string) (p' : string)
        (w w' : world) :
  session_step fuel e base_url save_dir current_path line w
  = Some (Ok (Continue p'), w') ->
  p' = current_path \/ p' = parent_of current_path
  \/ exists items name,
      list_directory e base_url current_path = ret items
      /\ In (name, true) items
      /\ p' = target_of current_path name.
Proof.
  intros H.
  apply session_step_continues in H as (items & text & w0 & Hl & H).
  apply dispatch_moves in H as [H|[H|(name & Hin & Hp)]].
  - now left.
  - right. now left.
  - right. right. now exists items, name.
Qed.

Lemma session_step_moves_witness :
  "A/B" = "A" \/ "A/B" = parent_of "A"
  \/ exists items name,
      list_directory env_tree_A "http://h" "A" = ret items
      /\ In (name, true) items
      /\ "A/B" = target_of "A" name.
Proof.
  apply (session_step_moves
           0 env_tree_A "http://h" ["save"] "A" (Some "2") "A/B" empty_world
           (snd (match session_step 0 env_tree_A "http://h" ["save"] "A"
                                    (Some "2") empty_world with
                 | Some p => p
                 | None => (Ok Return, empty_world)
                 end))).
  reflexivity.
Defined.

Lemma forallb_removelast (q : string -> bool) (l : list string) :
  forallb q l = true -> forallb q (removelast l) = true.
Proof.
  intros H. apply forallb_forall. intros x Hx.
  apply (proj1 (forallb_forall _ _) H).
  destruct l as [|a l']; [destruct Hx|].
  assert (Hne : a :: l' <> []) by discriminate.
  destruct (exists_last Hne) as (l0 & y & E). rewrite E in *.
  rewrite removelast_last in Hx. apply in_or_app. now left.
Qed.

(** X14: the current path stays a path made of segments: when the names the
    server lists for the current directory are segments (not empty, no
    slash), a pass that starts from a path made of segments leads to a
    path made of segments. *)
Theorem session_path_stays_segments
        (fuel : nat) (e : env) (base_url : string) (save_dir : Path)
        (segments : list string) (line : option string) (p' : string)
        (w w' : world) :
  (forall items,
      list_directory e base_url (join "/" segments) = ret items ->
      forallb (fun it => is_segment (fst it)) items = true) ->
  forallb is_segment segments = true ->
  session_step fuel e base_url save_dir (join "/" segments) line w
  = Some (Ok (Continue p'), w') ->
  exists segments',
    p' = join "/" segments' /\ forallb is_segment segments' = true.
Proof.
  intros Hnames Hseg H.
  apply session_step_continues in H as (items & text & w0 & Hl & H).
  apply dispatch_moves in H as [H|[H|(name & Hin & Hp)]].
  - now exists segments.
  - exists (removelast segments). split.
    + rewrite H. now apply parent_of_join.
    + now apply forallb_removelast.
  - assert (Hn : is_segment name = true).
    { apply (proj1 (forallb_forall _ _) (Hnames items Hl) (name, true) Hin). }
    exists (segments ++ [name])%list. split.
    + rewrite Hp. now apply target_of_join.
    + rewrite forallb_app, Hseg. cbn. now rewrite Hn.
Qed.

Lemma session_path_stays_segments_witness :
  exists segments',
    "A/B" = join "/" segments' /\ forallb is_segment segments' = true.
Proof.
  apply (session_path_stays_segments
           0 env_tree_A "http://h" ["save"] ["A"] (Some "B") "A/B" empty_world
           (snd (match session_step 0 env_tree_A "http://h" ["save"] "A"
                                    (Some "B") empty_world with
                 | Some p => p
                 | None => (Ok Return, empty_world)
                 end))).
  - intros items H. inversion H. reflexivity.
  - reflexivity.
  - reflexivity.
Defined.

(** A number that is typed goes to the dispatch on the number, the
    download not forced. *)
Lemma dispatch_number (fuel : nat) (e : env) (base_url : string)
      (save_dir : Path) (current_path : string) (items : list entry)
      (digits : string) :
  isdigit digits = true ->
  dispatch fuel e base_url save_dir current_path items digits
  = select_index fuel e base_url save_dir current_path items false digits.
Proof.
  intros H. destruct digits as [|c s]; [discriminate H|].
  assert (Hc : isdigit_char c = true).
  { unfold isdigit in H. cbn [all_chars] in H.
    now apply andb_true_iff in H as [Hc _]. }
  assert (Hfirst :
            mem_str (lower (String c s)) ["q"; "quit"; "exit"] = false
            /\ mem_str (String c s) [".."; "cd .."] = false
            /\ startswith (lower (String c s)) "d" = false).
  { destruct c as [b0 b1 b2 b3 b4 b5 b6 b7].
    destruct b0, b1, b2, b3, b4, b5, b6, b7;
      try discriminate Hc; repeat split. }
  destruct Hfirst as (H1 & H2 & H3).
  unfold dispatch. cbn [nonempty negb]. rewrite H1, H2, H3.
  cbn [andb]. now rewrite H.
Qed.

(** X15: a number typed without [d] that is the number of a directory moves
    into that directory and downloads nothing: the pass does nothing but
    print, and the next pass is for the path of the entry. *)
Theorem session_enters_directory
        (fuel : nat) (e : env) (base_url : string) (save_dir : Path)
        (current_path : string) (items : list entry) (line : string)
        (idx : Z) (name : string) (w : world) :
  list_directory e base_url current_path = ret items ->
  isdigit (strip line) = true ->
  py_int (strip line) = Some idx ->
  nth_error items (Z.to_nat (idx - 1)) = Some (name, true) ->
  (1 <= idx)%Z ->
  exists out,
    session_step fuel e base_url save_dir current_path (Some line) w
    = Some (Ok (Continue (target_of current_path name)),
            World (fs w) (stdout w ++ out)%list (transfers w)).
Proof.
  intros Hl Hd Hi Hn Hpos.
  destruct (session_step_listed fuel e base_url save_dir current_path
                                line items Hl) as [out Hout].
  exists out. rewrite Hout, (dispatch_number _ _ _ _ _ _ _ Hd).
  unfold select_index. rewrite (int_of_value _ _ Hi).
  unfold mbind, lift, ret.
  unfold entry in *. rewrite Hn.
  assert (Hlen : (idx <= Z.of_nat (List.length items))%Z).
  { assert (Z.to_nat (idx - 1) < List.length items)%nat
      by (apply nth_error_Some; now rewrite Hn).
    lia. }
  apply Z.leb_le in Hpos, Hlen. now rewrite Hpos, Hlen.
Qed.

Lemma session_enters_directory_witness :
  exists out,
    session_step 0 env_tree_A "http://h" ["save"] "A" (Some " 2 ") empty_world
    = Some (Ok (Continue (target_of "A" "B")),
            World (fs empty_world) (stdout empty_world ++ out)%list
                  (transfers empty_world)).
Proof.
  apply (session_enters_directory
           0 env_tree_A "http://h" ["save"] "A"
           [("x.txt", false); ("B", true)] " 2 " 2%Z "B" empty_world);
    (reflexivity || lia).
Defined.

(* ================================================================= *)
(** ** download_folder, beyond the per-file catch *)







(* ================================================================= *)
(** ** normalize_base_url on a host *)

Lemma strip_no_blank (s : string) :
  all_chars (fun c => negb (isspace c)) s = true -> strip s = s.
Proof.
  intros H. unfold strip, strip_by.
  assert (Hl : lstrip_by isspace s = s).
  { destruct s as [|c s]; [reflexivity|]. cbn [all_chars] in H.
    apply andb_true_iff in H as [Hc _]. apply negb_true_iff in Hc.
    now apply lstrip_by_noop. }
  rewrite Hl. now apply rstrip_by_noop.
Qed.

Lemma netloc_char_plain (c : ascii) :
  netloc_char c = true ->
  negb (isspace c) = true /\ negb (is_slash c) = true.
Proof.
  unfold netloc_char, isspace, is_slash. intros H.
  apply andb_true_iff in H as [H H3]. apply andb_true_iff in H as [H1 _].
  apply Nat.ltb_lt in H1. split.
  - apply negb_true_iff, orb_false_iff. split; apply andb_false_iff; right;
      apply Nat.leb_gt; lia.
  - apply negb_true_iff in H3. cbn [mem_char] in H3.
    apply orb_false_iff in H3 as [H3 _]. now rewrite H3.
Qed.

Lemma slash_not_blank (s : string) :
  all_chars is_slash s = true ->
  all_chars (fun c => negb (isspace c)) s = true.
Proof.
  apply all_chars_impl. intros c Hc. unfold is_slash in Hc.
  apply Ascii.eqb_eq in Hc. now subst c.
Qed.

Lemma startswith_mem_char (s p : string) (c : ascii) :
  startswith s p = true -> mem_char c p = true -> mem_char c s = true.
Proof.
  intros Hs Hc. rewrite (startswith_drop s p Hs), mem_char_app, Hc.
  reflexivity.
Qed.

(** X18: [normalize_base_url] makes a well-formed base of a host with an
    optional port, followed by any number of slashes: [http://] is put in
    front of a bare host, a base that has its scheme is kept, and the
    slashes are dropped. *)
Theorem normalize_base_url_host (scheme netloc slashes : string) :
  is_web_scheme scheme = true ->
  is_netloc netloc = true ->
  all_chars is_slash slashes = true ->
  normalize_base_url (netloc ++ slashes) = server_base "http" netloc
  /\ normalize_base_url (server_base scheme netloc ++ slashes)
     = server_base scheme netloc.
Proof.
  intros Hs Hn Hsl.
  pose proof (netloc_chars netloc Hn) as Hchars.
  assert (Hnb : all_chars (fun c => negb (isspace c)) netloc = true).
  { eapply all_chars_impl; [|exact Hchars].
    intros c Hc. apply (netloc_char_plain c Hc). }
  assert (Hnf : rstrip_by is_slash netloc = netloc).
  { apply rstrip_by_noop. eapply all_chars_impl; [|exact Hchars].
    intros c Hc. apply (netloc_char_plain c Hc). }
  assert (Hne : netloc <> "")
    by (apply nonempty_true, (netloc_nonempty netloc Hn)).
  assert (Hr : forall pre,
             rstrip_slash (pre ++ netloc ++ slashes) = pre ++ netloc).
  { intros pre. unfold rstrip_slash.
    rewrite !rstrip_by_app, (rstrip_by_only _ _ Hsl), Hnf.
    destruct netloc; [congruence | reflexivity]. }
  assert (Hst : forall pre,
             all_chars (fun c => negb (isspace c)) pre = true ->
             strip (pre ++ netloc ++ slashes) = pre ++ netloc ++ slashes).
  { intros pre Hp. apply strip_no_blank.
    now rewrite !all_chars_app, Hp, Hnb, (slash_not_blank _ Hsl). }
  assert (Hno : has_scheme netloc = false).
  { unfold has_scheme. apply orb_false_iff.
    split; apply not_true_is_false; intros H;
      apply (startswith_mem_char _ _ "/"%char) in H; try reflexivity;
      now rewrite (netloc_slash_free netloc Hn) in H. }
  split.
  - pose proof (Hst "" eq_refl) as H0. pose proof (Hr "") as H1.
    cbn [append] in H0, H1.
    unfold normalize_base_url. now rewrite H0, H1, Hno.
  - unfold is_web_scheme in Hs. cbn [mem_str existsb] in Hs.
    rewrite orb_false_r in Hs. apply orb_true_iff in Hs as [Hs|Hs];
      apply String.eqb_eq in Hs; subst scheme;
      unfold normalize_base_url.
    + change (server_base "http" netloc ++ slashes)
        with ("http://" ++ netloc ++ slashes).
      rewrite (Hst "http://" eq_refl), (Hr "http://").
      unfold has_scheme.
      now rewrite (startswith_app "http://" netloc).
    + change (server_base "https" netloc ++ slashes)
        with ("https://" ++ netloc ++ slashes).
      rewrite (Hst "https://" eq_refl), (Hr "https://").
      unfold has_scheme.
      now rewrite (startswith_app "https://" netloc), orb_true_r.
Qed.

Lemma normalize_base_url_host_witness :
  normalize_base_url ("192.168.1.100:6008" ++ "//")
  = server_base "http" "192.168.1.100:6008"
  /\ normalize_base_url (server_base "https" "192.168.1.100:6008" ++ "//")
     = server_base "https" "192.168.1.100:6008".
Proof.
  apply (normalize_base_url_host "https" "192.168.1.100:6008" "//");
    reflexivity.
Defined.

(* ================================================================= *)
(** ** is_directory *)

(** The listing made first is of the path itself when it holds a slash:
    where the server refuses to list a file, the question fails for the
    file. *)
Example is_directory_examples :
  is_directory env_tree_A "http://h" "A/B" = ret true
  /\ is_directory env_tree_A "http://h" "A/x.txt"
     = Some (Raise (Exn OSError "HTTP Error 404: Not Found"))
  /\ is_directory env_unreachable "http://h" ""
     = Some (Raise (Exn OSError "<urlopen error timed out>")).
Proof. repeat split. Qed.

(** X19: for a path made of segments, [is_directory] answers with the
    listing of the parent: the flag of the first entry that bears the
    last segment as its name, [False] when there is none.  The listing
    made first, whose result is not used, has to succeed as well. *)
Theorem is_directory_from_parent
        (e : env) (base_url : string) (segments : list string)
        (name : string) (unused items : list entry) :
  forallb is_segment segments = true ->
  is_segment name = true ->
  let path := join "/" (segments ++ [name]) in
  list_directory e base_url (if mem_char "/" path then path else "")
  = ret unused ->
  list_directory e base_url (join "/" segments) = ret items ->
  is_directory e base_url path = ret (first_flag name items).
Proof.
  intros Hs Hn path Hfirst Hparent.
  assert (Hall : forallb is_segment (segments ++ [name]) = true).
  { rewrite forallb_app, Hs. cbn. now rewrite Hn. }
  assert (Hne : (segments ++ [name])%list <> [])
    by (destruct segments; discriminate).
  destruct (rstrip_join _ Hall Hne) as [Hr Hnon].
  fold path in Hr, Hnon.
  assert (Hne' : nonempty path = true)
    by (destruct path; [congruence | reflexivity]).
  assert (Hslash : String.eqb path "/" = false).
  { apply String.eqb_neq. intros E.
    pose proof (segments_head _ Hall Hne) as Hh. fold path in Hh.
    rewrite E in Hh. discriminate Hh. }
  unfold is_directory. rewrite Hfirst. cbn [pres_bind ret].
  rewrite Hne', Hslash. cbn [negb orb].
  rewrite Hr. unfold path. rewrite (split_join _ Hall Hne).
  rewrite removelast_last. unfold last_part. rewrite last_last.
  assert (Hl : (if nonempty (join "/" segments)
                then list_directory e base_url (join "/" segments)
                else list_directory e base_url "")
               = Some (Ok items)).
  { destruct (join "/" segments) eqn:E; cbn [nonempty]; exact Hparent. }
  rewrite Hl. reflexivity.
Qed.

Lemma is_directory_from_parent_witness :
  is_directory env_tree_A "http://h" (join "/" (["A"] ++ ["B"]))
  = ret (first_flag "B" [("x.txt", false); ("B", true)]).
Proof.
  apply (is_directory_from_parent
           env_tree_A "http://h" ["A"] "B" [("y.txt", false)]
           [("x.txt", false); ("B", true)]); reflexivity.
Defined.

(* ================================================================= *)
(** ** main *)

(** X20: when the listing of the root fails, [main] prints the banner and
    the two lines about the connection and exits with status 1: no line
    of input is read, nothing is transferred, and the save directory is
    the only thing made. *)
Theorem main_exits_on_connection_failure
        (fuel : nat) (e : env) (url : string) (dir : Path)
        (lines : list string) (w : world) (ex : exn)
        (made : list (string * node)) :
  mkdir_p (path_str (resolve dir)) (Dir (fs w)) (resolve dir) = Ok (Dir made) ->
  list_directory e (normalize_base_url url) "" = Some (Raise ex) ->
  main fuel e url dir lines w
  = Some (Ok 1%Z,
          World made
                (stdout w
                   ++ ["Dufs download client";
                       "Server: " ++ normalize_base_url url;
                       "Save dir: " ++ path_str (resolve dir);
                       "";
                       "Cannot connect to server " ++ normalize_base_url url
                         ++ ": " ++ exn_msg ex;
                       "Check server address, port and network connection"]%string)%list
                (transfers w)).
Proof.
  intros Hm Hl. unfold main.
  unfold mbind at 1, on_fs. rewrite Hm.
  unfold mbind, print, try_except, lift, mret. rewrite Hl.
  cbn [fs stdout transfers]. now rewrite <- !app_assoc.
Qed.

Lemma main_exits_on_connection_failure_witness :
  main 1 env_unreachable "h:6008/" ["save"] ["1"; "q"] empty_world
  = Some (Ok 1%Z,
          World [("save", Dir [])]
                ["Dufs download client";
                 "Server: http://h:6008";
                 "Save dir: /save";
                 "";
                 "Cannot connect to server http://h:6008: <urlopen error timed out>";
                 "Check server address, port and network connection"]
                []).
Proof.
  apply (main_exits_on_connection_failure
           1 env_unreachable "h:6008/" ["save"] ["1"; "q"] empty_world
           (Exn OSError "<urlopen error timed out>") [("save", Dir [])]);
    reflexivity.
Defined.

(* ================================================================= *)
(** ** The session as a whole *)










(** X22: a quit word ends the session whatever its case and whatever is
    listed: in a pass that gets its listing, [q], [quit] or [exit], in any
    mix of capitals and with blanks around, prints [Bye!] and ends the
    loop; an entry of that name is not selected. *)
Theorem session_quits
        (fuel : nat) (e : env) (base_url : string) (save_dir : Path)
        (current_path : string) (items : list entry) (line : string)
        (w : world) :
  list_directory e base_url current_path = ret items ->
  mem_str (lower (strip line)) ["q"; "quit"; "exit"] = true ->
  exists out,
    session_step fuel e base_url save_dir current_path (Some line) w
    = Some (Ok Return,
            World (fs w) (stdout w ++ out ++ ["Bye!"])%list (transfers w)).
Proof.
  intros Hl Hq.
  destruct (session_step_listed fuel e base_url save_dir current_path
                                line items Hl) as [out Hout].
  exists out. rewrite Hout. unfold dispatch.
  assert (Hne : nonempty (strip line) = true).
  { destruct (strip line); [discriminate Hq | reflexivity]. }
  rewrite Hne, Hq. cbn [negb]. unfold mbind, print, mret.
  cbn [fs stdout transfers]. now rewrite <- app_assoc.
Qed.

Lemma session_quits_witness :
  exists out,
    session_step 0 env_tree_A "http://h" ["save"] "A" (Some " QuIt ")
                 empty_world
    = Some (Ok Return,
            World (fs empty_world) (stdout empty_world ++ out ++ ["Bye!"])%list
                  (transfers empty_world)).
Proof.
  apply (session_quits 0 env_tree_A "http://h" ["save"] "A"
                       [("x.txt", false); ("B", true)] " QuIt " empty_world);
    reflexivity.
Defined.

